(** * ClawPay MCP: the x402 session subsystem

    A shallow embedding of [src/session/manager.ts] (token codec and session
    store), of the session tools [handleX402SessionStart] and
    [handleX402SessionFetch] of [src/tools/session.ts], and of the
    auto-session path of [handleX402Pay] in [src/tools/x402.ts], followed by
    the properties of the specification that concern them.

    Modelling conventions.
    - A JavaScript string is a [string]: the bytes of its UTF-8 encoding.
      [Buffer.from(s)] and [buf.toString('utf-8')] are therefore the
      identity on the representation (the substitution of U+FFFD for
      ill-formed input is outside the model).  Lengths and indices count
      bytes; those of the program count UTF-16 code units, and the two
      agree on ASCII strings: a property of a length or of a cut is
      stated for such strings.
    - A [number] holding a Unix time, a counter or a TTL is a [Z]; a [bigint]
      is a [Z].  The arithmetic of the model is exact; that of the program
      is done in doubles, and the two agree on the safe integers
      ([Js.adds_exactly]): a property of a sum is stated for such
      numbers.
    - [toISOString] is read from the environment for the times that
      [Date] holds ([Js.valid_time]); beyond them the program throws a
      [RangeError], and a property of a handler that prints a date is
      stated for such times.
    - The session table is a JavaScript [Map]: an association list in
      insertion order with at most one entry per key.  A [SessionRecord]
      object lives in its slot of the table; code that reads a field of a
      record after a mutation reads the slot again.
    - Effects (the table, the clock, identifiers, outgoing requests) are
      threaded through a state-and-exception monad over [World]; whatever
      the outside decides (servers, the payment client, the signer, the
      process environment) is read from an [Env]. *)

From Stdlib Require Import ZArith NArith String Ascii List Bool Lia.
From Stdlib Require Import Decimal DecimalString DecimalZ DecimalPos DecimalFacts.
Import ListNotations.

Local Open Scope string_scope.
Local Open Scope Z_scope.

Set Implicit Arguments.
Set Warnings "-register-all".

(* ================================================================== *)
(** * JavaScript string primitives *)
(* ================================================================== *)

Module Str.

(** [s.length] *)
Definition length (s : string) : Z := Z.of_nat (String.length s).

(** [s.startsWith(p)] *)
Fixpoint startsWith (s p : string) {struct p} : bool :=
  match p with
  | EmptyString => true
  | String b p' =>
      match s with
      | EmptyString => false
      | String a s' => Ascii.eqb a b && startsWith s' p'
      end
  end.

(** The characters of [s] from position [n] on. *)
Fixpoint drop (n : nat) (s : string) : string :=
  match n, s with
  | O, _ => s
  | S _, EmptyString => EmptyString
  | S n', String _ s' => drop n' s'
  end.

(** The first [n] characters of [s]. *)
Fixpoint take (n : nat) (s : string) : string :=
  match n, s with
  | O, _ => EmptyString
  | S _, EmptyString => EmptyString
  | S n', String a s' => String a (take n' s')
  end.

(** [s.endsWith(p)] *)
Definition endsWith (s p : string) : bool :=
  (String.length p <=? String.length s)%nat
  && String.eqb (drop (String.length s - String.length p) s) p.

(** Relative index of [slice]: negative counts from the end, and the
    result is clamped to [0 .. length]. *)
Definition rel_index (len i : Z) : Z :=
  if i <? 0 then Z.max (len + i) 0 else Z.min i len.

(** [s.slice(start, end)] *)
Definition slice (s : string) (i j : Z) : string :=
  let from := rel_index (length s) i in
  let to := rel_index (length s) j in
  take (Z.to_nat (to - from)) (drop (Z.to_nat from) s).

(** [s.slice(start)] *)
Definition slice_from (s : string) (i : Z) : string :=
  slice s i (length s).

Fixpoint lastIndexOf_from (c : ascii) (s : string) (i acc : Z) : Z :=
  match s with
  | EmptyString => acc
  | String a s' =>
      lastIndexOf_from c s' (i + 1) (if Ascii.eqb a c then i else acc)
  end.

(** [s.lastIndexOf(c)] for a one-character search string: the index of
    the last occurrence, or [-1]. *)
Definition lastIndexOf (s : string) (c : ascii) : Z :=
  lastIndexOf_from c s 0 (-1).

(** [c] occurs in [s]. *)
Fixpoint mem (c : ascii) (s : string) : bool :=
  match s with
  | EmptyString => false
  | String a s' => Ascii.eqb a c || mem c s'
  end.

(** [hay.includes(needle)], as a proposition. *)
Definition includes (hay needle : string) : Prop :=
  exists a b, hay = a ++ needle ++ b.

(** [String(n)] / [n.toString()] for an integer. *)
Definition of_Z (n : Z) : string := NilZero.string_of_int (Z.to_int n).

(** [arr.join(sep)] *)
Fixpoint join (sep : string) (l : list string) : string :=
  match l with
  | [] => EmptyString
  | [x] => x
  | x :: l' => x ++ sep ++ join sep l'
  end.

End Str.

(* ================================================================== *)
(** * The runtime: insertion-ordered maps, base64url, JSON, parseInt *)
(* ================================================================== *)

(** A JavaScript [Map] with string keys (and, for the same reason, the own
    properties of a plain object): entries are kept in insertion order,
    [set] on a present key overwrites the value in place, [delete] removes
    the entry. *)
Module JsMap.

Section WithValue.
Variable V : Type.

Definition t := list (string * V).

Fixpoint get (m : t) (k : string) : option V :=
  match m with
  | [] => None
  | (k', v) :: m' => if String.eqb k' k then Some v else get m' k
  end.

Fixpoint set (m : t) (k : string) (v : V) : t :=
  match m with
  | [] => [(k, v)]
  | (k', v') :: m' =>
      if String.eqb k' k then (k', v) :: m' else (k', v') :: set m' k v
  end.

Fixpoint delete (m : t) (k : string) : t :=
  match m with
  | [] => []
  | (k', v') :: m' =>
      if String.eqb k' k then m' else (k', v') :: delete m' k
  end.

Definition keys (m : t) : list string := map fst m.
Definition values (m : t) : list V := map snd m.

(** No key occurs twice. *)
Definition wf (m : t) : Prop := NoDup (keys m).

End WithValue.

End JsMap.

(** [Buffer.from(s).toString('base64url')] and
    [Buffer.from(s, 'base64url')].  These are models of the Node.js
    runtime; the decoder is the lenient one of Node: it accepts the
    standard and the URL-safe alphabet, skips every other character, and
    stops at the first [=]. *)
Module Base64url.

Local Open Scope N_scope.

Definition alphabet : string :=
  "ABCDEFGHIJKLMNOPQRSTUVWXYZabcdefghijklmnopqrstuvwxyz0123456789-_".

Definition digit (v : N) : ascii :=
  match String.get (N.to_nat v) alphabet with
  | Some c => c
  | None => "A"%char
  end.

Definition unbase64 (c : ascii) : option N :=
  let n := N_of_ascii c in
  if (65 <=? n) && (n <=? 90) then Some (n - 65)
  else if (97 <=? n) && (n <=? 122) then Some (n - 71)
  else if (48 <=? n) && (n <=? 57) then Some (n + 4)
  else if (n =? 43) || (n =? 45) then Some 62
  else if (n =? 47) || (n =? 95) then Some 63
  else None.

Fixpoint encode (s : string) : string :=
  match s with
  | EmptyString => EmptyString
  | String a EmptyString =>
      let b0 := N_of_ascii a in
      String (digit (b0 / 4)) (String (digit ((b0 mod 4) * 16)) EmptyString)
  | String a (String b EmptyString) =>
      let b0 := N_of_ascii a in
      let b1 := N_of_ascii b in
      String (digit (b0 / 4))
        (String (digit ((b0 mod 4) * 16 + b1 / 16))
           (String (digit ((b1 mod 16) * 4)) EmptyString))
  | String a (String b (String c r)) =>
      let b0 := N_of_ascii a in
      let b1 := N_of_ascii b in
      let b2 := N_of_ascii c in
      String (digit (b0 / 4))
        (String (digit ((b0 mod 4) * 16 + b1 / 16))
           (String (digit ((b1 mod 16) * 4 + b2 / 64))
              (String (digit (b2 mod 64)) (encode r))))
  end.

(** The six-bit values of the legal characters of [s] up to the first [=]. *)
Fixpoint sextets (s : string) : list N :=
  match s with
  | EmptyString => []
  | String c r =>
      if Ascii.eqb c "="%char then []
      else match unbase64 c with
           | Some v => v :: sextets r
           | None => sextets r
           end
  end.

Definition byte (n : N) : ascii := ascii_of_N (n mod 256).

Fixpoint decode_sextets (l : list N) : string :=
  match l with
  | c0 :: c1 :: c2 :: c3 :: r =>
      String (byte (c0 * 4 + c1 / 16))
        (String (byte ((c1 mod 16) * 16 + c2 / 4))
           (String (byte ((c2 mod 4) * 64 + c3)) (decode_sextets r)))
  | [c0; c1; c2] =>
      String (byte (c0 * 4 + c1 / 16))
        (String (byte ((c1 mod 16) * 16 + c2 / 4)) EmptyString)
  | [c0; c1] => String (byte (c0 * 4 + c1 / 16)) EmptyString
  | _ => EmptyString
  end.

Definition decode (s : string) : string := decode_sextets (sextets s).

End Base64url.

(** [JSON.stringify] and [JSON.parse].  These are models of the ECMAScript
    runtime.  A number is kept as the exact decimal [m * 10^e] of its
    literal (the runtime rounds to a double); integers have [e = 0] and
    are printed in plain decimal.  An object is its list of own properties
    in insertion order.  [parse] returns [None] where the runtime throws a
    [SyntaxError]. *)
Module JSON.

Inductive value : Type :=
| JNull
| JBool (b : bool)
| JNum (m e : Z)
| JStr (s : string)
| JArr (l : list value)
| JObj (o : list (string * value)).

Definition dquote : ascii := "034"%char.
Definition backslash : ascii := "092"%char.

Definition hex_digit (n : N) : ascii :=
  match String.get (N.to_nat n) "0123456789abcdef" with
  | Some c => c
  | None => "0"%char
  end.

(** How [JSON.stringify] writes one character of a string. *)
Definition escape_char (c : ascii) : string :=
  let n := N_of_ascii c in
  if (n =? 34)%N then String backslash (String dquote EmptyString)
  else if (n =? 92)%N then String backslash (String backslash EmptyString)
  else if (n =? 8)%N then String backslash "b"
  else if (n =? 12)%N then String backslash "f"
  else if (n =? 10)%N then String backslash "n"
  else if (n =? 13)%N then String backslash "r"
  else if (n =? 9)%N then String backslash "t"
  else if (n <? 32)%N then
    String backslash
      ("u00" ++ String (hex_digit (n / 16)) (String (hex_digit (n mod 16)) EmptyString))
  else String c EmptyString.

Fixpoint escape (s : string) : string :=
  match s with
  | EmptyString => EmptyString
  | String c r => escape_char c ++ escape r
  end.

Definition quote (s : string) : string :=
  String dquote (escape s ++ String dquote EmptyString).

Definition number_text (m e : Z) : string :=
  if e =? 0 then Str.of_Z m else Str.of_Z m ++ "e" ++ Str.of_Z e.

Fixpoint stringify (v : value) : string :=
  match v with
  | JNull => "null"
  | JBool b => if b then "true" else "false"
  | JNum m e => number_text m e
  | JStr s => quote s
  | JArr l => "[" ++ Str.join "," (map stringify l) ++ "]"
  | JObj o =>
      "{" ++ Str.join ","
               (map (fun kv => let '(k, x) := kv in quote k ++ ":" ++ stringify x) o)
          ++ "}"
  end.

(** ** Parsing *)

Definition is_ws (c : ascii) : bool :=
  let n := N_of_ascii c in
  ((n =? 32) || (n =? 9) || (n =? 10) || (n =? 13))%N.

Fixpoint skip_ws (s : string) : string :=
  match s with
  | EmptyString => EmptyString
  | String c r => if is_ws c then skip_ws r else s
  end.

Definition is_digit (c : ascii) : bool :=
  let n := N_of_ascii c in ((48 <=? n) && (n <=? 57))%N.

(** The longest prefix of decimal digits, and what follows it. *)
Fixpoint span_digits (s : string) : string * string :=
  match s with
  | EmptyString => (EmptyString, EmptyString)
  | String c r =>
      if is_digit c
      then let '(d, r') := span_digits r in (String c d, r')
      else (EmptyString, s)
  end.

Definition digit_of (c : ascii) (d : uint) : uint :=
  match (N_of_ascii c - 48)%N with
  | 0%N => D0 d | 1%N => D1 d | 2%N => D2 d | 3%N => D3 d | 4%N => D4 d
  | 5%N => D5 d | 6%N => D6 d | 7%N => D7 d | 8%N => D8 d | _ => D9 d
  end.

Fixpoint uint_of_digits (s : string) : uint :=
  match s with
  | EmptyString => Nil
  | String c r => digit_of c (uint_of_digits r)
  end.

Definition digits_value (s : string) : Z := Z.of_uint (uint_of_digits s).

Definition hex_val (c : ascii) : option N :=
  let n := N_of_ascii c in
  if ((48 <=? n) && (n <=? 57))%N then Some (n - 48)%N
  else if ((97 <=? n) && (n <=? 102))%N then Some (n - 87)%N
  else if ((65 <=? n) && (n <=? 70))%N then Some (n - 55)%N
  else None.

Definition hex4 (a b c d : ascii) : option N :=
  match hex_val a, hex_val b, hex_val c, hex_val d with
  | Some x, Some y, Some z, Some w => Some (((x * 16 + y) * 16 + z) * 16 + w)%N
  | _, _, _, _ => None
  end.

(** What stands between the quotes of a string literal: a character
    written as itself or by a one-letter escape, or a UTF-16 code unit
    written [\uXXXX]. *)
Inductive item : Type :=
| Raw (c : ascii)
| Unit16 (n : N).

Definition simple_escape (e : ascii) : option ascii :=
  let n := N_of_ascii e in
  if (n =? 34)%N then Some dquote
  else if (n =? 92)%N then Some backslash
  else if (n =? 47)%N then Some "/"%char
  else if (n =? 98)%N then Some (ascii_of_N 8)
  else if (n =? 102)%N then Some (ascii_of_N 12)
  else if (n =? 110)%N then Some (ascii_of_N 10)
  else if (n =? 114)%N then Some (ascii_of_N 13)
  else if (n =? 116)%N then Some (ascii_of_N 9)
  else None.

Definition cons_item (i : item) (r : option (list item * string))
  : option (list item * string) :=
  match r with
  | Some (l, rest) => Some (i :: l, rest)
  | None => None
  end.

(** Reads a string literal after its opening quote, up to and including
    the closing quote. *)
Fixpoint parse_items (s : string) : option (list item * string) :=
  match s with
  | EmptyString => None
  | String c r =>
      let n := N_of_ascii c in
      if (n =? 34)%N then Some ([], r)
      else if (n <? 32)%N then None
      else if (n =? 92)%N then
        match r with
        | EmptyString => None
        | String e r1 =>
            match simple_escape e with
            | Some ch => cons_item (Raw ch) (parse_items r1)
            | None =>
                if Ascii.eqb e "u"%char then
                  match r1 with
                  | String h1 (String h2 (String h3 (String h4 r2))) =>
                      match hex4 h1 h2 h3 h4 with
                      | Some u => cons_item (Unit16 u) (parse_items r2)
                      | None => None
                      end
                  | _ => None
                  end
                else None
            end
        end
      else cons_item (Raw c) (parse_items r)
  end.

Definition byte (n : N) : ascii := ascii_of_N (n mod 256).

(** UTF-8 (generalised to lone surrogates) of a code point. *)
Definition utf8 (cp : N) : string :=
  if (cp <? 128)%N then String (byte cp) EmptyString
  else if (cp <? 2048)%N then
    String (byte (192 + cp / 64)) (String (byte (128 + cp mod 64)) EmptyString)
  else if (cp <? 65536)%N then
    String (byte (224 + cp / 4096))
      (String (byte (128 + (cp / 64) mod 64))
         (String (byte (128 + cp mod 64)) EmptyString))
  else
    String (byte (240 + cp / 262144))
      (String (byte (128 + (cp / 4096) mod 64))
         (String (byte (128 + (cp / 64) mod 64))
            (String (byte (128 + cp mod 64)) EmptyString))).

Definition is_high (u : N) : bool := ((55296 <=? u) && (u <=? 56319))%N.
Definition is_low (u : N) : bool := ((56320 <=? u) && (u <=? 57343))%N.

(** The string denoted by the items; a high surrogate followed by a low
    one is a single code point. *)
Fixpoint string_of_items (l : list item) : string :=
  match l with
  | [] => EmptyString
  | Raw c :: l' => String c (string_of_items l')
  | Unit16 u :: l' =>
      match l' with
      | Unit16 w :: l'' =>
          if is_high u && is_low w
          then utf8 (65536 + (u - 55296) * 1024 + (w - 56320))%N
                 ++ string_of_items l''
          else utf8 u ++ string_of_items l'
      | _ => utf8 u ++ string_of_items l'
      end
  end.

Definition parse_string (s : string) : option (string * string) :=
  match parse_items s with
  | Some (l, rest) => Some (string_of_items l, rest)
  | None => None
  end.

(** An optional run of digits introduced by [.]: the digits (empty when
    there is no fraction) and the rest; [None] when [.] is followed by no
    digit. *)
Definition parse_fraction (s : string) : option (string * string) :=
  match s with
  | String c r =>
      if Ascii.eqb c "."%char then
        match span_digits r with
        | (EmptyString, _) => None
        | (d, r') => Some (d, r')
        end
      else Some (EmptyString, s)
  | EmptyString => Some (EmptyString, s)
  end.

Definition parse_exponent (s : string) : option (Z * string) :=
  match s with
  | String c r =>
      if Ascii.eqb c "e"%char || Ascii.eqb c "E"%char then
        let '(neg, r1) :=
          match r with
          | String g r' =>
              if Ascii.eqb g "-"%char then (true, r')
              else if Ascii.eqb g "+"%char then (false, r')
              else (false, r)
          | EmptyString => (false, r)
          end in
        match span_digits r1 with
        | (EmptyString, _) => None
        | (d, r2) => Some (if neg then - digits_value d else digits_value d, r2)
        end
      else Some (0, s)
  | EmptyString => Some (0, s)
  end.

(** A number literal: an optional minus sign, an integer part without a
    leading zero, an optional fraction, an optional exponent. *)
Definition parse_number (s : string) : option (value * string) :=
  let '(neg, s1) :=
    match s with
    | String c r => if Ascii.eqb c "-"%char then (true, r) else (false, s)
    | EmptyString => (false, s)
    end in
  match span_digits s1 with
  | (EmptyString, _) => None
  | (String c0 ds as ip, s2) =>
      if Ascii.eqb c0 "0"%char && negb (String.eqb ds EmptyString) then None
      else
        match parse_fraction s2 with
        | None => None
        | Some (fp, s3) =>
            match parse_exponent s3 with
            | None => None
            | Some (ex, s4) =>
                let m := digits_value (ip ++ fp) in
                Some (JNum (if neg then - m else m)
                           (ex - Z.of_nat (String.length fp)), s4)
            end
        end
  end.

Fixpoint parse_value (fuel : nat) (s : string) : option (value * string) :=
  match fuel with
  | O => None
  | S f =>
      let s0 := skip_ws s in
      match s0 with
      | EmptyString => None
      | String c r =>
          if Ascii.eqb c dquote then
            match parse_string r with
            | Some (x, r') => Some (JStr x, r')
            | None => None
            end
          else if Ascii.eqb c "["%char then
            match skip_ws r with
            | String c' r' =>
                if Ascii.eqb c' "]"%char then Some (JArr [], r')
                else parse_elements f r []
            | EmptyString => None
            end
          else if Ascii.eqb c "{"%char then
            match skip_ws r with
            | String c' r' =>
                if Ascii.eqb c' "}"%char then Some (JObj [], r')
                else parse_members f r []
            | EmptyString => None
            end
          else if Str.startsWith s0 "null" then Some (JNull, Str.drop 4 s0)
          else if Str.startsWith s0 "true" then Some (JBool true, Str.drop 4 s0)
          else if Str.startsWith s0 "false" then Some (JBool false, Str.drop 5 s0)
          else parse_number s0
      end
  end

with parse_elements (fuel : nat) (s : string) (acc : list value)
  : option (value * string) :=
  match fuel with
  | O => None
  | S f =>
      match parse_value f s with
      | None => None
      | Some (x, r) =>
          match skip_ws r with
          | String c r' =>
              if Ascii.eqb c ","%char then parse_elements f r' (acc ++ [x])
              else if Ascii.eqb c "]"%char then Some (JArr (acc ++ [x]), r')
              else None
          | EmptyString => None
          end
      end
  end

with parse_members (fuel : nat) (s : string) (acc : list (string * value))
  : option (value * string) :=
  match fuel with
  | O => None
  | S f =>
      match skip_ws s with
      | String q r =>
          if Ascii.eqb q dquote then
            match parse_string r with
            | None => None
            | Some (k, r1) =>
                match skip_ws r1 with
                | String c r2 =>
                    if Ascii.eqb c ":"%char then
                      match parse_value f r2 with
                      | None => None
                      | Some (x, r3) =>
                          match skip_ws r3 with
                          | String d r4 =>
                              if Ascii.eqb d ","%char
                              then parse_members f r4 (JsMap.set acc k x)
                              else if Ascii.eqb d "}"%char
                              then Some (JObj (JsMap.set acc k x), r4)
                              else None
                          | EmptyString => None
                          end
                      end
                    else None
                | EmptyString => None
                end
            end
          else None
      | EmptyString => None
      end
  end.

(** [JSON.parse(s)]; [None] stands for a thrown [SyntaxError]. *)
Definition parse (s : string) : option value :=
  match parse_value (2 * String.length s + 2) s with
  | Some (x, r) =>
      match skip_ws r with
      | EmptyString => Some x
      | String _ _ => None
      end
  | None => None
  end.

(** What may follow a number inside an array or an object: a character
    that is not part of a number literal. *)
Definition ends_number (t : ascii) : Prop :=
  is_digit t = false
  /\ Ascii.eqb t "."%char = false
  /\ Ascii.eqb t "e"%char = false
  /\ Ascii.eqb t "E"%char = false.

(** A string or an integer: the values of the properties of a token
    payload. *)
Definition flat (v : value) : Prop :=
  match v with
  | JStr _ => True
  | JNum _ e => e = 0
  | _ => False
  end.

(** How [stringify] writes one property. *)
Definition member (kv : string * value) : string :=
  let '(k, x) := kv in quote k ++ ":" ++ stringify x.

(** [acc[k] = x] for a property [(k, x)]. *)
Definition put (a : list (string * value)) (kv : string * value)
  : list (string * value) :=
  JsMap.set a (fst kv) (snd kv).

(** [obj[key]] on a parsed value. *)
Definition prop (v : value) (k : string) : option value :=
  match v with
  | JObj o => JsMap.get o k
  | _ => None
  end.

End JSON.

(** [parseInt(s, 10)], white space, the safe integers and
    [Array.prototype.sort] on strings. *)
Module Js.

(** The length in bytes of the white space or line terminator at the
    head of [s], or 0: TAB, LF, VT, FF, CR, SP, U+00A0, U+1680,
    U+2000..U+200A, U+2028, U+2029, U+202F, U+205F, U+3000, U+FEFF. *)
Definition space_at (s : string) : nat :=
  match s with
  | EmptyString => 0
  | String c r =>
      let n := N_of_ascii c in
      if (((9 <=? n) && (n <=? 13)) || (n =? 32))%N then 1
      else
        match r with
        | String d r' =>
            let m := N_of_ascii d in
            if ((n =? 194) && (m =? 160))%N then 2
            else
              match r' with
              | String e _ =>
                  let k := N_of_ascii e in
                  if ((n =? 225) && (m =? 154) && (k =? 128))%N then 3
                  else if ((n =? 226) && (m =? 128)
                           && (((128 <=? k) && (k <=? 138))
                               || (k =? 168) || (k =? 169) || (k =? 175)))%N then 3
                  else if ((n =? 226) && (m =? 129) && (k =? 159))%N then 3
                  else if ((n =? 227) && (m =? 128) && (k =? 128))%N then 3
                  else if ((n =? 239) && (m =? 187) && (k =? 191))%N then 3
                  else 0
              | EmptyString => 0
              end
        | EmptyString => 0
        end
  end%nat.

Fixpoint trim_start_n (fuel : nat) (s : string) : string :=
  match fuel with
  | O => s
  | S fuel' =>
      match space_at s with
      | O => s
      | k => trim_start_n fuel' (Str.drop k s)
      end
  end.

(** The string without the white space and line terminators it starts
    with. *)
Definition trim_start (s : string) : string := trim_start_n (String.length s) s.

(** [parseInt(s, 10)]: leading white space, an optional sign, then the
    longest run of decimal digits; [None] stands for [NaN].  The value is
    that of the digits (beyond [2^53] the runtime rounds it to a
    double). *)
Definition parseInt (s : string) : option Z :=
  let s1 := trim_start s in
  let '(neg, s2) :=
    match s1 with
    | String c r =>
        if Ascii.eqb c "-"%char then (true, r)
        else if Ascii.eqb c "+"%char then (false, r)
        else (false, s1)
    | EmptyString => (false, s1)
    end in
  match JSON.span_digits s2 with
  | (EmptyString, _) => None
  | (d, _) =>
      Some (if neg then - JSON.digits_value d else JSON.digits_value d)
  end.

Fixpoint insert_sorted (k : string) (l : list string) : list string :=
  match l with
  | [] => [k]
  | x :: l' => if String.leb k x then k :: l else x :: insert_sorted k l'
  end.

(** [keys.sort()]: ascending order of the strings, compared unit by unit. *)
Definition sort (l : list string) : list string :=
  fold_right insert_sorted [] l.

(** [Math.ceil(a / b)] for integers [a] and [b > 0]. *)
Definition ceil_div (a b : Z) : Z := - ((- a) / b).

(** [Number.MAX_SAFE_INTEGER], [2^53 - 1]. *)
Definition MAX_SAFE_INTEGER : Z := 9007199254740991.

(** [Number.isSafeInteger(n)] for an integer [n]. *)
Definition isSafeInteger (n : Z) : Prop :=
  - MAX_SAFE_INTEGER <= n <= MAX_SAFE_INTEGER.

(** The numbers of the program are doubles, and the model has integers:
    the sum [a + b] of the runtime is the integer [a + b] when the two
    terms and the sum are safe integers. *)
Definition adds_exactly (a b : Z) : Prop :=
  isSafeInteger a /\ isSafeInteger b /\ isSafeInteger (a + b).

(** A time in seconds that [new Date(seconds * 1000)] holds: at most
    8.64e15 milliseconds on either side of the epoch.  Beyond it
    [toISOString()] throws a [RangeError]. *)
Definition valid_time (seconds : Z) : Prop :=
  - 8640000000000 <= seconds <= 8640000000000.

End Js.

(* ================================================================== *)
(** * Completions, promises, the world *)
(* ================================================================== *)

(** A thrown [Error]. *)
Record Exn : Type := mkExn { name : string; message : string }.

Inductive Completion (A : Type) : Type :=
| Normal (a : A)
| Throw (e : Exn).
Arguments Normal {A} a.
Arguments Throw {A} e.

(** [try { body } catch (e) { handler }] *)
Definition try_catch {A} (body : Completion A) (handler : Exn -> Completion A)
  : Completion A :=
  match body with
  | Normal a => Normal a
  | Throw e => handler e
  end.

(** A promise as the caller of [await] sees it: how long it takes to
    settle, in milliseconds, and how it settles. *)
Record Promise (A : Type) : Type :=
  mkPromise { elapsed : Z; settled : Completion A }.

Definition resolved {A} (a : A) : Promise A := mkPromise 0 (Normal a).
Definition rejected {A} (e : Exn) : Promise A := mkPromise 0 (Throw e).

(* ================================================================== *)
(** * session/types.ts *)
(* ================================================================== *)

Module Scope.
Inductive t : Type := prefix | exact.

Definition eqb (a b : t) : bool :=
  match a, b with
  | prefix, prefix => true
  | exact, exact => true
  | _, _ => false
  end.

Definition to_string (s : t) : string :=
  match s with
  | prefix => "prefix"
  | exact => "exact"
  end.

Definition of_string (s : string) : option t :=
  if String.eqb s "prefix" then Some prefix
  else if String.eqb s "exact" then Some exact
  else None.
End Scope.

Module SessionRecord.
Record t : Type := mk {
  sessionId : string;
  endpoint : string;
  scope : Scope.t;
  walletAddress : string;
  createdAt : Z;
  expiresAt : Z;
  paymentTxHash : string;
  paymentAmount : string;
  paymentToken : string;
  paymentRecipient : string;
  sessionToken : string;
  signature : string;
  label : option string;
  callCount : Z;
  lastUsedAt : Z
}.

(** [session.callCount += 1; session.lastUsedAt = now] *)
Definition use (now : Z) (s : t) : t :=
  mk (sessionId s) (endpoint s) (scope s) (walletAddress s) (createdAt s)
     (expiresAt s) (paymentTxHash s) (paymentAmount s) (paymentToken s)
     (paymentRecipient s) (sessionToken s) (signature s) (label s)
     (callCount s + 1) now.

(** [session.expiresAt = v] *)
Definition set_expiresAt (v : Z) (s : t) : t :=
  mk (sessionId s) (endpoint s) (scope s) (walletAddress s) (createdAt s)
     v (paymentTxHash s) (paymentAmount s) (paymentToken s)
     (paymentRecipient s) (sessionToken s) (signature s) (label s)
     (callCount s) (lastUsedAt s).
End SessionRecord.

Module SessionTokenPayload.
Record t : Type := mk {
  version : string;
  sessionId : string;
  walletAddress : string;
  endpoint : string;
  scope : Scope.t;
  createdAt : Z;
  expiresAt : Z;
  paymentTxHash : string;
  paymentAmount : string
}.

(** The payload as the object literal of [createSession] builds it, own
    properties in the order they are written. *)
Definition to_object (p : t) : JsMap.t JSON.value :=
  [ ("version", JSON.JStr (version p));
    ("sessionId", JSON.JStr (sessionId p));
    ("walletAddress", JSON.JStr (walletAddress p));
    ("endpoint", JSON.JStr (endpoint p));
    ("scope", JSON.JStr (Scope.to_string (scope p)));
    ("createdAt", JSON.JNum (createdAt p) 0);
    ("expiresAt", JSON.JNum (expiresAt p) 0);
    ("paymentTxHash", JSON.JStr (paymentTxHash p));
    ("paymentAmount", JSON.JStr (paymentAmount p)) ].

Definition string_prop (v : JSON.value) (k : string) : option string :=
  match JSON.prop v k with
  | Some (JSON.JStr s) => Some s
  | _ => None
  end.

Definition int_prop (v : JSON.value) (k : string) : option Z :=
  match JSON.prop v k with
  | Some (JSON.JNum m 0) => Some m
  | _ => None
  end.

(** Reads a parsed value field by field as a payload ([x as
    SessionTokenPayload], where the value has the fields of one). *)
Definition of_value (v : JSON.value) : option t :=
  match string_prop v "version", string_prop v "sessionId",
        string_prop v "walletAddress", string_prop v "endpoint",
        string_prop v "scope", int_prop v "createdAt",
        int_prop v "expiresAt", string_prop v "paymentTxHash",
        string_prop v "paymentAmount" with
  | Some ve, Some id, Some wa, Some en, Some sc, Some cr, Some ex, Some tx,
    Some am =>
      match Scope.of_string sc with
      | Some sc' => Some (mk ve id wa en sc' cr ex tx am)
      | None => None
      end
  | _, _, _, _, _, _, _, _, _ => None
  end.
End SessionTokenPayload.

Module CreateSessionOptions.
Record t : Type := mk {
  endpoint : string;
  scope : option Scope.t;
  ttlSeconds : option Z;
  label : option string;
  paymentTxHash : string;
  paymentAmount : Z;
  paymentToken : string;
  paymentRecipient : string;
  walletAddress : string;
  signMessage : string -> Promise string
}.
End CreateSessionOptions.

Inductive SessionLookupResult : Type :=
| NotFound
| Found (session : SessionRecord.t) (expired : bool).

(* ================================================================== *)
(** * Requests, responses and the external payment client *)
(* ================================================================== *)

Record Request : Type := mkRequest {
  req_url : string;
  req_method : string;
  req_headers : JsMap.t string;
  req_body : option string;
  req_timeout : Z
}.

(** A response: the status line, and what [response.text()] settles to. *)
Record Response : Type := mkResponse {
  status : Z;
  statusText : string;
  text : Promise string
}.

Record PaymentRequest : Type := mkPaymentRequest { req_amount : Z }.

Record PaymentLog : Type := mkPaymentLog {
  log_amount : Z;
  log_txHash : string;
  log_recipient : string;
  log_token : option string
}.

(** Modelled from the spec: the external payment client
    ([createX402Client] of agentwallet-sdk), which is not under src/.
    Section 6 gives its contract: [fetch(url, init)] handles the
    payment-required status itself and invokes [onBeforePayment(quote,
    url)], which answers or throws, and [onPaymentComplete(log)].  What
    the client does between these calls is its own business, so one call
    of [fetch] is an arbitrary interaction of this shape. *)
Inductive ClientRun : Type :=
| Settle (p : Promise Response)
| BeforePayment (req : PaymentRequest) (url : string)
                (k : Completion bool -> ClientRun)
| PaymentComplete (log : PaymentLog) (k : ClientRun).

(** What the handlers remember of a payment (their local variables
    [paymentMade], [paymentAmount], ...). *)
Record PaymentTrack : Type := mkTrack {
  paymentMade : bool;
  trk_amount : Z;
  trk_txHash : string;
  trk_recipient : string;
  trk_token : string
}.

(** One call of [x402Client.fetch] with the callbacks of the handler:
    the promise it returns and the handler's variables afterwards. *)
Fixpoint run_client
  (onBeforePayment : PaymentRequest -> string -> Completion bool)
  (onPaymentComplete : PaymentLog -> PaymentTrack -> PaymentTrack)
  (c : ClientRun) (t : PaymentTrack) : Promise Response * PaymentTrack :=
  match c with
  | Settle p => (p, t)
  | BeforePayment req url k =>
      run_client onBeforePayment onPaymentComplete
                 (k (onBeforePayment req url)) t
  | PaymentComplete log k =>
      run_client onBeforePayment onPaymentComplete k (onPaymentComplete log t)
  end.

Record ClawPayConfig : Type := mkConfig {
  cfg_walletAddress : string;
  cfg_chainId : Z
}.

(** What the outside decides. *)
Record Env : Type := mkEnv {
  (** [process.env['SESSION_TTL_SECONDS']] *)
  SESSION_TTL_SECONDS : option string;
  (** the [n]-th identifier [randomUUID()] returns *)
  uuid : nat -> string;
  (** the [n]-th call of the global [fetch] *)
  remote : nat -> Request -> Promise Response;
  (** the [n]-th call of [x402Client.fetch], for a client created with
      the given [globalPerRequestMax] *)
  x402 : nat -> option Z -> Request -> ClientRun;
  (** [getConfig()] and [getWallet()] *)
  getConfig : Completion ClawPayConfig;
  getWallet : Completion unit;
  (** [wallet.walletClient.signMessage({ message })] *)
  wallet_signMessage : string -> Promise string;
  (** [parseFloat(s)] followed, for a positive number, by
      [BigInt(Math.round(cap * 1e18))]; [None] when the number is [NaN]
      or not positive.  Floating point is not modelled. *)
  eth_cap_to_wei : string -> option Z;
  (** [new Date(seconds * 1000).toISOString()], for a time that
      [Js.valid_time] admits *)
  toISOString : Z -> string
}.

Record World : Type := mkWorld {
  (** the session table of manager.ts *)
  store : JsMap.t SessionRecord.t;
  (** [Date.now()], in milliseconds *)
  clock : Z;
  (** how many identifiers were drawn *)
  drawn : nat;
  (** the requests passed to the global [fetch], latest first *)
  fetched : list Request;
  (** the requests passed to [x402Client.fetch], latest first *)
  paid : list Request
}.

(** Computations of the program. *)
Definition M (A : Type) : Type := World -> Completion A * World.

Definition ret {A} (a : A) : M A := fun w => (Normal a, w).

Definition throw {A} (e : Exn) : M A := fun w => (Throw e, w).

Definition bind {A B} (m : M A) (f : A -> M B) : M B :=
  fun w =>
    match m w with
    | (Normal a, w') => f a w'
    | (Throw e, w') => (Throw e, w')
    end.

Declare Scope js_scope.
Delimit Scope js_scope with js.
Notation "x <- m ;; k" := (bind m (fun x => k))
  (at level 61, m at next level, right associativity) : js_scope.
Notation "m ;;; k" := (bind m (fun _ => k))
  (at level 61, right associativity) : js_scope.
Local Open Scope js_scope.

(** [try { body } catch (error) { handler }] around effectful code. *)
Definition catch {A} (body : M A) (handler : Exn -> M A) : M A :=
  fun w =>
    match body w with
    | (Normal a, w') => (Normal a, w')
    | (Throw e, w') => handler e w'
    end.

(** A synchronous call that may throw. *)
Definition lift {A} (c : Completion A) : M A := fun w => (c, w).

(** [await p]: time passes, then the promise's outcome. *)
Definition await {A} (p : Promise A) : M A :=
  fun w =>
    (settled p,
     mkWorld (store w) (clock w + elapsed p) (drawn w) (fetched w) (paid w)).

Definition get_store : M (JsMap.t SessionRecord.t) :=
  fun w => (Normal (store w), w).

Definition put_store (m : JsMap.t SessionRecord.t) : M unit :=
  fun w => (Normal tt, mkWorld m (clock w) (drawn w) (fetched w) (paid w)).

(** [Math.floor(Date.now() / 1000)] *)
Definition now_seconds : M Z := fun w => (Normal (clock w / 1000), w).

(* ================================================================== *)
(** * session/manager.ts *)
(* ================================================================== *)

Module Manager.

(** Default session TTL in seconds (1 hour) *)
Definition DEFAULT_TTL_SECONDS : Z := 3600.

Definition SESSION_TOKEN_HEADER : string := "X-Session-Token".
Definition SESSION_WALLET_HEADER : string := "X-Session-Wallet".
Definition PAYMENT_SESSION_HEADER : string := "PAYMENT-SESSION".

(** [canonicalise]: the keys sorted, the properties copied into a fresh
    object in that order, the object serialised.  The keys are names, as
    those of the token payload are: an object lists the keys that are
    array indices first, whatever the order of insertion, which the
    association list does not. *)
Definition canonicalise (obj : JsMap.t JSON.value) : string :=
  let sorted :=
    fold_left
      (fun acc key =>
         match JsMap.get obj key with
         | Some x => JsMap.set acc key x
         | None => acc
         end)
      (Js.sort (JsMap.keys obj)) [] in
  JSON.stringify (JSON.JObj sorted).

(** The result of [decodeSessionToken] when it is not [null]. *)
Record Decoded : Type := mkDecoded {
  payload : JSON.value;
  dec_signature : string
}.

Definition SyntaxError : Exn := mkExn "SyntaxError" "Unexpected token in JSON".

Definition JSON_parse (s : string) : Completion JSON.value :=
  match JSON.parse s with
  | Some x => Normal x
  | None => Throw SyntaxError
  end.

(** [decodeSessionToken] *)
Definition decodeSessionToken (token : string) : Completion (option Decoded) :=
  let dotIdx := Str.lastIndexOf token "."%char in
  if dotIdx =? -1 then Normal None
  else
    let payloadB64 := Str.slice token 0 dotIdx in
    let signature := Str.slice_from token (dotIdx + 1) in
    try_catch
      (let payloadJson := Base64url.decode payloadB64 in
       match JSON_parse payloadJson with
       | Normal payload => Normal (Some (mkDecoded payload signature))
       | Throw e => Throw e
       end)
      (fun _ => Normal None).

(** [buildSessionHeaders] *)
Definition buildSessionHeaders (session : SessionRecord.t) : JsMap.t string :=
  [ (SESSION_TOKEN_HEADER, SessionRecord.sessionToken session);
    (SESSION_WALLET_HEADER, SessionRecord.walletAddress session);
    (PAYMENT_SESSION_HEADER, SessionRecord.sessionId session) ].

(** The loop of [pruneExpired] over the entries of the table. *)
Definition prune_at (now : Z) (m : JsMap.t SessionRecord.t)
  : JsMap.t SessionRecord.t :=
  fold_left
    (fun acc entry =>
       let '(id, session) := entry in
       if SessionRecord.expiresAt session <=? now
       then JsMap.delete acc id
       else acc)
    m m.

(** [Array.from(store.values()).filter((s) => s.expiresAt > now)] *)
Definition active_at (now : Z) (m : JsMap.t SessionRecord.t)
  : list SessionRecord.t :=
  filter (fun s => SessionRecord.expiresAt s >? now) (JsMap.values m).

(** The two searches of [findSessionForUrl] over the active sessions. *)
Definition find_in (url : string) (active : list SessionRecord.t)
  : option SessionRecord.t :=
  match find (fun s => Scope.eqb (SessionRecord.scope s) Scope.exact
                       && String.eqb (SessionRecord.endpoint s) url) active with
  | Some exact => Some exact
  | None =>
      match find (fun s => Scope.eqb (SessionRecord.scope s) Scope.prefix
                           && Str.startsWith url (SessionRecord.endpoint s))
                 active with
      | Some prefix => Some prefix
      | None => None
      end
  end.

(** [pruneExpired] *)
Definition pruneExpired : M unit :=
  now <- now_seconds ;;
  m <- get_store ;;
  put_store (prune_at now m).

Section WithEnv.
Variable env : Env.

(** [parseTtlFromEnv] *)
Definition parseTtlFromEnv : Z :=
  match SESSION_TTL_SECONDS env with
  | None => DEFAULT_TTL_SECONDS
  | Some raw =>
      if String.eqb raw EmptyString then DEFAULT_TTL_SECONDS
      else
        match Js.parseInt raw with
        | None => DEFAULT_TTL_SECONDS
        | Some parsed =>
            if parsed <=? 0 then DEFAULT_TTL_SECONDS
            else Z.min parsed (86400 * 30)
        end
  end.

(** [randomUUID()] *)
Definition randomUUID : M string :=
  fun w =>
    (Normal (uuid env (drawn w)),
     mkWorld (store w) (clock w) (S (drawn w)) (fetched w) (paid w)).

(** [opts.ttlSeconds ?? parseTtlFromEnv()] *)
Definition ttl_of (opts : CreateSessionOptions.t) : Z :=
  match CreateSessionOptions.ttlSeconds opts with
  | Some t => t
  | None => parseTtlFromEnv
  end.

(** [opts.scope ?? 'prefix'] *)
Definition scope_of (opts : CreateSessionOptions.t) : Scope.t :=
  match CreateSessionOptions.scope opts with
  | Some s => s
  | None => Scope.prefix
  end.

(** The [payload] object of [createSession]. *)
Definition payload_of (opts : CreateSessionOptions.t) (sessionId : string)
  (now expiresAt : Z) : SessionTokenPayload.t :=
  SessionTokenPayload.mk
    "clawpay/1.1"
    sessionId
    (CreateSessionOptions.walletAddress opts)
    (CreateSessionOptions.endpoint opts)
    (scope_of opts)
    now
    expiresAt
    (CreateSessionOptions.paymentTxHash opts)
    (Str.of_Z (CreateSessionOptions.paymentAmount opts)).

(** [createSession].  The sum [now + ttl] is that of the program when it
    is exact ([Js.adds_exactly]). *)
Definition createSession (opts : CreateSessionOptions.t) : M SessionRecord.t :=
  sessionId <- randomUUID ;;
  now <- now_seconds ;;
  let ttl := ttl_of opts in
  let expiresAt := now + ttl in
  let payload := payload_of opts sessionId now expiresAt in
  let canonicalPayload := canonicalise (SessionTokenPayload.to_object payload) in
  let payloadB64 := Base64url.encode canonicalPayload in
  signature <- await (CreateSessionOptions.signMessage opts canonicalPayload) ;;
  let sessionToken := payloadB64 ++ "." ++ signature in
  let record :=
    SessionRecord.mk
      sessionId
      (CreateSessionOptions.endpoint opts)
      (scope_of opts)
      (CreateSessionOptions.walletAddress opts)
      now
      expiresAt
      (CreateSessionOptions.paymentTxHash opts)
      (Str.of_Z (CreateSessionOptions.paymentAmount opts))
      (CreateSessionOptions.paymentToken opts)
      (CreateSessionOptions.paymentRecipient opts)
      sessionToken
      signature
      (CreateSessionOptions.label opts)
      0
      now in
  m <- get_store ;;
  put_store (JsMap.set m sessionId record) ;;;
  pruneExpired ;;;
  ret record.

End WithEnv.

(** [lookupSession] *)
Definition lookupSession (sessionId : string) : M SessionLookupResult :=
  m <- get_store ;;
  match JsMap.get m sessionId with
  | None => ret NotFound
  | Some session =>
      now <- now_seconds ;;
      let expired := now >=? SessionRecord.expiresAt session in
      ret (Found session expired)
  end.

(** [recordSessionCall] *)
Definition recordSessionCall (sessionId : string) : M unit :=
  m <- get_store ;;
  match JsMap.get m sessionId with
  | None => ret tt
  | Some session =>
      now <- now_seconds ;;
      put_store (JsMap.set m sessionId (SessionRecord.use now session))
  end.

(** [endSession] *)
Definition endSession (sessionId : string) : M bool :=
  m <- get_store ;;
  match JsMap.get m sessionId with
  | None => ret false
  | Some session =>
      put_store (JsMap.set m sessionId (SessionRecord.set_expiresAt 0 session)) ;;;
      ret true
  end.

(** [listActiveSessions] *)
Definition listActiveSessions : M (list SessionRecord.t) :=
  pruneExpired ;;;
  now <- now_seconds ;;
  m <- get_store ;;
  ret (active_at now m).

(** [listAllSessions] *)
Definition listAllSessions : M (list SessionRecord.t) :=
  m <- get_store ;;
  ret (JsMap.values m).

(** [findSessionForUrl] *)
Definition findSessionForUrl (url : string) : M (option SessionRecord.t) :=
  now <- now_seconds ;;
  m <- get_store ;;
  let active := active_at now m in
  ret (find_in url active).

(** [getStoreSize] *)
Definition getStoreSize : M Z :=
  m <- get_store ;;
  ret (Z.of_nat (List.length m)).

(** [_clearAllSessions] *)
Definition _clearAllSessions : M unit := put_store [].

End Manager.

(* ================================================================== *)
(** * What the tools share *)
(* ================================================================== *)

(** The result of a tool: the text of its single content item, and
    [isError] ([false] where the code leaves it out). *)
Record ToolResult : Type := mkResult {
  content : string;
  isError : bool
}.

Module Tool.

Definition nl : string := String (ascii_of_N 10) EmptyString.
Definition dq : string := String JSON.dquote EmptyString.
Definition fence : string := "```".

(** A string in a condition: [undefined] and the empty string are falsy. *)
Definition truthy (s : option string) : bool :=
  match s with
  | Some x => negb (String.eqb x EmptyString)
  | None => false
  end.

(** [{ ...acc, ...src }] *)
Definition spread (acc src : JsMap.t string) : JsMap.t string :=
  fold_left (fun a kv => let '(k, x) := kv in JsMap.set a k x) src acc.

(** [['POST', 'PUT', 'PATCH'].includes(method)] *)
Definition has_body_method (method : string) : bool :=
  existsb (String.eqb method) ["POST"; "PUT"; "PATCH"].

(** The default [Content-Type] the handlers add to a request with a body. *)
Definition with_content_type (body : option string) (method : string)
  (headers : JsMap.t string) : JsMap.t string :=
  if truthy body && has_body_method method then
    if negb (truthy (JsMap.get headers "Content-Type"))
    then JsMap.set headers "Content-Type" "application/json"
    else headers
  else headers.

(** The [RequestInit] of the handlers, with the URL it is sent to. *)
Definition requestInit (url method : string) (headers : JsMap.t string)
  (body : option string) (timeoutMs : Z) : Request :=
  mkRequest url method headers (if truthy body then body else None) timeoutMs.

Definition accept_header : JsMap.t string :=
  [("Accept", "application/json, text/plain, */*")].

(** The request of a session-authenticated call, as [handleX402SessionFetch]
    and the auto-session path of [handleX402Pay] build it: the default
    header, the three session headers, then the caller's headers. *)
Definition session_request (session : SessionRecord.t) (url : string)
  (method : option string) (headers : option (JsMap.t string))
  (body : option string) (timeoutMs : Z) : Request :=
  let sessionHeaders := Manager.buildSessionHeaders session in
  let method := match method with Some m => m | None => "GET" end in
  let mergedHeaders :=
    with_content_type body method
      (spread (spread accept_header sessionHeaders)
              (match headers with Some h => h | None => [] end)) in
  requestInit url method mergedHeaders body timeoutMs.

(** [formatError(error, context)] of utils/format.ts *)
Definition formatError (error : Exn) (context : string) : string :=
  "❌ " ++ context ++ " failed: " ++ message error.

(** [chainName] of utils/format.ts *)
Definition chainName (chainId : Z) : string :=
  if chainId =? 8453 then "Base Mainnet"
  else if chainId =? 84532 then "Base Sepolia (testnet)"
  else if chainId =? 1 then "Ethereum Mainnet"
  else if chainId =? 42161 then "Arbitrum One"
  else if chainId =? 137 then "Polygon"
  else "Chain " ++ Str.of_Z chainId.

(** The [catch] clause every handler ends with. *)
Definition on_error (tool : string) (timeout_ms : option Z) (error : Exn)
  : M ToolResult :=
  if String.eqb (name error) "AbortError" then
    ret (mkResult
           ("❌ " ++ tool ++ " failed: Request timed out after "
              ++ Str.of_Z (match timeout_ms with Some t => t | None => 30000 end)
              ++ "ms")
           true)
  else ret (mkResult (formatError error tool) true).

Definition no_payment : PaymentTrack :=
  mkTrack false 0 EmptyString EmptyString
          "0x0000000000000000000000000000000000000000".

Section WithEnv.
Variable env : Env.

(** The global [fetch]. *)
Definition fetch (r : Request) : M Response :=
  fun w =>
    await (remote env (List.length (fetched w)) r)
          (mkWorld (store w) (clock w) (drawn w) (r :: fetched w) (paid w)).

(** [x402Client.fetch] of a client created with the given callbacks. *)
Definition x402Client_fetch (globalPerRequestMax : option Z)
  (onBeforePayment : PaymentRequest -> string -> Completion bool)
  (onPaymentComplete : PaymentLog -> PaymentTrack -> PaymentTrack)
  (r : Request) (t : PaymentTrack) : M (Response * PaymentTrack) :=
  fun w =>
    let run := x402 env (List.length (paid w)) globalPerRequestMax r in
    let '(p, t') := run_client onBeforePayment onPaymentComplete run t in
    let w' := mkWorld (store w) (clock w) (drawn w) (fetched w) (r :: paid w) in
    match await p w' with
    | (Normal response, w'') => (Normal (response, t'), w'')
    | (Throw e, w'') => (Throw e, w'')
    end.

(** The parsing of the optional payment cap. *)
Definition parse_cap (max_payment_eth : option string) : M (option Z) :=
  match max_payment_eth with
  | None => ret None
  | Some s =>
      if String.eqb s EmptyString then ret None
      else
        match eth_cap_to_wei env s with
        | None =>
            throw (mkExn "Error" ("Invalid max_payment_eth: " ++ dq ++ s ++ dq))
        | Some wei => ret (Some wei)
        end
  end.

End WithEnv.

(** [maxPaymentWei && amount > maxPaymentWei] *)
Definition over_cap (maxPaymentWei : option Z) (amount : Z) : bool :=
  match maxPaymentWei with
  | Some cap => negb (cap =? 0) && (amount >? cap)
  | None => false
  end.

End Tool.

(* ================================================================== *)
(** * tools/session.ts *)
(* ================================================================== *)

Module X402SessionStartInput.
Record t : Type := mk {
  endpoint : string;
  scope : option Scope.t;
  ttl_seconds : option Z;
  label : option string;
  max_payment_eth : option string;
  method : option string;
  headers : option (JsMap.t string);
  body : option string;
  timeout_ms : option Z
}.
End X402SessionStartInput.

Module X402SessionFetchInput.
Record t : Type := mk {
  session_id : string;
  url : string;
  method : option string;
  headers : option (JsMap.t string);
  body : option string;
  timeout_ms : option Z
}.
End X402SessionFetchInput.

Module SessionTools.
Import Tool.

(** [isUrlCoveredBySession] *)
Definition isUrlCoveredBySession (url : string) (endpoint : string)
  (scope : Scope.t) : bool :=
  match scope with
  | Scope.exact => String.eqb url endpoint
  | Scope.prefix =>
      let base := if Str.endsWith endpoint "/" then endpoint else endpoint ++ "/" in
      String.eqb url endpoint
      || Str.startsWith url base
      || Str.startsWith url (endpoint ++ "?")
  end.

(** [text.slice(0, n) + (text.length > n ? '\n... [truncated]' : '')] *)
Definition truncated_body (responseText : string) (n : Z) : string :=
  Str.slice responseText 0 n
    ++ (if Str.length responseText >? n then nl ++ "... [truncated]" else EmptyString).

(** The display text of a fetched body, cut at 8000 characters (bytes
    here, code units in the program: the same for an ASCII body). *)
Definition displayText (responseText : string) : string :=
  let MAX_LEN := 8000 in
  if Str.length responseText >? MAX_LEN
  then Str.slice responseText 0 MAX_LEN ++ nl ++ nl ++ "... [response truncated]"
  else responseText.

Section WithEnv.
Variable env : Env.

(** The [onBeforePayment] callback of [handleX402SessionStart]. *)
Definition start_onBeforePayment (input : X402SessionStartInput.t)
  (maxPaymentWei : option Z) (req : PaymentRequest) (_ : string)
  : Completion bool :=
  let amount := req_amount req in
  if over_cap maxPaymentWei amount then
    Throw (mkExn "Error"
      ("Session payment (" ++ Str.of_Z amount
         ++ " wei) exceeds max_payment_eth cap "
         ++ "(" ++ Str.of_Z (match maxPaymentWei with Some c => c | None => 0 end)
         ++ " wei = "
         ++ match X402SessionStartInput.max_payment_eth input with
            | Some s => s
            | None => "undefined"
            end
         ++ " ETH). "
         ++ "Set a higher max_payment_eth to proceed."))
  else Normal true.

(** The [onPaymentComplete] callback of [handleX402SessionStart]. *)
Definition start_onPaymentComplete (log : PaymentLog) (_ : PaymentTrack)
  : PaymentTrack :=
  mkTrack true (log_amount log) (log_txHash log) (log_recipient log)
          (match log_token log with
           | Some tk => tk
           | None => "0x0000000000000000000000000000000000000000"
           end).

(** The request [handleX402SessionStart] passes to the payment client. *)
Definition start_request (input : X402SessionStartInput.t) : Request :=
  let timeoutMs :=
    match X402SessionStartInput.timeout_ms input with
    | Some t => t
    | None => 30000
    end in
  let method :=
    match X402SessionStartInput.method input with
    | Some m => m
    | None => "GET"
    end in
  let reqHeaders :=
    with_content_type (X402SessionStartInput.body input) method
      (spread accept_header
              (match X402SessionStartInput.headers input with
               | Some h => h
               | None => []
               end)) in
  requestInit (X402SessionStartInput.endpoint input) method reqHeaders
              (X402SessionStartInput.body input) timeoutMs.

(** The text returned when no payment was made. *)
Definition no_payment_text (input : X402SessionStartInput.t)
  (response : Response) (responseText : string) : string :=
  "ℹ️ **No Payment Required**" ++ nl ++ nl
    ++ "  Endpoint: " ++ X402SessionStartInput.endpoint input ++ nl
    ++ "  Status:   " ++ Str.of_Z (status response) ++ " "
    ++ statusText response ++ nl ++ nl
    ++ "No x402 payment was needed. The endpoint responded without requiring payment." ++ nl
    ++ "You do not need a session token — use x402_pay directly for free endpoints." ++ nl ++ nl
    ++ "📄 **Response Body**" ++ nl
    ++ fence ++ nl ++ truncated_body responseText 4000 ++ nl ++ fence.

(** [handleX402SessionStart] *)
Definition handleX402SessionStart (input : X402SessionStartInput.t)
  : M ToolResult :=
  catch
    (_wallet <- lift (getWallet env) ;;
     config <- lift (getConfig env) ;;
     maxPaymentWei <- parse_cap env (X402SessionStartInput.max_payment_eth input) ;;
     fetched <- x402Client_fetch env maxPaymentWei
                                 (start_onBeforePayment input maxPaymentWei)
                                 start_onPaymentComplete
                                 (start_request input) no_payment ;;
     let '(response, track) := fetched in
     responseText <- await (text response) ;;
     if negb (paymentMade track) then
       ret (mkResult (no_payment_text input response responseText) false)
     else
       session <- Manager.createSession env
         (CreateSessionOptions.mk
            (X402SessionStartInput.endpoint input)
            (Some (match X402SessionStartInput.scope input with
                   | Some s => s
                   | None => Scope.prefix
                   end))
            (X402SessionStartInput.ttl_seconds input)
            (X402SessionStartInput.label input)
            (trk_txHash track)
            (trk_amount track)
            (trk_token track)
            (trk_recipient track)
            (cfg_walletAddress config)
            (wallet_signMessage env)) ;;
       now <- now_seconds ;;
       let ttlRemaining := SessionRecord.expiresAt session - now in
       let expiresAt := toISOString env (SessionRecord.expiresAt session) in
       ret (mkResult
              ("🔐 **x402 Session Established**" ++ nl ++ nl
                 ++ "  Session ID:    " ++ SessionRecord.sessionId session ++ nl
                 ++ "  Endpoint:      " ++ SessionRecord.endpoint session ++ nl
                 ++ "  Scope:         " ++ Scope.to_string (SessionRecord.scope session) ++ nl
                 ++ (if truthy (SessionRecord.label session)
                     then "  Label:         "
                            ++ match SessionRecord.label session with
                               | Some l => l
                               | None => EmptyString
                               end ++ nl
                     else EmptyString)
                 ++ "  Network:       " ++ chainName (cfg_chainId config) ++ nl
                 ++ "  TTL:           " ++ Str.of_Z (Js.ceil_div ttlRemaining 60)
                 ++ "m (expires " ++ expiresAt ++ ")" ++ nl ++ nl
                 ++ "💳 **Session Payment**" ++ nl
                 ++ "  Amount:    " ++ Str.of_Z (trk_amount track) ++ " (base units)" ++ nl
                 ++ "  Recipient: " ++ trk_recipient track ++ nl
                 ++ "  TX Hash:   " ++ trk_txHash track ++ nl ++ nl
                 ++ "✅ **Next Steps**" ++ nl
                 ++ "  Use `x402_session_fetch` with session_id=" ++ dq
                 ++ SessionRecord.sessionId session ++ dq ++ " for all subsequent" ++ nl
                 ++ "  requests to " ++ X402SessionStartInput.endpoint input
                 ++ " — no further payments will be made during this session." ++ nl
                 ++ "  Check session status with `x402_session_status`." ++ nl ++ nl
                 ++ "📄 **Initial Response** (" ++ Str.of_Z (status response) ++ ")" ++ nl
                 ++ fence ++ nl ++ truncated_body responseText 4000 ++ nl ++ fence)
              false))
    (on_error "x402_session_start" (X402SessionStartInput.timeout_ms input)).

(** [handleX402SessionFetch] *)
Definition handleX402SessionFetch (input : X402SessionFetchInput.t)
  : M ToolResult :=
  let session_id := X402SessionFetchInput.session_id input in
  let url := X402SessionFetchInput.url input in
  catch
    (let timeoutMs :=
       match X402SessionFetchInput.timeout_ms input with
       | Some t => t
       | None => 30000
       end in
     lookup <- Manager.lookupSession session_id ;;
     match lookup with
     | NotFound =>
         ret (mkResult
                ("❌ Session not found: " ++ dq ++ session_id ++ dq ++ nl ++ nl
                   ++ "Create a new session with x402_session_start first.")
                true)
     | Found session true =>
         let expiredAt := toISOString env (SessionRecord.expiresAt session) in
         ret (mkResult
                ("⏰ **Session Expired**" ++ nl ++ nl
                   ++ "  Session ID: " ++ session_id ++ nl
                   ++ "  Endpoint:   " ++ SessionRecord.endpoint session ++ nl
                   ++ "  Expired at: " ++ expiredAt ++ nl ++ nl
                   ++ "Call x402_session_start to establish a new session for this endpoint.")
                true)
     | Found session false =>
         let urlCovered :=
           isUrlCoveredBySession url (SessionRecord.endpoint session)
                                 (SessionRecord.scope session) in
         if negb urlCovered then
           ret (mkResult
                  ("❌ URL not covered by this session." ++ nl ++ nl
                     ++ "  Session endpoint: " ++ SessionRecord.endpoint session ++ nl
                     ++ "  Session scope:    "
                     ++ Scope.to_string (SessionRecord.scope session) ++ nl
                     ++ "  Requested URL:    " ++ url ++ nl ++ nl
                     ++ "This URL is outside the session's "
                     ++ (if Scope.eqb (SessionRecord.scope session) Scope.exact
                         then "exact match" else "prefix match")
                     ++ " scope." ++ nl
                     ++ "Create a new session for this URL with x402_session_start, or use x402_pay for a one-time request.")
                  true)
         else
           let method :=
             match X402SessionFetchInput.method input with
             | Some m => m
             | None => "GET"
             end in
           let init :=
             session_request session url
               (X402SessionFetchInput.method input)
               (X402SessionFetchInput.headers input)
               (X402SessionFetchInput.body input)
               timeoutMs in
           response <- fetch env init ;;
           responseText <- await (text response) ;;
           Manager.recordSessionCall session_id ;;;
           if status response =? 402 then
             ret (mkResult
                    ("⚠️ **Server returned 402 — Session Not Recognised**" ++ nl ++ nl
                       ++ "  URL:        " ++ url ++ nl
                       ++ "  Session ID: " ++ session_id ++ nl ++ nl
                       ++ "The server returned HTTP 402 despite session headers being sent." ++ nl
                       ++ "This means the server does not support x402 V2 session tokens yet," ++ nl
                       ++ "or the session has been invalidated server-side." ++ nl ++ nl
                       ++ "Options:" ++ nl
                       ++ "  • Use x402_pay for a one-time payment to this URL" ++ nl
                       ++ "  • Contact the API provider about x402 V2 session support" ++ nl ++ nl
                       ++ "📄 **Response Body**" ++ nl
                       ++ fence ++ nl ++ Str.slice responseText 0 2000 ++ nl ++ fence)
                    true)
           else
             now <- now_seconds ;;
             m <- get_store ;;
             let ttlRemaining := SessionRecord.expiresAt session - now in
             let callNumber :=
               match JsMap.get m session_id with
               | Some s => SessionRecord.callCount s
               | None => SessionRecord.callCount session
               end in
             ret (mkResult
                    ("⚡ **x402 Session Fetch** (call #" ++ Str.of_Z callNumber ++ ")" ++ nl ++ nl
                       ++ "  Session ID:  " ++ SessionRecord.sessionId session ++ nl
                       ++ (if truthy (SessionRecord.label session)
                           then "  Label:       "
                                  ++ match SessionRecord.label session with
                                     | Some l => l
                                     | None => EmptyString
                                     end ++ nl
                           else EmptyString)
                       ++ "  URL:         " ++ url ++ nl
                       ++ "  Method:      " ++ method ++ nl
                       ++ "  Status:      " ++ Str.of_Z (status response) ++ " "
                       ++ statusText response ++ nl
                       ++ "  Session TTL: " ++ Str.of_Z (Js.ceil_div ttlRemaining 60)
                       ++ "m remaining" ++ nl
                       ++ "  💰 No payment — session token used" ++ nl ++ nl
                       ++ "📄 **Response Body**" ++ nl
                       ++ fence ++ nl ++ displayText responseText ++ nl ++ fence)
                    false)
     end)
    (on_error "x402_session_fetch" (X402SessionFetchInput.timeout_ms input)).

End WithEnv.

End SessionTools.

(* ================================================================== *)
(** * tools/x402.ts *)
(* ================================================================== *)

Module X402PayInput.
Record t : Type := mk {
  url : string;
  method : option string;
  headers : option (JsMap.t string);
  body : option string;
  max_payment_eth : option string;
  timeout_ms : option Z;
  skip_session_check : option bool
}.
End X402PayInput.

Module X402Tool.
Import Tool.

(** How the auto-session attempt of [handleX402Pay] ends: with the result
    to return, or by falling through to the payment flow. *)
Inductive SessionAttempt : Type :=
| Return (r : ToolResult)
| FallThrough.

Section WithEnv.
Variable env : Env.

(** The auto-session detection at the head of [handleX402Pay]. *)
Definition auto_session (input : X402PayInput.t) (config : ClawPayConfig)
  (timeoutMs : Z) : M SessionAttempt :=
  let url := X402PayInput.url input in
  if negb (match X402PayInput.skip_session_check input with
           | Some b => b
           | None => false
           end) then
    found <- Manager.findSessionForUrl url ;;
    match found with
    | Some activeSession =>
        let method :=
          match X402PayInput.method input with
          | Some m => m
          | None => "GET"
          end in
        let init :=
          session_request activeSession url
            (X402PayInput.method input)
            (X402PayInput.headers input)
            (X402PayInput.body input)
            timeoutMs in
        response <- fetch env init ;;
        if negb (status response =? 402) then
          responseText <- await (text response) ;;
          Manager.recordSessionCall (SessionRecord.sessionId activeSession) ;;;
          now <- now_seconds ;;
          m <- get_store ;;
          let ttlRemaining := SessionRecord.expiresAt activeSession - now in
          let calls :=
            match JsMap.get m (SessionRecord.sessionId activeSession) with
            | Some s => SessionRecord.callCount s
            | None => SessionRecord.callCount activeSession
            end in
          ret (Return (mkResult
                 ("🌐 **x402 Fetch Result** (session)" ++ nl ++ nl
                    ++ "  URL:        " ++ url ++ nl
                    ++ "  Method:     " ++ method ++ nl
                    ++ "  Status:     " ++ Str.of_Z (status response) ++ " "
                    ++ statusText response ++ nl
                    ++ "  Network:    " ++ chainName (cfg_chainId config) ++ nl
                    ++ nl ++ "🔐 **Session Used** (no payment)" ++ nl
                    ++ "  Session ID: " ++ SessionRecord.sessionId activeSession ++ nl
                    ++ (if truthy (SessionRecord.label activeSession)
                        then "  Label:      "
                               ++ match SessionRecord.label activeSession with
                                  | Some l => l
                                  | None => EmptyString
                                  end ++ nl
                        else EmptyString)
                    ++ "  TTL:        " ++ Str.of_Z (Js.ceil_div ttlRemaining 60)
                    ++ "m remaining" ++ nl
                    ++ "  Calls:      " ++ Str.of_Z calls ++ nl
                    ++ nl ++ "📄 **Response Body**" ++ nl
                    ++ fence ++ nl ++ SessionTools.displayText responseText
                    ++ nl ++ fence)
                 false))
        else ret FallThrough
    | None => ret FallThrough
    end
  else ret FallThrough.

(** The standard payment flow of [handleX402Pay]. *)
Definition payment_flow (input : X402PayInput.t) (config : ClawPayConfig)
  (timeoutMs : Z) : M ToolResult :=
  let url := X402PayInput.url input in
  maxPaymentWei <- parse_cap env (X402PayInput.max_payment_eth input) ;;
  let onBeforePayment (req : PaymentRequest) (_ : string) : Completion bool :=
    let amount := req_amount req in
    if over_cap maxPaymentWei amount then
      Throw (mkExn "Error"
        ("Payment required (" ++ Str.of_Z amount
           ++ " wei) exceeds max_payment_eth cap "
           ++ "(" ++ Str.of_Z (match maxPaymentWei with Some c => c | None => 0 end)
           ++ " wei = "
           ++ match X402PayInput.max_payment_eth input with
              | Some s => s
              | None => "undefined"
              end
           ++ " ETH). "
           ++ "Increase max_payment_eth or the payment will not proceed."))
    else Normal true in
  let onPaymentComplete (log : PaymentLog) (t : PaymentTrack) : PaymentTrack :=
    mkTrack true (log_amount log) (log_txHash log) (log_recipient log)
            (trk_token t) in
  let method :=
    match X402PayInput.method input with
    | Some m => m
    | None => "GET"
    end in
  let headers :=
    with_content_type (X402PayInput.body input) method
      (spread accept_header
              (match X402PayInput.headers input with
               | Some h => h
               | None => []
               end)) in
  let init :=
    requestInit url method headers (X402PayInput.body input) timeoutMs in
  fetched <- x402Client_fetch env maxPaymentWei onBeforePayment
                              onPaymentComplete init no_payment ;;
  let '(response, track) := fetched in
  responseText <- await (text response) ;;
  ret (mkResult
         ("🌐 **x402 Fetch Result**" ++ nl ++ nl
            ++ "  URL:     " ++ url ++ nl
            ++ "  Method:  " ++ method ++ nl
            ++ "  Status:  " ++ Str.of_Z (status response) ++ " "
            ++ statusText response ++ nl
            ++ "  Network: " ++ chainName (cfg_chainId config) ++ nl
            ++ (if paymentMade track then
                  nl ++ "💳 **Payment Made**" ++ nl
                     ++ "  Amount:    " ++ Str.of_Z (trk_amount track)
                     ++ " (base units)" ++ nl
                     ++ "  Recipient: " ++ trk_recipient track ++ nl
                     ++ "  TX Hash:   " ++ trk_txHash track ++ nl
                     ++ nl ++ "💡 Tip: Use x402_session_start to pay once for a session and skip per-call payments." ++ nl
                else nl ++ "✅ No payment required" ++ nl)
            ++ nl ++ "📄 **Response Body**" ++ nl
            ++ fence ++ nl ++ SessionTools.displayText responseText ++ nl ++ fence)
         false).

(** [handleX402Pay] *)
Definition handleX402Pay (input : X402PayInput.t) : M ToolResult :=
  catch
    (_wallet <- lift (getWallet env) ;;
     config <- lift (getConfig env) ;;
     let timeoutMs :=
       match X402PayInput.timeout_ms input with
       | Some t => t
       | None => 30000
       end in
     attempt <- auto_session input config timeoutMs ;;
     match attempt with
     | Return r => ret r
     | FallThrough => payment_flow input config timeoutMs
     end)
    (on_error "x402_pay" (X402PayInput.timeout_ms input)).

End WithEnv.

End X402Tool.

(* ================================================================== *)
(** * The words of the specification *)
(* ================================================================== *)

Module Spec.

(** [clamp(x, lo, hi)] *)
Definition clamp (x lo hi : Z) : Z := Z.max lo (Z.min x hi).

(** The default TTL as configured: the positive integer read from
    [SESSION_TTL_SECONDS], if there is one. *)
Definition configured_ttl (env : Env) : option Z :=
  match SESSION_TTL_SECONDS env with
  | None => None
  | Some raw =>
      match Js.parseInt raw with
      | Some n => if 0 <? n then Some n else None
      | None => None
      end
  end.

(** A string split at the last occurrence of [c]: what stands before it
    and what stands after it. *)
Fixpoint split_last (c : ascii) (s : string) : option (string * string) :=
  match s with
  | EmptyString => None
  | String a r =>
      match split_last c r with
      | Some (x, y) => Some (String a x, y)
      | None => if Ascii.eqb a c then Some (EmptyString, r) else None
      end
  end.

(** Decode of section 4.1: split on the last dot, base64url-decode and
    JSON-parse the first segment, [null] on any failure. *)
Definition Decode (token : string) : option Manager.Decoded :=
  match split_last "."%char token with
  | None => None
  | Some (first, signature) =>
      match JSON.parse (Base64url.decode first) with
      | Some payload => Some (Manager.mkDecoded payload signature)
      | None => None
      end
  end.

(** Section 8: a session with scope prefix and endpoint [E] matches [U]
    where [U == E] or [U] starts with [E + "/"]. *)
Definition prefix_covers (E U : string) : bool :=
  String.eqb U E || Str.startsWith U (E ++ "/").

(** Section 6: the fields of the canonical payload, in alphabetical key
    order. *)
Definition canonical_fields (p : SessionTokenPayload.t)
  : list (string * JSON.value) :=
  [ ("createdAt", JSON.JNum (SessionTokenPayload.createdAt p) 0);
    ("endpoint", JSON.JStr (SessionTokenPayload.endpoint p));
    ("expiresAt", JSON.JNum (SessionTokenPayload.expiresAt p) 0);
    ("paymentAmount", JSON.JStr (SessionTokenPayload.paymentAmount p));
    ("paymentTxHash", JSON.JStr (SessionTokenPayload.paymentTxHash p));
    ("scope", JSON.JStr (Scope.to_string (SessionTokenPayload.scope p)));
    ("sessionId", JSON.JStr (SessionTokenPayload.sessionId p));
    ("version", JSON.JStr (SessionTokenPayload.version p));
    ("walletAddress", JSON.JStr (SessionTokenPayload.walletAddress p)) ].

(** Encode of section 4.1: [<base64url-payload>.<signature>] over the
    canonical JSON of the payload. *)
Definition Encode (p : SessionTokenPayload.t) (signature : string) : string :=
  Base64url.encode (JSON.stringify (JSON.JObj (canonical_fields p)))
    ++ "." ++ signature.

(** A record is active iff [now < expiresAt]. *)
Definition active (now : Z) (s : SessionRecord.t) : Prop :=
  now < SessionRecord.expiresAt s.

End Spec.

(* ================================================================== *)
(** * Sequences of calls on the session table *)
(* ================================================================== *)

(** The table as the program maintains it: one entry per key, and every
    record stored under its own identifier. *)
Definition store_ok (m : JsMap.t SessionRecord.t) : Prop :=
  NoDup (JsMap.keys m)
  /\ forall k s, In (k, s) m -> SessionRecord.sessionId s = k.

(** The session [id], if still in the table, has been force-expired. *)
Definition ended (id : string) (m : JsMap.t SessionRecord.t) : Prop :=
  match JsMap.get m id with
  | None => True
  | Some s => SessionRecord.expiresAt s = 0
  end.

(** A call of the public API of manager.ts, or time passing. *)
Inductive Call : Type :=
| CreateSession (opts : CreateSessionOptions.t)
| LookupSession (sessionId : string)
| RecordSessionCall (sessionId : string)
| EndSession (sessionId : string)
| ListActiveSessions
| ListAllSessions
| FindSessionForUrl (url : string)
| GetStoreSize
| Wait (ms : Z).

Definition forget {A} (m : M A) : M unit := bind m (fun _ => ret tt).

Definition exec (env : Env) (c : Call) : M unit :=
  match c with
  | CreateSession opts => forget (Manager.createSession env opts)
  | LookupSession id => forget (Manager.lookupSession id)
  | RecordSessionCall id => Manager.recordSessionCall id
  | EndSession id => forget (Manager.endSession id)
  | ListActiveSessions => forget Manager.listActiveSessions
  | ListAllSessions => forget Manager.listAllSessions
  | FindSessionForUrl url => forget (Manager.findSessionForUrl url)
  | GetStoreSize => forget Manager.getStoreSize
  | Wait ms => await (mkPromise ms (Normal tt))
  end.

(** The world after a sequence of calls; a call that throws leaves the
    world as it was when it threw. *)
Fixpoint exec_all (env : Env) (cs : list Call) (w : World) : World :=
  match cs with
  | [] => w
  | c :: cs' => exec_all env cs' (snd (exec env c w))
  end.

(** The calls that run [pruneExpired]: [createSession], once the
    signature is there, and [listActiveSessions]. *)
Definition prunes (c : Call) : bool :=
  match c with
  | CreateSession _ | ListActiveSessions => true
  | _ => false
  end.

(* ================================================================== *)
(** * Concrete worlds used in the examples *)
(* ================================================================== *)

Module Ex.

Definition sig_ok (_ : string) : Promise string := resolved "0xsig".

(** A signer whose signature has a dot in it, and one that rejects. *)
Definition sig_dot (_ : string) : Promise string := resolved "0xab.cd".
Definition sig_fail (_ : string) : Promise string :=
  rejected (mkExn "Error" "user rejected the signature request").

Definition payload : SessionTokenPayload.t :=
  SessionTokenPayload.mk "clawpay/1.1" "11111111-1111-4111-8111-111111111111"
    "0xwallet" "https://api.example.com/v1" Scope.prefix 1000000 1003600
    "0xtx" "100".

Definition id1 : string := "11111111-1111-4111-8111-111111111111".

Definition ok200 : Response := mkResponse 200 "OK" (resolved "ok").
Definition pay402 : Response :=
  mkResponse 402 "Payment Required" (resolved "payment required").

(** An environment whose servers answer 200 to everything, free of
    charge. *)
Definition env : Env :=
  mkEnv None
        (fun _ => id1)
        (fun _ _ => resolved ok200)
        (fun _ _ _ => Settle (resolved ok200))
        (Normal (mkConfig "0xwallet" 8453))
        (Normal tt)
        sig_ok
        (fun _ => None)
        (fun _ => "1970-01-01T00:00:00.000Z").

(** The same, with servers that answer 402 to plain requests. *)
Definition env402 : Env :=
  mkEnv None
        (fun _ => id1)
        (fun _ _ => resolved pay402)
        (fun _ _ _ => Settle (resolved ok200))
        (Normal (mkConfig "0xwallet" 8453))
        (Normal tt)
        sig_ok
        (fun _ => None)
        (fun _ => "1970-01-01T00:00:00.000Z").

(** An empty table at one million seconds. *)
Definition w0 : World := mkWorld [] 1000000000 0 [] [].

Definition opts (endpoint : string) (scope : Scope.t) (ttl : option Z)
  (sign : string -> Promise string) : CreateSessionOptions.t :=
  CreateSessionOptions.mk endpoint (Some scope) ttl None "0xtx" 100
    "0x0000000000000000000000000000000000000000" "0xrecip" "0xwallet" sign.

Definition session (id endpoint : string) (scope : Scope.t) (expiresAt : Z)
  : SessionRecord.t :=
  SessionRecord.mk id endpoint scope "0xwallet" 1000000 expiresAt "0xtx" "100"
    "0x0000000000000000000000000000000000000000" "0xrecip"
    "e30.0xsig" "0xsig" None 0 1000000.

(** A table with one active prefix-scope session on [/v1], one minute
    after its creation. *)
Definition s1 : SessionRecord.t :=
  session id1 "https://api.example.com/v1" Scope.prefix 1003600.

Definition w1 : World := mkWorld [(id1, s1)] 1000060000 1 [] [].

Definition id2 : string := "22222222-2222-4222-8222-222222222222".

(** A table with one active session that no later identifier collides
    with. *)
Definition w2 : World :=
  mkWorld [(id2, session id2 "https://api.example.com/v1" Scope.prefix 1003600)]
          1000060000 0 [] [].

(** A table with one expired session. *)
Definition w3 : World :=
  mkWorld [(id2, session id2 "https://api.example.com/v1" Scope.prefix 1000001)]
          1000060000 0 [] [].

(** A table with a prefix-scope session on [/v1] created before an
    exact-scope session on [/v1/users]. *)
Definition s_exact : SessionRecord.t :=
  session id1 "https://api.example.com/v1/users" Scope.exact 1003600.

Definition w4 : World :=
  mkWorld [(id2, session id2 "https://api.example.com/v1" Scope.prefix 1003600);
           (id1, s_exact)]
          1000060000 0 [] [].

(** The environment with [SESSION_TTL_SECONDS=7200]. *)
Definition env7200 : Env :=
  mkEnv (Some "7200")
        (fun _ => id1)
        (fun _ _ => resolved ok200)
        (fun _ _ _ => Settle (resolved ok200))
        (Normal (mkConfig "0xwallet" 8453))
        (Normal tt)
        sig_ok
        (fun _ => None)
        (fun _ => "1970-01-01T00:00:00.000Z").

Definition start_input : X402SessionStartInput.t :=
  X402SessionStartInput.mk "https://api.example.com/v1" None None None None
    None None None None.

Definition fetch_input (url : string) : X402SessionFetchInput.t :=
  X402SessionFetchInput.mk id1 url None None None None.

Definition pay_input (url : string) : X402PayInput.t :=
  X402PayInput.mk url None None None None None None.

End Ex.

From Stdlib Require Import Permutation Sorted.

(* ================================================================== *)
(** * tools/session.ts: x402_session_status and x402_session_end *)
(* ================================================================== *)

Module X402SessionStatusInput.
Record t : Type := mk {
  session_id : option string
}.
End X402SessionStatusInput.

Module X402SessionEndInput.
Record t : Type := mk {
  session_id : string
}.
End X402SessionEndInput.

Module SessionAdmin.
Import Tool.

(** [formatTtl] *)
Definition formatTtl (seconds : Z) : string :=
  if seconds <=? 0 then "Expired"
  else if seconds <? 60 then Str.of_Z seconds ++ "s"
  else if seconds <? 3600 then
    Str.of_Z (seconds / 60) ++ "m " ++ Str.of_Z (Z.rem seconds 60) ++ "s"
  else
    let h := seconds / 3600 in
    let m := Z.rem seconds 3600 / 60 in
    if m >? 0 then Str.of_Z h ++ "h " ++ Str.of_Z m ++ "m"
    else Str.of_Z h ++ "h".

Definition NATIVE : string := "0x0000000000000000000000000000000000000000".

Section WithRuntime.
Variable env : Env.

(** [ttlProgressBar(remaining, total)] draws its bar from a quotient and a
    rounding in floating point; it is left abstract. *)
Variable ttlProgressBar : Z -> Z -> string.

(** [String(x)] for the number [m * 10^e], which the runtime computes on
    the double nearest to it; left abstract. *)
Variable Number_toString : Z -> Z -> string.

(** A parsed value inside a template literal. *)
Fixpoint to_display (v : JSON.value) : string :=
  match v with
  | JSON.JNull => "null"
  | JSON.JBool b => if b then "true" else "false"
  | JSON.JNum m e => Number_toString m e
  | JSON.JStr s => s
  | JSON.JArr l =>
      Str.join ","
        (map (fun x => match x with
                       | JSON.JNull => EmptyString
                       | _ => to_display x
                       end) l)
  | JSON.JObj _ => "[object Object]"
  end.

(** [`${decoded.payload.version}`]: reading a property of [null] throws. *)
Definition version_text (payload : JSON.value) : Completion string :=
  match payload with
  | JSON.JNull =>
      Throw (mkExn "TypeError" "Cannot read properties of null (reading 'version')")
  | _ =>
      Normal (match JSON.prop payload "version" with
              | Some v => to_display v
              | None => "undefined"
              end)
  end.

(** The text of the detailed view, up to the token information. *)
Definition details_text (session : SessionRecord.t) (expired : bool)
  (ttlRemaining : Z) : string :=
  (if expired
   then "⏰ **Session Expired**" ++ nl ++ nl
   else "🔐 **Session Details**" ++ nl ++ nl)
    ++ "  Session ID:    " ++ SessionRecord.sessionId session ++ nl
    ++ (if truthy (SessionRecord.label session)
        then "  Label:         "
               ++ match SessionRecord.label session with
                  | Some l => l
                  | None => EmptyString
                  end ++ nl
        else EmptyString)
    ++ "  Status:        " ++ (if expired then "❌ Expired" else "✅ Active") ++ nl
    ++ "  Endpoint:      " ++ SessionRecord.endpoint session ++ nl
    ++ "  Scope:         " ++ Scope.to_string (SessionRecord.scope session) ++ nl
    ++ "  Wallet:        " ++ SessionRecord.walletAddress session ++ nl ++ nl
    ++ "⏱️  **Timing**" ++ nl
    ++ "  Created:       " ++ toISOString env (SessionRecord.createdAt session) ++ nl
    ++ "  Expires:       " ++ toISOString env (SessionRecord.expiresAt session) ++ nl
    ++ (if negb expired
        then "  TTL Remaining: " ++ formatTtl ttlRemaining ++ nl
        else EmptyString)
    ++ "  Last Used:     "
    ++ (if SessionRecord.lastUsedAt session >? 0
        then toISOString env (SessionRecord.lastUsedAt session)
        else "Never") ++ nl
    ++ "  Call Count:    " ++ Str.of_Z (SessionRecord.callCount session) ++ nl ++ nl
    ++ "💳 **Session Payment**" ++ nl
    ++ "  TX Hash:       " ++ SessionRecord.paymentTxHash session ++ nl
    ++ "  Amount:        " ++ SessionRecord.paymentAmount session ++ " (base units)" ++ nl
    ++ "  Recipient:     " ++ SessionRecord.paymentRecipient session ++ nl
    ++ "  Token:         "
    ++ (if String.eqb (SessionRecord.paymentToken session) NATIVE
        then "ETH (native)"
        else SessionRecord.paymentToken session) ++ nl ++ nl.

(** What the loop of the list view adds for one session. *)
Definition list_entry (now : Z) (session : SessionRecord.t) : string :=
  let ttlRemaining := Z.max 0 (SessionRecord.expiresAt session - now) in
  let ttlBar :=
    ttlProgressBar ttlRemaining
      (SessionRecord.expiresAt session - SessionRecord.createdAt session) in
  "─────────────────────────────────────" ++ nl
    ++ "  ID:       " ++ SessionRecord.sessionId session ++ nl
    ++ (if truthy (SessionRecord.label session)
        then "  Label:    "
               ++ match SessionRecord.label session with
                  | Some l => l
                  | None => EmptyString
                  end ++ nl
        else EmptyString)
    ++ "  Endpoint: " ++ SessionRecord.endpoint session ++ nl
    ++ "  Scope:    " ++ Scope.to_string (SessionRecord.scope session) ++ nl
    ++ "  TTL:      " ++ formatTtl ttlRemaining ++ " " ++ ttlBar ++ nl
    ++ "  Calls:    " ++ Str.of_Z (SessionRecord.callCount session) ++ nl
    ++ "  Payment:  " ++ SessionRecord.paymentAmount session ++ " base units → TX "
    ++ Str.slice (SessionRecord.paymentTxHash session) 0 18 ++ "..." ++ nl
    ++ nl.

(** [handleX402SessionStatus] *)
Definition handleX402SessionStatus (input : X402SessionStatusInput.t)
  : M ToolResult :=
  catch
    (now <- now_seconds ;;
     if truthy (X402SessionStatusInput.session_id input) then
       let session_id :=
         match X402SessionStatusInput.session_id input with
         | Some s => s
         | None => EmptyString
         end in
       lookup <- Manager.lookupSession session_id ;;
       match lookup with
       | NotFound =>
           ret (mkResult
                  ("❌ Session not found: " ++ dq ++ session_id ++ dq ++ nl ++ nl
                     ++ "Use x402_session_status (no arguments) to list active sessions.")
                  true)
       | Found session expired =>
           let ttlRemaining := Z.max 0 (SessionRecord.expiresAt session - now) in
           decoded <- lift (Manager.decodeSessionToken
                              (SessionRecord.sessionToken session)) ;;
           let out := details_text session expired ttlRemaining in
           match decoded with
           | Some d =>
               version <- lift (version_text (Manager.payload d)) ;;
               ret (mkResult
                      (out ++ "🔏 **Token Info**" ++ nl
                         ++ "  Protocol:      " ++ version ++ nl
                         ++ "  Signature:     "
                         ++ Str.slice (Manager.dec_signature d) 0 20 ++ "..."
                         ++ Str.slice_from (Manager.dec_signature d) (-8) ++ nl)
                      false)
           | None => ret (mkResult out false)
           end
       end
     else
       active <- Manager.listActiveSessions ;;
       if Z.of_nat (List.length active) =? 0 then
         ret (mkResult
                ("📋 **Active Sessions**" ++ nl ++ nl
                   ++ "No active sessions. Use x402_session_start to establish a session."
                   ++ nl ++ nl
                   ++ "ℹ️  Sessions are stored in-process and survive for their configured TTL."
                   ++ nl
                   ++ "   Default TTL: 3600 seconds (1 hour). Set SESSION_TTL_SECONDS to override.")
                false)
       else
         let out :=
           fold_left (fun out session => out ++ list_entry now session) active
             ("📋 **Active x402 Sessions** ("
                ++ Str.of_Z (Z.of_nat (List.length active)) ++ ")" ++ nl ++ nl) in
         ret (mkResult
                (out ++ nl
                   ++ "Use x402_session_fetch with a session_id to make free calls within a session."
                   ++ nl
                   ++ "Use x402_session_status with session_id=" ++ dq ++ "..." ++ dq
                   ++ " for full session details.")
                false))
    (fun error => ret (mkResult (formatError error "x402_session_status") true)).

End WithRuntime.

(** [handleX402SessionEnd] *)
Definition handleX402SessionEnd (input : X402SessionEndInput.t) : M ToolResult :=
  let session_id := X402SessionEndInput.session_id input in
  catch
    (lookup <- Manager.lookupSession session_id ;;
     match lookup with
     | NotFound =>
         ret (mkResult ("❌ Session not found: " ++ dq ++ session_id ++ dq) true)
     | Found session true =>
         ret (mkResult
                ("ℹ️ Session " ++ dq ++ session_id ++ dq ++ " was already expired." ++ nl
                   ++ "Endpoint: " ++ SessionRecord.endpoint session)
                false)
     | Found session false =>
         Manager.endSession session_id ;;;
         ret (mkResult
                ("✅ **Session Closed**" ++ nl ++ nl
                   ++ "  Session ID: " ++ SessionRecord.sessionId session ++ nl
                   ++ "  Endpoint:   " ++ SessionRecord.endpoint session ++ nl
                   ++ "  Calls made: " ++ Str.of_Z (SessionRecord.callCount session)
                   ++ nl ++ nl
                   ++ "The session has been closed and can no longer be used." ++ nl
                   ++ "Use x402_session_start to establish a new session when needed.")
                false)
     end)
    (fun error => ret (mkResult (formatError error "x402_session_end") true)).

End SessionAdmin.

(* ================================================================== *)
(** * index.ts: the tools that use the session table *)
(* ================================================================== *)

(** A call of one of the five tools whose handlers import the session
    manager, with its arguments as the schema of the tool has parsed
    them. *)
Inductive ToolCall : Type :=
| x402_pay (input : X402PayInput.t)
| x402_session_start (input : X402SessionStartInput.t)
| x402_session_fetch (input : X402SessionFetchInput.t)
| x402_session_status (input : X402SessionStatusInput.t)
| x402_session_end (input : X402SessionEndInput.t).

(** What happens to the process: a tool is called, or the session manager
    is called directly (or time passes, [Wait]). *)
Inductive Event : Type :=
| Invoke (c : ToolCall)
| Direct (c : Call).

Section Server.
Variable env : Env.
Variable ttlProgressBar : Z -> Z -> string.
Variable Number_toString : Z -> Z -> string.

(** The [switch] of the call-tool handler of index.ts. *)
Definition call_tool (c : ToolCall) : M ToolResult :=
  match c with
  | x402_pay input => X402Tool.handleX402Pay env input
  | x402_session_start input => SessionTools.handleX402SessionStart env input
  | x402_session_fetch input => SessionTools.handleX402SessionFetch env input
  | x402_session_status input =>
      SessionAdmin.handleX402SessionStatus env ttlProgressBar Number_toString input
  | x402_session_end input => SessionAdmin.handleX402SessionEnd input
  end.

Definition happen (e : Event) : M unit :=
  match e with
  | Invoke c => forget (call_tool c)
  | Direct c => exec env c
  end.

(** The world after a sequence of events, one after the other. *)
Fixpoint run (es : list Event) (w : World) : World :=
  match es with
  | [] => w
  | e :: es' => run es' (snd (happen e w))
  end.

(** The ways in which the session table and the count of identifiers
    drawn change; the clock and the two request logs are free. *)
Inductive move (w w' : World) : Prop :=
| move_none :
    store w' = store w -> drawn w' = drawn w -> move w w'
| move_use (id : string) (s : SessionRecord.t) (t : Z) :
    JsMap.get (store w) id = Some s ->
    store w' = JsMap.set (store w) id (SessionRecord.use t s) ->
    drawn w' = drawn w -> move w w'
| move_end (id : string) (s : SessionRecord.t) :
    JsMap.get (store w) id = Some s ->
    store w' = JsMap.set (store w) id (SessionRecord.set_expiresAt 0 s) ->
    drawn w' = drawn w -> move w w'
| move_prune (t : Z) :
    store w' = Manager.prune_at t (store w) -> drawn w' = drawn w -> move w w'
| move_draw :
    store w' = store w -> drawn w' = S (drawn w) -> move w w'
| move_create (r : SessionRecord.t) (t : Z) :
    SessionRecord.sessionId r = uuid env (drawn w) ->
    SessionRecord.callCount r = 0 ->
    store w' = Manager.prune_at t (JsMap.set (store w) (SessionRecord.sessionId r) r) ->
    drawn w' = S (drawn w) -> move w w'.

Inductive moves : World -> World -> Prop :=
| moves_refl (w : World) : moves w w
| moves_step (w1 w2 w3 : World) : move w1 w2 -> moves w2 w3 -> moves w1 w3.

(** A computation that changes the table by such moves only. *)
Definition tame {A : Type} (m : M A) : Prop :=
  forall w, moves w (snd (m w)).

End Server.

(** An observation of the world that a computation leaves as it is, and
    the observations that do not look at one component of the world. *)
Definition keeps {A B : Type} (f : World -> A) (m : M B) : Prop :=
  forall w, f (snd (m w)) = f w.

Definition ignores_store {A : Type} (f : World -> A) : Prop :=
  forall s s' c d l p, f (mkWorld s c d l p) = f (mkWorld s' c d l p).
Definition ignores_clock {A : Type} (f : World -> A) : Prop :=
  forall s c c' d l p, f (mkWorld s c d l p) = f (mkWorld s c' d l p).
Definition ignores_drawn {A : Type} (f : World -> A) : Prop :=
  forall s c d d' l p, f (mkWorld s c d l p) = f (mkWorld s c d' l p).
Definition ignores_fetched {A : Type} (f : World -> A) : Prop :=
  forall s c d l l' p, f (mkWorld s c d l p) = f (mkWorld s c d l' p).
Definition ignores_paid {A : Type} (f : World -> A) : Prop :=
  forall s c d l p p', f (mkWorld s c d l p) = f (mkWorld s c d l p').

(** Two records that differ at most in the fields a use or a closing
    writes: the count of calls has not gone down, and the expiry is the
    same or has been set to zero. *)
Definition same_session (s s' : SessionRecord.t) : Prop :=
  SessionRecord.sessionId s' = SessionRecord.sessionId s
  /\ SessionRecord.endpoint s' = SessionRecord.endpoint s
  /\ SessionRecord.scope s' = SessionRecord.scope s
  /\ SessionRecord.walletAddress s' = SessionRecord.walletAddress s
  /\ SessionRecord.createdAt s' = SessionRecord.createdAt s
  /\ SessionRecord.paymentTxHash s' = SessionRecord.paymentTxHash s
  /\ SessionRecord.paymentAmount s' = SessionRecord.paymentAmount s
  /\ SessionRecord.paymentToken s' = SessionRecord.paymentToken s
  /\ SessionRecord.paymentRecipient s' = SessionRecord.paymentRecipient s
  /\ SessionRecord.sessionToken s' = SessionRecord.sessionToken s
  /\ SessionRecord.signature s' = SessionRecord.signature s
  /\ SessionRecord.label s' = SessionRecord.label s
  /\ SessionRecord.callCount s <= SessionRecord.callCount s'
  /\ (SessionRecord.expiresAt s' = SessionRecord.expiresAt s
      \/ SessionRecord.expiresAt s' = 0).

(* ================================================================== *)
(** * tools/payments.ts: [parseTokenAmount] *)
(* ================================================================== *)

(** The functions of the runtime that [parseTokenAmount] calls.  A string
    is its UTF-8 bytes; the strings that pass the test of [Number] are
    ASCII, so that an index in bytes is an index in code units. *)
Module Runtime.

(** [s] is white space throughout. *)
Fixpoint all_space_n (fuel : nat) (s : string) : bool :=
  match s with
  | EmptyString => true
  | _ =>
      match fuel with
      | O => false
      | S fuel' =>
          match Js.space_at s with
          | O => false
          | k => all_space_n fuel' (Str.drop k s)
          end
      end
  end.

Fixpoint trim_end (s : string) : string :=
  match s with
  | EmptyString => EmptyString
  | String c r =>
      if all_space_n (String.length s) s then EmptyString
      else String c (trim_end r)
  end.

(** [s.trim()] *)
Definition trim (s : string) : string :=
  trim_end (Js.trim_start s).

(** An optional sign, and what follows it. *)
Definition sign (s : string) : bool * string :=
  match s with
  | String c r =>
      if Ascii.eqb c "-"%char then (true, r)
      else if Ascii.eqb c "+"%char then (false, r)
      else (false, s)
  | EmptyString => (false, s)
  end.

(** The value of a numeral in the given radix, most significant digit
    first; [None] when a character is no digit of the radix. *)
Fixpoint value_in (radix : Z) (s : string) (acc : Z) : option Z :=
  match s with
  | EmptyString => Some acc
  | String c r =>
      match JSON.hex_val c with
      | Some v =>
          if Z.of_N v <? radix then value_in radix r (radix * acc + Z.of_N v)
          else None
      | None => None
      end
  end.

(** One digit at least. *)
Definition digits_in (radix : Z) (s : string) : option Z :=
  match s with
  | EmptyString => None
  | _ => value_in radix s 0
  end.

(** [0x...], [0o...], [0b...], in either case of the letter. *)
Definition non_decimal (s : string) : option Z :=
  match s with
  | String z (String c r) =>
      if Ascii.eqb z "0"%char then
        if Ascii.eqb c "x"%char || Ascii.eqb c "X"%char then digits_in 16 r
        else if Ascii.eqb c "o"%char || Ascii.eqb c "O"%char then digits_in 8 r
        else if Ascii.eqb c "b"%char || Ascii.eqb c "B"%char then digits_in 2 r
        else None
      else None
  | _ => None
  end.

(** An exponent part: [e] or [E], an optional sign, digits. *)
Definition is_exponent (s : string) : bool :=
  match s with
  | String c r =>
      (Ascii.eqb c "e"%char || Ascii.eqb c "E"%char)
      && match JSON.span_digits (snd (sign r)) with
         | (d, rest) => negb (String.eqb d EmptyString) && String.eqb rest EmptyString
         end
  | EmptyString => false
  end.

(** [Infinity], or digits with an optional fraction and exponent; a
    fraction may stand without digits before the point, or after it. *)
Definition is_unsigned_decimal (s : string) : bool :=
  String.eqb s "Infinity"
  || match JSON.span_digits s with
     | (ip, r) =>
         match r with
         | EmptyString => negb (String.eqb ip EmptyString)
         | String c r1 =>
             if Ascii.eqb c "."%char then
               match JSON.span_digits r1 with
               | (fp, r2) =>
                   negb (String.eqb ip EmptyString && String.eqb fp EmptyString)
                   && (String.eqb r2 EmptyString || is_exponent r2)
               end
             else negb (String.eqb ip EmptyString) && is_exponent r
         end
     end.

(** [isNaN(Number(s))]: the string, trimmed, is not empty and is no
    numeric literal. *)
Definition Number_isNaN (s : string) : bool :=
  let t := trim s in
  if String.eqb t EmptyString then false
  else
    match non_decimal t with
    | Some _ => false
    | None => negb (is_unsigned_decimal (snd (sign t)))
    end.

(** [BigInt(s)]: the empty string is zero; signed decimal digits, or an
    unsigned literal in radix 16, 8 or 2; anything else is a
    [SyntaxError]. *)
Definition BigInt (s : string) : Completion Z :=
  let t := trim s in
  if String.eqb t EmptyString then Normal 0
  else
    match non_decimal t with
    | Some v => Normal v
    | None =>
        match digits_in 10 (snd (sign t)) with
        | Some v => Normal (if fst (sign t) then - v else v)
        | None =>
            Throw (mkExn "SyntaxError" ("Cannot convert " ++ s ++ " to a BigInt"))
        end
    end.

(** [s.split(c)] for a separator of one character. *)
Fixpoint split (c : ascii) (s : string) : list string :=
  match s with
  | EmptyString => [EmptyString]
  | String a r =>
      if Ascii.eqb a c then EmptyString :: split c r
      else
        match split c r with
        | x :: l => String a x :: l
        | [] => [String a EmptyString]
        end
  end.

Fixpoint repeat (c : ascii) (n : nat) : string :=
  match n with
  | O => EmptyString
  | S n' => String c (repeat c n')
  end.

(** [s.padEnd(n, c)] *)
Definition padEnd (s : string) (n : Z) (c : ascii) : string :=
  s ++ repeat c (Z.to_nat (n - Str.length s)).

End Runtime.

Module Payments.
Import Runtime.

(** [parseTokenAmount] *)
Definition parseTokenAmount (amount : string) (decimals : Z) : Completion Z :=
  let trimmed := trim amount in
  if String.eqb trimmed EmptyString || Number_isNaN trimmed then
    Throw (mkExn "Error" ("Invalid amount: " ++ Tool.dq ++ amount ++ Tool.dq))
  else
    let parts := split "."%char trimmed in
    let intPart := nth 0 parts EmptyString in
    let fracPart := nth 1 parts EmptyString in
    let fracTrimmed := padEnd (Str.slice fracPart 0 decimals) decimals "0"%char in
    let intStr := intPart ++ fracTrimmed in
    BigInt intStr.

End Payments.

(** A character that no white space starts with. *)
Definition printable_code (c : ascii) : Prop := (33 <= N_of_ascii c <= 127)%N.

(** A string of ASCII characters.  Each of them is one byte and one
    UTF-16 code unit, so that the lengths and the indices of the model,
    in bytes, are those of the program, in code units. *)
Fixpoint is_ascii (s : string) : bool :=
  match s with
  | EmptyString => true
  | String c r => (N_of_ascii c <? 128)%N && is_ascii r
  end.

(** A string of decimal digits. *)
Fixpoint all_digits (s : string) : bool :=
  match s with
  | EmptyString => true
  | String c r => JSON.is_digit c && all_digits r
  end.

(* ================================================================== *)
(** * Further concrete worlds *)
(* ================================================================== *)

Module Ex2.

(** A runtime that draws no bar and prints a number as JSON does. *)
Definition bar (_ _ : Z) : string := EmptyString.
Definition num : Z -> Z -> string := JSON.number_text.

(** A day of work on the table of [Ex.w2]. *)
Definition day : list Event :=
  [ Invoke (x402_pay (Ex.pay_input "https://api.example.com/v1/users"));
    Direct (Wait 5000);
    Invoke (x402_session_status (X402SessionStatusInput.mk None));
    Invoke (x402_session_start Ex.start_input);
    Invoke (x402_session_fetch
              (X402SessionFetchInput.mk Ex.id2 "https://api.example.com/v1/items"
                 None None None None)) ].

(** A payment client that asks for 100 wei, pays when the quote is
    approved, and then gets the resource. *)
Definition paying (_ : nat) (_ : option Z) (_ : Request) : ClientRun :=
  BeforePayment (mkPaymentRequest 100) "https://api.example.com/v1"
    (fun answer =>
       match answer with
       | Normal true =>
           PaymentComplete (mkPaymentLog 100 "0xtx1" "0xrecip" None)
                           (Settle (resolved Ex.ok200))
       | _ => Settle (rejected (mkExn "Error" "payment declined"))
       end).

Definition env_paid : Env :=
  mkEnv None
        (fun _ => Ex.id1)
        (fun _ _ => resolved Ex.ok200)
        paying
        (Normal (mkConfig "0xwallet" 8453))
        (Normal tt)
        Ex.sig_ok
        (fun _ => None)
        (fun _ => "1970-01-01T00:00:00.000Z").

(** An environment whose servers do not answer in time. *)
Definition env_slow : Env :=
  mkEnv None
        (fun _ => Ex.id1)
        (fun _ _ => mkPromise 30000 (Throw (mkExn "AbortError" "The operation was aborted")))
        (fun _ _ _ => Settle (resolved Ex.ok200))
        (Normal (mkConfig "0xwallet" 8453))
        (Normal tt)
        Ex.sig_ok
        (fun _ => None)
        (fun _ => "1970-01-01T00:00:00.000Z").

(** An environment without the wallet's variables. *)
Definition env_no_wallet : Env :=
  mkEnv None
        (fun _ => Ex.id1)
        (fun _ _ => resolved Ex.ok200)
        (fun _ _ _ => Settle (resolved Ex.ok200))
        (Normal (mkConfig "0xwallet" 8453))
        (Throw (mkExn "Error" "AGENT_PRIVATE_KEY is required"))
        Ex.sig_ok
        (fun _ => None)
        (fun _ => "1970-01-01T00:00:00.000Z").

(** The table after one [createSession] on the empty table. *)
Definition opts1 : CreateSessionOptions.t :=
  Ex.opts "https://api.example.com/v1" Scope.prefix None Ex.sig_ok.

Definition w_created : World := snd (Manager.createSession Ex.env opts1 Ex.w0).

End Ex2.

(* ================================================================== *)
(** * The model on known values *)
(* ================================================================== *)

Module Sanity.

Example base64url_hello : Base64url.encode "hello" = "aGVsbG8".
Proof. reflexivity. Qed.

Example base64url_lenient : Base64url.decode "aGVs.bG8=ignored" = "hello".
Proof. reflexivity. Qed.

Example lastIndexOf_dots : Str.lastIndexOf "a.b.c" "." = 3.
Proof. reflexivity. Qed.

Example lastIndexOf_none : Str.lastIndexOf "abc" "." = -1.
Proof. reflexivity. Qed.

Example slice_negative : Str.slice "0x1234abcd" (-8) 10 = "1234abcd".
Proof. reflexivity. Qed.

Example parseInt_prefix : Js.parseInt " 42px" = Some 42.
Proof. reflexivity. Qed.

Example parseInt_nan : Js.parseInt "soon" = None.
Proof. reflexivity. Qed.

(** A no-break space (U+00A0, the bytes 194 160) and an ideographic space
    (U+3000, the bytes 227 128 128) are skipped like a blank. *)
Example parseInt_no_break_space :
  Js.parseInt (String (ascii_of_nat 194) (String (ascii_of_nat 160) "120"))
  = Some 120.
Proof. reflexivity. Qed.

(** [SESSION_TTL_SECONDS] set to a no-break space and 120: the default
    TTL is 120 seconds. *)
Example parseTtlFromEnv_no_break_space :
  Manager.parseTtlFromEnv
    (mkEnv (Some (String (ascii_of_nat 194) (String (ascii_of_nat 160) "120")))
       (uuid Ex.env) (remote Ex.env) (x402 Ex.env) (getConfig Ex.env)
       (getWallet Ex.env) (wallet_signMessage Ex.env) (eth_cap_to_wei Ex.env)
       (toISOString Ex.env))
  = 120.
Proof. reflexivity. Qed.

Example parseInt_ideographic_space :
  Js.parseInt
    (String (ascii_of_nat 227)
       (String (ascii_of_nat 128) (String (ascii_of_nat 128) "-7 days")))
  = Some (-7).
Proof. reflexivity. Qed.

Example json_number_leading_zero : JSON.parse "[012]" = None.
Proof. reflexivity. Qed.

Example json_nested :
  JSON.parse " { } " = Some (JSON.JObj [])
  /\ JSON.parse "[1, [true, null], -20]"
     = Some (JSON.JArr [JSON.JNum 1 0;
                        JSON.JArr [JSON.JBool true; JSON.JNull];
                        JSON.JNum (-20) 0]).
Proof. split; reflexivity. Qed.

Example json_trailing_garbage : JSON.parse "{}x" = None.
Proof. reflexivity. Qed.

(** The token of the first test of the session manager starts as every
    base64 of a JSON object starting with the key [createdAt] does. *)
Example token_head :
  Str.startsWith
    (Base64url.encode
       (Manager.canonicalise (SessionTokenPayload.to_object Ex.payload)))
    "eyJjcmVhdGVkQXQiOjEwMDAwMDAs" = true.
Proof. reflexivity. Qed.

(** The cases of the tests of [x402_session_fetch]. *)
Example covered_subpath :
  SessionTools.isUrlCoveredBySession "https://api.example.com/v1/data"
    "https://api.example.com/v1" Scope.prefix = true.
Proof. reflexivity. Qed.

Example not_covered_other_host :
  SessionTools.isUrlCoveredBySession "https://api.other.com/data"
    "https://api.example.com/v1" Scope.prefix = false.
Proof. reflexivity. Qed.

Example not_covered_exact_subpath :
  SessionTools.isUrlCoveredBySession "https://api.example.com/v1/different-path"
    "https://api.example.com/v1" Scope.exact = false.
Proof. reflexivity. Qed.

(** A session with no override and no [SESSION_TTL_SECONDS] lives an
    hour. *)
Example default_ttl : Manager.parseTtlFromEnv Ex.env = 3600.
Proof. reflexivity. Qed.

End Sanity.
(* ================================================================== *)
(** * Facts about strings *)
(* ================================================================== *)

Module StrFacts.

Lemma length_app (a b : string) :
  String.length (a ++ b) = (String.length a + String.length b)%nat.
Proof. induction a as [|c a IH]; simpl; [reflexivity | now rewrite IH]. Qed.

Lemma app_assoc (a b c : string) : (a ++ b) ++ c = a ++ b ++ c.
Proof. induction a as [|x a IH]; simpl; [reflexivity | now rewrite IH]. Qed.

Lemma app_nil_r (a : string) : a ++ "" = a.
Proof. induction a as [|x a IH]; simpl; [reflexivity | now rewrite IH]. Qed.

Lemma take_app (a b : string) : Str.take (String.length a) (a ++ b) = a.
Proof. induction a as [|x a IH]; simpl; [now destruct b | now rewrite IH]. Qed.

Lemma drop_app (a b : string) : Str.drop (String.length a) (a ++ b) = b.
Proof. induction a as [|x a IH]; simpl; [reflexivity | exact IH]. Qed.

Lemma take_all (a : string) : Str.take (String.length a) a = a.
Proof. rewrite <- (app_nil_r a) at 2. apply take_app. Qed.

Lemma startsWith_app (p r : string) : Str.startsWith (p ++ r) p = true.
Proof.
  induction p as [|c p IH]; simpl; [reflexivity|].
  now rewrite Ascii.eqb_refl, IH.
Qed.

(** [startsWith] is the prefix relation. *)
Lemma startsWith_iff (s p : string) :
  Str.startsWith s p = true <-> exists r, s = p ++ r.
Proof.
  revert s; induction p as [|c p IH]; intros s; simpl.
  - split; [now exists s | reflexivity].
  - destruct s as [|a s].
    + split; [discriminate | intros [r H]; discriminate].
    + rewrite andb_true_iff, IH. split.
      * intros [Hc [r ->]]. apply Ascii.eqb_eq in Hc. subst. now exists r.
      * intros [r H]. injection H as -> ->. split; [apply Ascii.eqb_refl | now exists r].
Qed.

Lemma mem_app (c : ascii) (a b : string) :
  Str.mem c (a ++ b) = Str.mem c a || Str.mem c b.
Proof.
  induction a as [|x a IH]; simpl; [reflexivity|].
  now rewrite IH, orb_assoc.
Qed.

(** [split_last] cuts at an occurrence of [c] after which there is none. *)
Lemma split_last_some (c : ascii) (s x y : string) :
  Spec.split_last c s = Some (x, y) ->
  s = x ++ String c y /\ Str.mem c y = false.
Proof.
  revert x y; induction s as [|a s IH]; intros x y; simpl; [discriminate|].
  destruct (Spec.split_last c s) as [[x' y']|] eqn:E.
  - intros H; injection H as <- <-.
    destruct (IH x' y' eq_refl) as [-> Hm]. now split.
  - destruct (Ascii.eqb a c) eqn:Ea; [|discriminate].
    intros H; injection H as <- <-. apply Ascii.eqb_eq in Ea; subst a.
    split; [reflexivity|].
    clear IH. induction s as [|b s IHs]; simpl in *; [reflexivity|].
    destruct (Spec.split_last c s) as [[? ?]|]; [discriminate|].
    destruct (Ascii.eqb b c); [discriminate|]. simpl. now apply IHs.
Qed.

Lemma split_last_none (c : ascii) (s : string) :
  Spec.split_last c s = None <-> Str.mem c s = false.
Proof.
  induction s as [|a s IH]; simpl; [tauto|].
  destruct (Spec.split_last c s) as [[x y]|].
  - split; [discriminate|]. intros H. apply orb_false_iff in H.
    destruct IH as [_ IH]. now specialize (IH (proj2 H)).
  - destruct (Ascii.eqb a c); simpl; [split; discriminate | tauto].
Qed.

(** Where the last occurrence is, [split_last] cuts. *)
Lemma split_last_app (c : ascii) (x y : string) :
  Str.mem c y = false -> Spec.split_last c (x ++ String c y) = Some (x, y).
Proof.
  intros Hy. induction x as [|a x IH]; simpl.
  - apply split_last_none in Hy. now rewrite Hy, Ascii.eqb_refl.
  - now rewrite IH.
Qed.

Lemma lastIndexOf_from_split (c : ascii) (s : string) (i acc : Z) :
  Str.lastIndexOf_from c s i acc =
  match Spec.split_last c s with
  | Some (x, _) => i + Str.length x
  | None => acc
  end.
Proof.
  revert i acc; induction s as [|a s IH]; intros i acc; simpl; [reflexivity|].
  rewrite IH. destruct (Spec.split_last c s) as [[x y]|].
  - unfold Str.length; simpl String.length. lia.
  - destruct (Ascii.eqb a c); [unfold Str.length; simpl; lia | reflexivity].
Qed.

Lemma lastIndexOf_split (c : ascii) (s : string) :
  Str.lastIndexOf s c =
  match Spec.split_last c s with
  | Some (x, _) => Str.length x
  | None => -1
  end.
Proof.
  unfold Str.lastIndexOf. rewrite lastIndexOf_from_split.
  now destruct (Spec.split_last c s) as [[x y]|].
Qed.

Lemma slice_before (x y : string) (c : ascii) :
  Str.slice (x ++ String c y) 0 (Str.length x) = x.
Proof.
  unfold Str.slice, Str.rel_index, Str.length. rewrite length_app. simpl String.length.
  replace (0 <? 0) with false by reflexivity.
  destruct (Z.ltb_spec (Z.of_nat (String.length x)) 0) as [H|_]; [lia|].
  rewrite Z.min_l by lia. rewrite Z.min_l by lia.
  simpl Z.to_nat. simpl Str.drop.
  rewrite Z.sub_0_r, Nat2Z.id. apply take_app.
Qed.

Lemma slice_after (x y : string) (c : ascii) :
  Str.slice_from (x ++ String c y) (Str.length x + 1) = y.
Proof.
  unfold Str.slice_from, Str.slice, Str.rel_index, Str.length.
  rewrite length_app. simpl String.length.
  destruct (Z.ltb_spec (Z.of_nat (String.length x) + 1) 0) as [H|_]; [lia|].
  destruct (Z.ltb_spec (Z.of_nat (String.length x + S (String.length y))) 0) as [H|_]; [lia|].
  rewrite !Z.min_l by lia.
  replace (Z.to_nat (Z.of_nat (String.length x) + 1)) with (String.length (x ++ String c "")).
  2:{ rewrite length_app. simpl. lia. }
  replace (x ++ String c y) with ((x ++ String c "") ++ y).
  2:{ now rewrite app_assoc. }
  rewrite drop_app.
  replace (Z.to_nat _) with (String.length y) by lia.
  apply take_all.
Qed.

End StrFacts.

(* ================================================================== *)
(** * Decoding a token *)
(* ================================================================== *)

Lemma decodeSessionToken_Decode (t : string) :
  Manager.decodeSessionToken t = Normal (Spec.Decode t).
Proof.
  unfold Manager.decodeSessionToken, Spec.Decode.
  rewrite StrFacts.lastIndexOf_split.
  destruct (Spec.split_last "." t) as [[x y]|] eqn:E.
  - apply StrFacts.split_last_some in E. destruct E as [-> _].
    destruct (Z.eqb_spec (Str.length x) (-1)) as [H|_].
    { unfold Str.length in H. lia. }
    rewrite StrFacts.slice_before, StrFacts.slice_after.
    unfold Manager.JSON_parse, try_catch.
    now destruct (JSON.parse (Base64url.decode x)).
  - reflexivity.
Qed.

(* ================================================================== *)
(** * base64url *)
(* ================================================================== *)

Module Base64urlFacts.
Import Base64url.

Local Open Scope N_scope.

(** A property checked on every six-bit value holds of every six-bit
    value. *)
Lemma below_64 (P : N -> bool) :
  forallb P (map N.of_nat (seq 0 64)) = true ->
  forall v, v < 64 -> P v = true.
Proof.
  intros H v Hv. rewrite forallb_forall in H. apply H.
  rewrite <- (N2Nat.id v). apply in_map. apply in_seq. lia.
Qed.

Lemma unbase64_digit (v : N) : v < 64 -> unbase64 (digit v) = Some v.
Proof.
  intros Hv.
  pose proof (below_64 (fun v => match unbase64 (digit v) with
                                 | Some w => w =? v
                                 | None => false
                                 end) eq_refl Hv) as H.
  simpl in H. destruct (unbase64 (digit v)); [|discriminate].
  now apply N.eqb_eq in H; subst.
Qed.

Lemma digit_not_pad (v : N) : v < 64 -> Ascii.eqb (digit v) "=" = false.
Proof.
  intros Hv. apply negb_true_iff.
  exact (below_64 (fun v => negb (Ascii.eqb (digit v) "=")) eq_refl Hv).
Qed.

Lemma digit_not_dot (v : N) : v < 64 -> Ascii.eqb (digit v) "." = false.
Proof.
  intros Hv. apply negb_true_iff.
  exact (below_64 (fun v => negb (Ascii.eqb (digit v) ".")) eq_refl Hv).
Qed.

Lemma sextets_digit (v : N) (r : string) :
  v < 64 -> sextets (String (digit v) r) = v :: sextets r.
Proof.
  intros Hv. simpl. now rewrite digit_not_pad, unbase64_digit.
Qed.

Lemma byte_of_ascii (a : ascii) (n : N) : n = N_of_ascii a -> byte n = a.
Proof.
  intros ->. unfold byte. rewrite N.mod_small by apply N_ascii_bounded.
  apply ascii_N_embedding.
Qed.

(** Induction over a string three characters at a time. *)
Lemma string_ind3 (P : string -> Prop) :
  P "" ->
  (forall a, P (String a "")) ->
  (forall a b, P (String a (String b ""))) ->
  (forall a b c r, P r -> P (String a (String b (String c r)))) ->
  forall s, P s.
Proof.
  intros H0 H1 H2 H3.
  assert (forall s, P s /\ (forall a, P (String a s)) /\ (forall a b, P (String a (String b s)))) as H.
  { induction s as [|c s [IH0 [IH1 IH2]]].
    - repeat split; auto.
    - repeat split; auto. }
  intros s. apply H.
Qed.

Ltac bytes_facts :=
  repeat match goal with
         | a : ascii |- _ =>
             lazymatch goal with
             | _ : N_of_ascii a < 256 |- _ => fail
             | _ => pose proof (N_ascii_bounded a)
             end
         end.

Ltac arith :=
  bytes_facts;
  repeat match goal with
         | |- context [N_of_ascii ?a] => generalize dependent (N_of_ascii a); intros
         end;
  zify; Z.to_euclidean_division_equations; lia.

(** Decoding undoes encoding. *)
Lemma decode_encode (s : string) : decode (encode s) = s.
Proof.
  unfold decode. induction s as [| a | a b | a b c r IH] using string_ind3.
  - reflexivity.
  - cbn [encode]. cbv zeta.
    rewrite !sextets_digit by arith. cbn [sextets decode_sextets].
    f_equal. apply byte_of_ascii. arith.
  - cbn [encode]. cbv zeta.
    rewrite !sextets_digit by arith. cbn [sextets decode_sextets].
    f_equal; [|f_equal]; apply byte_of_ascii; arith.
  - cbn [encode]. cbv zeta.
    rewrite !sextets_digit by arith. cbn [decode_sextets].
    rewrite IH. f_equal; [|f_equal; [|f_equal]]; apply byte_of_ascii; arith.
Qed.

(** The encoding uses no dot. *)
Lemma encode_no_dot (s : string) : Str.mem "." (encode s) = false.
Proof.
  induction s as [| a | a b | a b c r IH] using string_ind3;
    cbn [encode]; cbv zeta; cbn [Str.mem];
    rewrite ?digit_not_dot by arith; try rewrite IH; reflexivity.
Qed.

End Base64urlFacts.

(* ================================================================== *)
(** * JSON: what is written is read back *)
(* ================================================================== *)

Module JSONFacts.
Import JSON.

(** ** Strings *)

(** One character, written by [stringify] and read back. *)
Lemma parse_items_escape_char (c : ascii) (rest : string) l r :
  parse_items rest = Some (l, r) ->
  exists it,
    parse_items (escape_char c ++ rest) = Some (it :: l, r)
    /\ string_of_items (it :: l) = String c (string_of_items l).
Proof.
  intros H.
  destruct c as [[] [] [] [] [] [] [] []];
    cbn -[parse_items string_of_items];
    cbn [parse_items]; cbv zeta; cbn -[parse_items string_of_items];
    rewrite H;
    eexists; (split; [reflexivity|]);
    cbn [string_of_items]; try reflexivity;
    destruct l as [|[] ?]; reflexivity.
Qed.

Lemma parse_items_escape (s rest : string) :
  exists l,
    parse_items (escape s ++ String dquote rest) = Some (l, rest)
    /\ string_of_items l = s.
Proof.
  induction s as [|c s [l [Hl Hs]]].
  - exists []. split; reflexivity.
  - simpl escape. rewrite StrFacts.app_assoc.
    destruct (parse_items_escape_char c _ Hl) as [it [H1 H2]].
    exists (it :: l). split; [exact H1|]. now rewrite H2, Hs.
Qed.

Lemma parse_string_escape (s rest : string) :
  parse_string (escape s ++ String dquote rest) = Some (s, rest).
Proof.
  unfold parse_string. destruct (parse_items_escape s rest) as [l [-> ->]].
  reflexivity.
Qed.

(** ** Numbers *)

Lemma span_digits_uint (d : uint) (t : ascii) (rest : string) :
  is_digit t = false ->
  span_digits (NilEmpty.string_of_uint d ++ String t rest)
  = (NilEmpty.string_of_uint d, String t rest).
Proof.
  intros Ht. induction d; simpl; try rewrite IHd; try reflexivity.
  now rewrite Ht.
Qed.

Lemma uint_of_digits_string (d : uint) :
  uint_of_digits (NilEmpty.string_of_uint d) = d.
Proof. induction d; simpl; try rewrite IHd; reflexivity. Qed.

Lemma nzhead_not_D0 (d u : uint) : nzhead d <> D0 u.
Proof. induction d; simpl; try discriminate; exact IHd. Qed.

(** The decimal writing of a positive number has no leading zero. *)
Lemma to_uint_head (p : positive) :
  exists c r,
    NilEmpty.string_of_uint (Pos.to_uint p) = String c r
    /\ is_digit c = true /\ Ascii.eqb c "0" = false.
Proof.
  pose proof (DecimalPos.Unsigned.to_of (Pos.to_uint p)) as H.
  rewrite DecimalPos.Unsigned.of_to in H. simpl in H.
  pose proof (DecimalPos.Unsigned.to_uint_nonnil p) as Hn.
  destruct (Pos.to_uint p) eqn:E; try congruence;
    try (eexists; eexists; split; [reflexivity | split; reflexivity]).
  exfalso. unfold unorm in H.
  destruct (nzhead (D0 u)) eqn:E2; try discriminate.
  - injection H as H. subst u. apply (DecimalPos.Unsigned.to_uint_nonzero p). exact E.
  - now apply nzhead_not_D0 in E2.
Qed.

(** The text of an integer: digits without a leading zero, after an
    optional sign. *)
Lemma of_Z_cases (z : Z) :
  (z = 0 /\ Str.of_Z z = "0")
  \/ (exists p, z = Z.pos p /\ Str.of_Z z = NilEmpty.string_of_uint (Pos.to_uint p))
  \/ (exists p, z = Z.neg p
               /\ Str.of_Z z = String "-" (NilEmpty.string_of_uint (Pos.to_uint p))).
Proof.
  unfold Str.of_Z. destruct z as [|p|p]; simpl.
  - now left.
  - right; left. exists p. split; [reflexivity|].
    pose proof (DecimalPos.Unsigned.to_uint_nonnil p).
    unfold NilZero.string_of_uint. now destruct (Pos.to_uint p).
  - right; right. exists p. split; [reflexivity|].
    pose proof (DecimalPos.Unsigned.to_uint_nonnil p).
    unfold NilZero.string_of_uint. now destruct (Pos.to_uint p).
Qed.

Lemma of_uint_to_uint (p : positive) : Z.of_uint (Pos.to_uint p) = Z.pos p.
Proof. unfold Z.of_uint. now rewrite DecimalPos.Unsigned.of_to. Qed.

Lemma parse_tail (t : ascii) (rest : string) :
  ends_number t ->
  parse_fraction (String t rest) = Some ("", String t rest)
  /\ parse_exponent (String t rest) = Some (0, String t rest).
Proof.
  intros (_ & H1 & H2 & H3). unfold parse_fraction, parse_exponent.
  now rewrite H1, H2, H3.
Qed.

(** The digits of a positive number, read as a number literal. *)
Lemma parse_digits (p : positive) (t : ascii) (rest : string) (neg : bool) :
  ends_number t ->
  match span_digits (NilEmpty.string_of_uint (Pos.to_uint p) ++ String t rest) with
  | (EmptyString, _) => None
  | (String c0 ds as ip, s2) =>
      if Ascii.eqb c0 "0"%char && negb (String.eqb ds EmptyString) then None
      else
        match parse_fraction s2 with
        | None => None
        | Some (fp, s3) =>
            match parse_exponent s3 with
            | None => None
            | Some (ex, s4) =>
                let m := digits_value (ip ++ fp) in
                Some (JNum (if neg then - m else m)
                           (ex - Z.of_nat (String.length fp)), s4)
            end
        end
  end = Some (JNum (if neg then Z.neg p else Z.pos p) 0, String t rest).
Proof.
  intros Ht. rewrite span_digits_uint by apply Ht.
  destruct (to_uint_head p) as (c & r & E & _ & H0).
  pose proof (uint_of_digits_string (Pos.to_uint p)) as Hu.
  rewrite E in *. rewrite H0. cbn [andb].
  destruct (parse_tail rest Ht) as [-> ->].
  cbv zeta. rewrite StrFacts.app_nil_r.
  unfold digits_value. rewrite Hu, of_uint_to_uint.
  now destruct neg.
Qed.

Lemma parse_number_of_Z (z : Z) (t : ascii) (rest : string) :
  ends_number t ->
  parse_number (Str.of_Z z ++ String t rest) = Some (JNum z 0, String t rest).
Proof.
  intros Ht.
  destruct (of_Z_cases z) as [[-> ->] | [(p & -> & ->) | (p & -> & ->)]].
  - destruct Ht as (H0 & H1 & H2 & H3).
    unfold parse_number. cbn -[parse_fraction parse_exponent].
    rewrite H0. unfold parse_fraction, parse_exponent. now rewrite H1, H2, H3.
  - unfold parse_number.
    destruct (to_uint_head p) as (c & r & E & Hd & H0).
    rewrite E. cbn [append].
    assert (Ascii.eqb c "-" = false) as ->.
    { revert Hd. destruct c as [[] [] [] [] [] [] [] []]; vm_compute; congruence. }
    change (String c (r ++ String t rest)) with (String c r ++ String t rest).
    rewrite <- E. exact (parse_digits p rest false Ht).
  - unfold parse_number. cbn [append]. rewrite Ascii.eqb_refl.
    exact (parse_digits p rest true Ht).
Qed.

(** The first character of the text of an integer. *)
Lemma of_Z_head (z : Z) :
  exists c r, Str.of_Z z = String c r /\ (is_digit c = true \/ c = "-"%char).
Proof.
  destruct (of_Z_cases z) as [[_ ->] | [(p & _ & ->) | (p & _ & ->)]].
  - exists "0"%char, "". now split; [|left].
  - destruct (to_uint_head p) as (c & r & E & Hd & _).
    exists c, r. now split; [|left].
  - eexists; eexists. split; [reflexivity | now right].
Qed.

(** ** Values and objects *)

Lemma stringify_object (o : list (string * value)) :
  stringify (JObj o) = "{" ++ Str.join "," (map member o) ++ "}".
Proof. reflexivity. Qed.

(** The first character of a number is no white space and starts no
    other kind of value. *)
Lemma number_dispatch (c : ascii) :
  is_digit c = true \/ c = "-"%char ->
  is_ws c = false
  /\ Ascii.eqb c dquote = false
  /\ Ascii.eqb c "[" = false
  /\ Ascii.eqb c "{" = false
  /\ Ascii.eqb c "n" = false
  /\ Ascii.eqb c "t" = false
  /\ Ascii.eqb c "f" = false.
Proof.
  destruct c as [[] [] [] [] [] [] [] []]; vm_compute;
    intros [H|H]; try discriminate; repeat split.
Qed.

(** A string or an integer followed by [,] or [}] is read back. *)
Lemma parse_value_flat (v : value) (fuel : nat) (t : ascii) (rest : string) :
  flat v -> t = ","%char \/ t = "}"%char -> (0 < fuel)%nat ->
  parse_value fuel (stringify v ++ String t rest) = Some (v, String t rest).
Proof.
  intros Hv Ht Hfuel. destruct fuel as [|fuel]; [lia|]. clear Hfuel.
  assert (ends_number t) as He by (destruct Ht as [-> | ->]; repeat split).
  destruct v as [| | m e | s | |]; try contradiction.
  - simpl in Hv. subst e. cbn [stringify]. unfold number_text. cbn [Z.eqb].
    destruct (of_Z_head m) as (c & r & E & Hc).
    destruct (number_dispatch Hc) as (H1 & H2 & H3 & H4 & H5 & H6 & H7).
    pose proof (parse_number_of_Z m rest He) as Hn.
    rewrite E in *. cbn [append] in *.
    cbn [parse_value skip_ws]. rewrite H1. cbv zeta.
    rewrite H2, H3, H4. cbn [Str.startsWith]. rewrite H5, H6, H7. cbn [andb].
    exact Hn.
  - cbn [stringify]. unfold quote. cbn [append]. rewrite StrFacts.app_assoc.
    cbn [append parse_value skip_ws].
    replace (is_ws dquote) with false by reflexivity. cbv zeta.
    rewrite Ascii.eqb_refl. now rewrite parse_string_escape.
Qed.

(** The properties of an object of strings and integers are read back
    one by one. *)
Lemma parse_members_flat (o : list (string * value)) :
  o <> [] -> Forall (fun kv => flat (snd kv)) o ->
  forall fuel acc rest,
    (List.length o < fuel)%nat ->
    parse_members fuel (Str.join "," (map member o) ++ String "}" rest) acc
    = Some (JObj (fold_left put o acc), rest).
Proof.
  induction o as [|[k v] o IH]; [congruence|].
  intros _ Hf fuel acc rest Hfuel.
  inversion Hf as [|? ? Hv Hf']; subst. simpl in Hv.
  destruct fuel as [|fuel]; [simpl in Hfuel; lia|].
  destruct o as [|kv' o].
  - cbn [map Str.join member]. unfold quote.
    cbn [append]. rewrite !StrFacts.app_assoc. cbn [append].
    cbn [parse_members skip_ws].
    replace (is_ws dquote) with false by reflexivity.
    rewrite Ascii.eqb_refl, parse_string_escape.
    cbn [skip_ws]. replace (is_ws ":") with false by reflexivity.
    rewrite Ascii.eqb_refl.
    rewrite (parse_value_flat v rest Hv (or_intror eq_refl)) by (simpl in Hfuel; lia).
    cbn [skip_ws]. replace (is_ws "}") with false by reflexivity.
    replace (Ascii.eqb "}" ",") with false by reflexivity.
    rewrite Ascii.eqb_refl. reflexivity.
  - change (Str.join "," (map member ((k, v) :: kv' :: o)))
      with (member (k, v) ++ "," ++ Str.join "," (map member (kv' :: o))).
    cbn [member]. unfold quote.
    cbn [append]. rewrite !StrFacts.app_assoc. cbn [append].
    rewrite ?StrFacts.app_assoc. cbn [append].
    cbn [parse_members skip_ws].
    replace (is_ws dquote) with false by reflexivity.
    rewrite Ascii.eqb_refl, parse_string_escape.
    cbn [skip_ws]. replace (is_ws ":") with false by reflexivity.
    rewrite Ascii.eqb_refl.
    rewrite (parse_value_flat v _ Hv (or_introl eq_refl)) by (simpl in Hfuel; lia).
    cbn [skip_ws]. replace (is_ws ",") with false by reflexivity.
    rewrite Ascii.eqb_refl.
    rewrite IH; [reflexivity | discriminate | exact Hf' | simpl in *; lia].
Qed.

Lemma member_length (kv : string * value) : (1 <= String.length (member kv))%nat.
Proof. destruct kv as [k v]. simpl. lia. Qed.

Lemma members_length (o : list (string * value)) :
  (List.length o <= String.length (Str.join "," (map member o)))%nat.
Proof.
  induction o as [|kv o IH]; [simpl; lia|].
  pose proof (member_length kv).
  destruct o as [|kv' o].
  - simpl in *. lia.
  - change (Str.join "," (map member (kv :: kv' :: o)))
      with (member kv ++ "," ++ Str.join "," (map member (kv' :: o))).
    rewrite !StrFacts.length_app. simpl in *. lia.
Qed.

(** An object of strings and integers, written and read back: the
    properties are set one after the other. *)
Lemma parse_stringify_flat (o : list (string * value)) :
  o <> [] -> Forall (fun kv => flat (snd kv)) o ->
  parse (stringify (JObj o)) = Some (JObj (fold_left put o [])).
Proof.
  intros Hne Hf. rewrite stringify_object. unfold parse.
  pose proof (members_length o) as Hl.
  remember (Str.join "," (map member o)) as body eqn:Eb.
  assert (exists r, body = String dquote r) as [r Er].
  { subst body. destruct o as [|[k v] o]; [congruence|].
    destruct o; cbn [map Str.join member]; unfold quote; cbn [append]; eauto. }
  cbn [append String.length].
  rewrite StrFacts.length_app. cbn [String.length].
  replace (2 * S (String.length body + 1) + 2)%nat
    with (S (2 * String.length body + 5))%nat by lia.
  remember (2 * String.length body + 5)%nat as f eqn:Ef.
  cbn [parse_value skip_ws].
  replace (is_ws "{") with false by reflexivity. cbv zeta.
  replace (Ascii.eqb "{" dquote) with false by reflexivity.
  replace (Ascii.eqb "{" "[") with false by reflexivity.
  rewrite Ascii.eqb_refl.
  assert (skip_ws (body ++ "}") = String dquote (r ++ "}")) as ->.
  { rewrite Er. reflexivity. }
  replace (Ascii.eqb dquote "}") with false by reflexivity.
  change (body ++ "}") with (body ++ String "}" "").
  subst body. rewrite parse_members_flat by (auto; lia).
  reflexivity.
Qed.

End JSONFacts.

(* ================================================================== *)
(** * The token codec *)
(* ================================================================== *)

Module CodecFacts.

(** [canonicalise] puts the payload in the key order of section 6. *)
Lemma canonicalise_payload (p : SessionTokenPayload.t) :
  Manager.canonicalise (SessionTokenPayload.to_object p)
  = JSON.stringify (JSON.JObj (Spec.canonical_fields p)).
Proof. reflexivity. Qed.

Lemma canonical_fields_flat (p : SessionTokenPayload.t) :
  Forall (fun kv => JSON.flat (snd kv)) (Spec.canonical_fields p).
Proof. repeat constructor. Qed.

Lemma parse_canonical (p : SessionTokenPayload.t) :
  JSON.parse (Manager.canonicalise (SessionTokenPayload.to_object p))
  = Some (JSON.JObj (Spec.canonical_fields p)).
Proof.
  rewrite canonicalise_payload.
  rewrite JSONFacts.parse_stringify_flat;
    [reflexivity | discriminate | apply canonical_fields_flat].
Qed.

Lemma of_value_canonical (p : SessionTokenPayload.t) :
  SessionTokenPayload.of_value (JSON.JObj (Spec.canonical_fields p)) = Some p.
Proof. destruct p as [ve id wa en [] cr ex tx am]; reflexivity. Qed.

(** The token of [createSession] is the Encode of the specification. *)
Lemma token_is_Encode (p : SessionTokenPayload.t) (signature : string) :
  Base64url.encode (Manager.canonicalise (SessionTokenPayload.to_object p))
    ++ "." ++ signature
  = Spec.Encode p signature.
Proof. unfold Spec.Encode. now rewrite canonicalise_payload. Qed.

(** Decoding a token whose signature has no dot. *)
Lemma decode_token (p : SessionTokenPayload.t) (signature : string) :
  Str.mem "." signature = false ->
  Manager.decodeSessionToken
    (Base64url.encode (Manager.canonicalise (SessionTokenPayload.to_object p))
       ++ "." ++ signature)
  = Normal (Some (Manager.mkDecoded (JSON.JObj (Spec.canonical_fields p)) signature)).
Proof.
  intros Hs. rewrite decodeSessionToken_Decode. unfold Spec.Decode.
  change ("." ++ signature) with (String "." signature).
  rewrite StrFacts.split_last_app by exact Hs.
  now rewrite Base64urlFacts.decode_encode, parse_canonical.
Qed.

End CodecFacts.

(* ================================================================== *)
(** * What [createSession] does *)
(* ================================================================== *)

Module ManagerFacts.

(** The two outcomes of [createSession]. *)
Lemma createSession_cases (env : Env) (opts : CreateSessionOptions.t) (w : World) :
  let sessionId := uuid env (drawn w) in
  let now := clock w / 1000 in
  let expiresAt := now + Manager.ttl_of env opts in
  let payload := Manager.payload_of opts sessionId now expiresAt in
  let canonicalPayload := Manager.canonicalise (SessionTokenPayload.to_object payload) in
  let p := CreateSessionOptions.signMessage opts canonicalPayload in
  let later := clock w + elapsed p in
  match settled p with
  | Throw e =>
      Manager.createSession env opts w
      = (Throw e, mkWorld (store w) later (S (drawn w)) (fetched w) (paid w))
  | Normal signature =>
      let record :=
        SessionRecord.mk sessionId (CreateSessionOptions.endpoint opts)
          (Manager.scope_of opts) (CreateSessionOptions.walletAddress opts)
          now expiresAt (CreateSessionOptions.paymentTxHash opts)
          (Str.of_Z (CreateSessionOptions.paymentAmount opts))
          (CreateSessionOptions.paymentToken opts)
          (CreateSessionOptions.paymentRecipient opts)
          (Base64url.encode canonicalPayload ++ "." ++ signature)
          signature (CreateSessionOptions.label opts) 0 now in
      Manager.createSession env opts w
      = (Normal record,
         mkWorld (Manager.prune_at (later / 1000)
                    (JsMap.set (store w) sessionId record))
                 later (S (drawn w)) (fetched w) (paid w))
  end.
Proof.
  cbv zeta. unfold Manager.createSession, bind, Manager.randomUUID, now_seconds, await.
  cbn [clock store drawn fetched paid].
  destruct (settled (CreateSessionOptions.signMessage opts _)); reflexivity.
Qed.

(** The token of a created record, in terms of the record's own fields. *)
Lemma createSession_token (env : Env) (opts : CreateSessionOptions.t)
  (w w' : World) (r : SessionRecord.t) :
  Manager.createSession env opts w = (Normal r, w') ->
  SessionRecord.sessionToken r
  = Base64url.encode
      (Manager.canonicalise
         (SessionTokenPayload.to_object
            (Manager.payload_of opts (SessionRecord.sessionId r)
               (SessionRecord.createdAt r) (SessionRecord.expiresAt r))))
      ++ "." ++ SessionRecord.signature r.
Proof.
  intros H. pose proof (createSession_cases env opts w) as Hc.
  cbv zeta in Hc. destruct (settled _) in Hc; rewrite Hc in H; [|discriminate].
  injection H as <- _. reflexivity.
Qed.

End ManagerFacts.

(* ================================================================== *)
(** * Insertion-ordered maps *)
(* ================================================================== *)

Module JsMapFacts.

Section WithValue.
Variable V : Type.
Implicit Types (m : JsMap.t V) (k : string) (v : V).

Lemma get_set_same m k v : JsMap.get (JsMap.set m k v) k = Some v.
Proof.
  induction m as [|[k' v'] m IH]; simpl.
  - now rewrite String.eqb_refl.
  - destruct (String.eqb k' k) eqn:E; simpl; now rewrite E.
Qed.

Lemma get_set_other m k k' v :
  k <> k' -> JsMap.get (JsMap.set m k v) k' = JsMap.get m k'.
Proof.
  intros Hk. induction m as [|[k0 v0] m IH]; simpl.
  - destruct (String.eqb_spec k k'); [contradiction | reflexivity].
  - destruct (String.eqb_spec k0 k) as [->|Hn]; simpl.
    + now destruct (String.eqb_spec k k').
    + now rewrite IH.
Qed.

Lemma get_in m k v : JsMap.get m k = Some v -> In (k, v) m.
Proof.
  induction m as [|[k' v'] m IH]; simpl; [discriminate|].
  destruct (String.eqb_spec k' k) as [->|Hn].
  - intros H; injection H as ->. now left.
  - intros H. right. now apply IH.
Qed.

Lemma in_get m k v : NoDup (JsMap.keys m) -> In (k, v) m -> JsMap.get m k = Some v.
Proof.
  induction m as [|[k' v'] m IH]; simpl; [contradiction|].
  intros Hnd [H|H].
  - injection H as -> ->. now rewrite String.eqb_refl.
  - inversion Hnd as [|? ? Hni Hnd']; subst.
    destruct (String.eqb_spec k' k) as [->|Hn].
    + exfalso. apply Hni. change k with (fst (k, v)). now apply in_map.
    + now apply IH.
Qed.

Lemma keys_set m k v :
  JsMap.keys (JsMap.set m k v) = JsMap.keys m
  \/ (~ In k (JsMap.keys m) /\ JsMap.keys (JsMap.set m k v) = (JsMap.keys m ++ [k])%list).
Proof.
  induction m as [|[k' v'] m IH]; simpl.
  - right. now split.
  - destruct (String.eqb_spec k' k) as [->|Hn]; simpl.
    + now left.
    + destruct IH as [IH|[Hni IH]].
      * left. now rewrite IH.
      * right. split; [intros [H|H]; congruence | now rewrite IH].
Qed.

Lemma set_nodup m k v : NoDup (JsMap.keys m) -> NoDup (JsMap.keys (JsMap.set m k v)).
Proof.
  intros Hnd. destruct (keys_set m k v) as [->|[Hni ->]]; [exact Hnd|].
  apply NoDup_app; [exact Hnd | repeat constructor; intros [] | ].
  intros x Hx [<-|[]]. contradiction.
Qed.

Lemma in_set m k v k' v' :
  In (k', v') (JsMap.set m k v) -> (k' = k /\ v' = v) \/ In (k', v') m.
Proof.
  induction m as [|[k0 v0] m IH]; simpl.
  - intros [H|[]]. injection H as <- <-. now left.
  - destruct (String.eqb_spec k0 k) as [->|Hn]; simpl.
    + intros [H|H]; [injection H as <- <-; now left | right; now right].
    + intros [H|H]; [right; now left|].
      destruct (IH H) as [?|?]; [now left | right; now right].
Qed.

Lemma in_delete m k k' v' : In (k', v') (JsMap.delete m k) -> In (k', v') m.
Proof.
  induction m as [|[k0 v0] m IH]; simpl; [tauto|].
  destruct (String.eqb k0 k); simpl; [now right|].
  intros [H|H]; [now left | right; now apply IH].
Qed.

Lemma delete_nodup m k : NoDup (JsMap.keys m) -> NoDup (JsMap.keys (JsMap.delete m k)).
Proof.
  induction m as [|[k0 v0] m IH]; simpl; [auto|].
  intros Hnd. inversion Hnd as [|? ? Hni Hnd']; subst.
  destruct (String.eqb k0 k); simpl; [exact Hnd'|].
  constructor; [|now apply IH].
  intros Hin. apply Hni. apply in_map_iff in Hin. destruct Hin as [[k1 v1] [E Hin]].
  simpl in E; subst k1. apply in_delete in Hin.
  change k0 with (fst (k0, v1)). now apply in_map.
Qed.

Lemma get_delete_other m k k' :
  k <> k' -> JsMap.get (JsMap.delete m k) k' = JsMap.get m k'.
Proof.
  intros Hk. induction m as [|[k0 v0] m IH]; simpl; [reflexivity|].
  destruct (String.eqb_spec k0 k) as [->|Hn]; simpl.
  - now destruct (String.eqb_spec k k').
  - now rewrite IH.
Qed.

Lemma get_none_not_in m k : ~ In k (JsMap.keys m) -> JsMap.get m k = None.
Proof.
  induction m as [|[k0 v0] m IH]; simpl; [reflexivity|].
  intros H. destruct (String.eqb_spec k0 k) as [->|Hn]; [tauto|].
  apply IH. tauto.
Qed.

Lemma get_delete_same m k : NoDup (JsMap.keys m) -> JsMap.get (JsMap.delete m k) k = None.
Proof.
  induction m as [|[k0 v0] m IH]; simpl; [reflexivity|].
  intros Hnd. inversion Hnd as [|? ? Hni Hnd']; subst.
  destruct (String.eqb_spec k0 k) as [->|Hn]; simpl.
  - now apply get_none_not_in.
  - destruct (String.eqb_spec k0 k); [contradiction | now apply IH].
Qed.

End WithValue.

End JsMapFacts.

(* ================================================================== *)
(** * The table under sequences of calls *)
(* ================================================================== *)

Module StoreFacts.
Import JsMapFacts.

Lemma store_ok_set m k s :
  store_ok m -> SessionRecord.sessionId s = k -> store_ok (JsMap.set m k s).
Proof.
  intros [Hnd Hk] Hs. split; [now apply set_nodup|].
  intros k' s' Hin. apply in_set in Hin. destruct Hin as [[-> ->]|Hin]; auto.
Qed.

Lemma store_ok_delete m k : store_ok m -> store_ok (JsMap.delete m k).
Proof.
  intros [Hnd Hk]. split; [now apply delete_nodup|].
  intros k' s' Hin. apply in_delete in Hin. auto.
Qed.

Lemma ended_set_other id m k s : k <> id -> ended id m -> ended id (JsMap.set m k s).
Proof. intros Hk. unfold ended. now rewrite get_set_other. Qed.

Lemma ended_delete id m k : store_ok m -> ended id m -> ended id (JsMap.delete m k).
Proof.
  intros [Hnd _]. unfold ended. destruct (String.eqb_spec k id) as [->|Hn].
  - now rewrite get_delete_same.
  - now rewrite get_delete_other.
Qed.

Lemma prune_fold_inv id now (entries m : JsMap.t SessionRecord.t) :
  store_ok m -> ended id m ->
  let m' :=
    fold_left
      (fun acc entry =>
         let '(k, session) := entry in
         if SessionRecord.expiresAt session <=? now
         then JsMap.delete acc k
         else acc)
      entries m in
  store_ok m' /\ ended id m'.
Proof.
  revert m. induction entries as [|[k s] entries IH]; intros m Hok He.
  - now split.
  - simpl. destruct (SessionRecord.expiresAt s <=? now).
    + apply IH; [now apply store_ok_delete | now apply ended_delete].
    + now apply IH.
Qed.

(** A pass of [pruneExpired] keeps the table in order and revives no
    ended session. *)
Lemma prune_at_inv id now m :
  store_ok m -> ended id m ->
  store_ok (Manager.prune_at now m) /\ ended id (Manager.prune_at now m).
Proof. intros Hok He. exact (prune_fold_inv id now m Hok He). Qed.

(** The invariant of a force-expired session: the table is in order, the
    session is gone or expired, and no identifier drawn from now on is
    its own. *)
Lemma exec_inv (env : Env) (id : string) (c : Call) (w : World) :
  store_ok (store w) -> ended id (store w) ->
  (forall n, (drawn w <= n)%nat -> uuid env n <> id) ->
  let w' := snd (exec env c w) in
  store_ok (store w') /\ ended id (store w')
  /\ (forall n, (drawn w' <= n)%nat -> uuid env n <> id).
Proof.
  intros Hok He Hfresh. destruct c as [opts|k|k|k| | |url| |ms]; cbv zeta.
  - unfold exec, forget, bind.
    pose proof (ManagerFacts.createSession_cases env opts w) as H. cbv zeta in H.
    destruct (settled _) as [sg|e] in H; rewrite H; unfold ret; cbn [snd store drawn].
    + pose proof (Hfresh (drawn w) (le_n _)) as Hne.
      match goal with
      | |- store_ok (Manager.prune_at ?t ?m) /\ _ =>
          assert (store_ok m) as Hm by (apply store_ok_set; [exact Hok | reflexivity]);
          assert (ended id m) as Em by (apply ended_set_other; assumption);
          destruct (prune_at_inv id t Hm Em) as [H1 H2]
      end.
      split; [exact H1 | split; [exact H2 | intros n Hn; apply Hfresh; lia]].
    + split; [exact Hok | split; [exact He | intros n Hn; apply Hfresh; lia]].
  - unfold exec, forget, bind, Manager.lookupSession, bind, get_store.
    destruct (JsMap.get (store w) k); cbn; auto.
  - unfold exec, Manager.recordSessionCall, bind, get_store.
    destruct (JsMap.get (store w) k) as [s|] eqn:E; cbn; auto.
    assert (SessionRecord.sessionId s = k) as Hs.
    { destruct Hok as [_ Hk]. apply Hk. now apply JsMapFacts.get_in. }
    split; [|split; [|exact Hfresh]].
    + apply store_ok_set; assumption.
    + unfold ended in *. destruct (String.eqb_spec k id) as [->|Hn].
      * rewrite JsMapFacts.get_set_same. now rewrite E in He.
      * now rewrite JsMapFacts.get_set_other.
  - unfold exec, forget, Manager.endSession, bind, get_store.
    destruct (JsMap.get (store w) k) as [s|] eqn:E; cbn; auto.
    assert (SessionRecord.sessionId s = k) as Hs.
    { destruct Hok as [_ Hk]. apply Hk. now apply JsMapFacts.get_in. }
    split; [|split; [|exact Hfresh]].
    + apply store_ok_set; assumption.
    + unfold ended in *. destruct (String.eqb_spec k id) as [->|Hn].
      * now rewrite JsMapFacts.get_set_same.
      * now rewrite JsMapFacts.get_set_other.
  - cbn. destruct (prune_at_inv id (clock w / 1000) Hok He). auto.
  - cbn. auto.
  - cbn. auto.
  - cbn. auto.
  - cbn. auto.
Qed.

Lemma exec_all_inv (env : Env) (id : string) (cs : list Call) (w : World) :
  store_ok (store w) -> ended id (store w) ->
  (forall n, (drawn w <= n)%nat -> uuid env n <> id) ->
  store_ok (store (exec_all env cs w)) /\ ended id (store (exec_all env cs w)).
Proof.
  revert w. induction cs as [|c cs IH]; intros w Hok He Hf; [now split|].
  simpl. destruct (@exec_inv env id c w Hok He Hf) as (H1 & H2 & H3). now apply IH.
Qed.

(** After [endSession] the table is in order and the session is ended. *)
Lemma endSession_inv (id : string) (w w' : World) :
  store_ok (store w) ->
  Manager.endSession id w = (Normal true, w') ->
  store_ok (store w') /\ ended id (store w') /\ drawn w' = drawn w.
Proof.
  intros Hok. unfold Manager.endSession, bind, get_store.
  destruct (JsMap.get (store w) id) as [s|] eqn:E; cbn; [|discriminate].
  intros H; injection H as <-. cbn.
  assert (SessionRecord.sessionId s = id) as Hs.
  { destruct Hok as [_ Hk]. apply Hk. now apply JsMapFacts.get_in. }
  split; [|split; [|reflexivity]].
  - now apply store_ok_set.
  - unfold ended. now rewrite JsMapFacts.get_set_same.
Qed.

(** What a lookup and a listing see of an ended session. *)
Lemma ended_lookup (id : string) (w : World) :
  ended id (store w) -> 0 <= clock w ->
  Manager.lookupSession id w = (Normal NotFound, w)
  \/ exists s, Manager.lookupSession id w = (Normal (Found s true), w).
Proof.
  intros He Hc. unfold Manager.lookupSession, bind, get_store, ended in *.
  destruct (JsMap.get (store w) id) as [s|]; cbn; [|now left].
  right. exists s. rewrite He.
  assert (0 <= clock w / 1000) by (apply Z.div_pos; lia).
  now replace (clock w / 1000 >=? 0) with true by lia.
Qed.

Lemma ended_list (id : string) (w : World) :
  store_ok (store w) -> ended id (store w) -> 0 <= clock w ->
  exists l w',
    Manager.listActiveSessions w = (Normal l, w')
    /\ forall s, In s l -> SessionRecord.sessionId s <> id.
Proof.
  intros Hok He Hc. eexists; eexists. split; [reflexivity|].
  cbn. intros s Hin Hid.
  destruct (prune_at_inv id (clock w / 1000) Hok He) as [[Hnd Hk] He'].
  unfold Manager.active_at in Hin. apply filter_In in Hin. destruct Hin as [Hin Hact].
  unfold JsMap.values in Hin. apply in_map_iff in Hin. destruct Hin as [[k s'] [Es Hin]].
  simpl in Es; subst s'. pose proof (Hk _ _ Hin) as Hks. rewrite Hid in Hks. subst k.
  apply JsMapFacts.in_get in Hin; [|exact Hnd].
  unfold ended in He'. rewrite Hin in He'.
  assert (0 <= clock w / 1000) by (apply Z.div_pos; lia). lia.
Qed.

End StoreFacts.

(* ================================================================== *)
(** * Finding a session for a URL *)
(* ================================================================== *)

Module FindFacts.

Lemma findSessionForUrl_eq (url : string) (w : World) :
  Manager.findSessionForUrl url w
  = (Normal (Manager.find_in url (Manager.active_at (clock w / 1000) (store w))), w).
Proof. reflexivity. Qed.

Lemma active_at_in (now : Z) (m : JsMap.t SessionRecord.t) (s : SessionRecord.t) :
  In s (Manager.active_at now m) <-> In s (JsMap.values m) /\ Spec.active now s.
Proof.
  unfold Manager.active_at, Spec.active. rewrite filter_In.
  split; intros [H1 H2]; (split; [exact H1 | lia]).
Qed.

(** Whatever [find_in] returns is one of the sessions searched, and it
    matches the URL by one of the two tests. *)
Lemma find_in_sound (url : string) (l : list SessionRecord.t) (r : SessionRecord.t) :
  Manager.find_in url l = Some r ->
  In r l
  /\ ((SessionRecord.scope r = Scope.exact /\ SessionRecord.endpoint r = url)
      \/ (SessionRecord.scope r = Scope.prefix
          /\ Str.startsWith url (SessionRecord.endpoint r) = true)).
Proof.
  unfold Manager.find_in. destruct (find _ l) as [x|] eqn:E1.
  - intros H; injection H as <-. apply find_some in E1. destruct E1 as [Hin Hx].
    apply andb_true_iff in Hx. destruct Hx as [Hs He].
    split; [exact Hin | left]. split.
    + now destruct (SessionRecord.scope x).
    + now apply String.eqb_eq.
  - match goal with
    | |- context [find ?f l] => destruct (find f l) as [x|] eqn:E2
    end; [|intros H; discriminate H].
    intros H; injection H as <-. apply find_some in E2. destruct E2 as [Hin Hx].
    apply andb_true_iff in Hx. destruct Hx as [Hs He].
    split; [exact Hin | right]. split; [now destruct (SessionRecord.scope x) | exact He].
Qed.

(** Where some session matches exactly, [find_in] returns one that does. *)
Lemma find_in_exact (url : string) (l : list SessionRecord.t) (e : SessionRecord.t) :
  In e l -> SessionRecord.scope e = Scope.exact -> SessionRecord.endpoint e = url ->
  exists r,
    Manager.find_in url l = Some r /\ In r l
    /\ SessionRecord.scope r = Scope.exact /\ SessionRecord.endpoint r = url.
Proof.
  intros Hin Hs He. unfold Manager.find_in.
  destruct (find _ l) as [x|] eqn:E1.
  - exists x. apply find_some in E1. destruct E1 as [Hx Hm].
    apply andb_true_iff in Hm. destruct Hm as [H1 H2].
    repeat split; auto.
    + now destruct (SessionRecord.scope x).
    + now apply String.eqb_eq.
  - exfalso. pose proof (find_none _ _ E1 e Hin) as Hn. cbv beta in Hn.
    rewrite Hs, He, String.eqb_refl in Hn. discriminate.
Qed.

End FindFacts.

(* ================================================================== *)
(** * The tools *)
(* ================================================================== *)

Module ToolFacts.
Import Tool.

Lemma includes_here (a n b : string) : Str.includes (a ++ n ++ b) n.
Proof. now exists a, b. Qed.

(** Neither [parse_cap] nor the handling of an error touches the world. *)
Lemma parse_cap_world (env : Env) (s : option string) (w : World) :
  snd (parse_cap env s w) = w.
Proof.
  unfold parse_cap. destruct s as [s|]; [|reflexivity].
  destruct (String.eqb s ""); [reflexivity|].
  now destruct (eth_cap_to_wei env s).
Qed.

Lemma on_error_world (tool : string) (t : option Z) (e : Exn) (w : World) :
  snd (on_error tool t e w) = w.
Proof. unfold on_error. now destruct (String.eqb (name e) "AbortError"). Qed.

Lemma on_error_normal (tool : string) (t : option Z) (e : Exn) (w : World) :
  exists r, on_error tool t e w = (Normal r, w) /\ isError r = true.
Proof.
  unfold on_error. destruct (String.eqb (name e) "AbortError"); eexists; split; reflexivity.
Qed.

End ToolFacts.

Module SessionFetchFacts.
Import Tool SessionTools.

Section WithCall.
Variable env : Env.
Variable input : X402SessionFetchInput.t.
Variable w : World.

Let id := X402SessionFetchInput.session_id input.
Let url := X402SessionFetchInput.url input.
Let now := clock w / 1000.

(** An unknown identifier: the world is untouched. *)
Lemma not_found :
  JsMap.get (store w) id = None ->
  exists r,
    handleX402SessionFetch env input w = (Normal r, w)
    /\ isError r = true /\ Str.includes (content r) "Session not found".
Proof.
  intros H. unfold handleX402SessionFetch, catch, bind, Manager.lookupSession, bind, get_store, ret.
  fold id. rewrite H. eexists. split; [reflexivity | split; [reflexivity|]].
  cbn [content]. exists "❌ ". eexists. reflexivity.
Qed.

(** A known but expired session: the world is untouched, whatever the
    URL. *)
Lemma expired (s : SessionRecord.t) :
  JsMap.get (store w) id = Some s ->
  (now >=? SessionRecord.expiresAt s) = true ->
  exists r,
    handleX402SessionFetch env input w = (Normal r, w)
    /\ isError r = true /\ Str.includes (content r) "Session Expired".
Proof.
  intros H He. unfold handleX402SessionFetch, catch, bind, Manager.lookupSession, bind,
    get_store, now_seconds, ret.
  fold id. rewrite H. fold now. rewrite He.
  eexists. split; [reflexivity | split; [reflexivity|]].
  cbn [content]. exists "⏰ **". eexists. reflexivity.
Qed.

(** An active session that does not cover the URL: the world is
    untouched. *)
Lemma not_covered (s : SessionRecord.t) :
  JsMap.get (store w) id = Some s ->
  (now >=? SessionRecord.expiresAt s) = false ->
  isUrlCoveredBySession url (SessionRecord.endpoint s) (SessionRecord.scope s) = false ->
  exists r,
    handleX402SessionFetch env input w = (Normal r, w)
    /\ isError r = true
    /\ Str.includes (content r) "URL not covered by this session".
Proof.
  intros H He Hc. unfold handleX402SessionFetch, catch, bind, Manager.lookupSession, bind,
    get_store, now_seconds, ret.
  fold id url. rewrite H. cbv beta iota zeta. fold now. rewrite He. cbv beta iota zeta.
  fold id url. rewrite Hc. cbv beta iota zeta.
  eexists. split; [reflexivity | split; [reflexivity|]].
  cbn [content]. exists "❌ ". eexists. reflexivity.
Qed.

(** An active session that covers the URL: one request is sent, and when
    it is answered and the body read, the call is recorded, whatever the
    status. *)
Lemma covered (s : SessionRecord.t) :
  JsMap.get (store w) id = Some s ->
  (now >=? SessionRecord.expiresAt s) = false ->
  isUrlCoveredBySession url (SessionRecord.endpoint s) (SessionRecord.scope s) = true ->
  let init :=
    session_request s url (X402SessionFetchInput.method input)
      (X402SessionFetchInput.headers input) (X402SessionFetchInput.body input)
      (match X402SessionFetchInput.timeout_ms input with
       | Some t => t
       | None => 30000
       end) in
  let p := remote env (List.length (fetched w)) init in
  let w1 := mkWorld (store w) (clock w + elapsed p) (drawn w) (init :: fetched w) (paid w) in
  match settled p with
  | Throw e =>
      handleX402SessionFetch env input w
      = on_error "x402_session_fetch" (X402SessionFetchInput.timeout_ms input) e w1
  | Normal response =>
      let w2 := mkWorld (store w) (clock w1 + elapsed (text response)) (drawn w)
                        (init :: fetched w) (paid w) in
      match settled (text response) with
      | Throw e =>
          handleX402SessionFetch env input w
          = on_error "x402_session_fetch" (X402SessionFetchInput.timeout_ms input) e w2
      | Normal body =>
          let w3 := mkWorld (JsMap.set (store w) id (SessionRecord.use (clock w2 / 1000) s))
                            (clock w2) (drawn w) (init :: fetched w) (paid w) in
          exists r,
            handleX402SessionFetch env input w = (Normal r, w3)
            /\ isError r = (status response =? 402)
            /\ (status response = 402 ->
                Str.includes (content r) "Session Not Recognised")
      end
  end.
Proof.
  intros H He Hc. cbv zeta.
  unfold handleX402SessionFetch, catch, bind, Manager.lookupSession, bind,
    get_store, now_seconds, ret.
  fold id url. rewrite H. cbv beta iota zeta. fold now. rewrite He. cbv beta iota zeta.
  fold id url. rewrite Hc. cbn [negb]. cbv beta iota zeta.
  unfold fetch, await. cbn [store clock drawn fetched paid].
  destruct (settled (remote env _ _)) as [response|e]; [|reflexivity].
  destruct (settled (text response)) as [body|e]; [|reflexivity].
  unfold Manager.recordSessionCall, bind, get_store, now_seconds, put_store, ret.
  cbn [store clock drawn fetched paid]. rewrite H.
  destruct (status response =? 402) eqn:Es.
  - eexists. split; [reflexivity | split; [reflexivity|]]. intros _.
    cbn [content]. exists "⚠️ **Server returned 402 — ". eexists. reflexivity.
  - eexists. split; [reflexivity | split; [reflexivity|]]. intros E.
    rewrite E in Es. discriminate.
Qed.

End WithCall.

End SessionFetchFacts.

Module PayFacts.
Import Tool X402Tool.

Lemma x402Client_fetch_store (env : Env) cap onB onC (r : Request) (t : PaymentTrack) (w : World) :
  store (snd (x402Client_fetch env cap onB onC r t w)) = store w
  /\ drawn (snd (x402Client_fetch env cap onB onC r t w)) = drawn w.
Proof.
  unfold x402Client_fetch, await.
  destruct (run_client onB onC _ t) as [p t'].
  cbn [store clock drawn fetched paid].
  now destruct (settled p).
Qed.

(** The payment flow never touches the session table. *)
Lemma payment_flow_store (env : Env) (input : X402PayInput.t) (config : ClawPayConfig)
  (timeoutMs : Z) (w : World) :
  store (snd (payment_flow env input config timeoutMs w)) = store w.
Proof.
  unfold payment_flow, bind.
  pose proof (ToolFacts.parse_cap_world env (X402PayInput.max_payment_eth input) w) as Hc.
  destruct (parse_cap env _ w) as [[cap|e] w0]; cbn [snd] in Hc; subst w0; [|reflexivity].
  match goal with
  | |- context [x402Client_fetch env ?c ?b ?k ?r ?t w] =>
      pose proof (x402Client_fetch_store env c b k r t w) as [Hs _];
      destruct (x402Client_fetch env c b k r t w) as [[[response track]|e] w1]
  end; cbn [snd] in Hs; [|exact Hs].
  unfold await, ret. cbn [store].
  destruct (settled (text response)); exact Hs.
Qed.

Section AutoSession.
Variable env : Env.
Variable input : X402PayInput.t.
Variable config : ClawPayConfig.
Variable timeoutMs : Z.
Variable w : World.
Variable s : SessionRecord.t.

Let url := X402PayInput.url input.
Let init :=
  session_request s url (X402PayInput.method input) (X402PayInput.headers input)
    (X402PayInput.body input) timeoutMs.
Let p := remote env (List.length (fetched w)) init.
Let w1 := mkWorld (store w) (clock w + elapsed p) (drawn w) (init :: fetched w) (paid w).

Hypothesis Hskip :
  match X402PayInput.skip_session_check input with
  | Some b => b
  | None => false
  end = false.
Hypothesis Hfound :
  Manager.find_in url (Manager.active_at (clock w / 1000) (store w)) = Some s.

(** The session request is answered 402: no use is recorded, and the
    handler falls through to the payment flow. *)
Lemma auto_session_402 (response : Response) :
  settled p = Normal response -> status response = 402 ->
  auto_session env input config timeoutMs w = (Normal FallThrough, w1).
Proof.
  intros Hp Hs. unfold auto_session. fold url. rewrite Hskip. cbn [negb].
  unfold bind at 1. rewrite FindFacts.findSessionForUrl_eq, Hfound.
  cbv beta iota zeta. fold init. unfold bind, fetch, await.
  fold p. rewrite Hp. cbv beta iota zeta. rewrite Hs. reflexivity.
Qed.

(** The session request is answered otherwise and the body is read: the
    use is recorded. *)
Lemma auto_session_ok (response : Response) (body : string) :
  JsMap.get (store w) (SessionRecord.sessionId s) = Some s ->
  settled p = Normal response -> status response <> 402 ->
  settled (text response) = Normal body ->
  exists r,
    auto_session env input config timeoutMs w
    = (Normal (Return r),
       mkWorld (JsMap.set (store w) (SessionRecord.sessionId s)
                  (SessionRecord.use ((clock w1 + elapsed (text response)) / 1000) s))
               (clock w1 + elapsed (text response)) (drawn w)
               (init :: fetched w) (paid w))
    /\ isError r = false.
Proof.
  intros Hget Hp Hs Ht. unfold auto_session. fold url. rewrite Hskip. cbn [negb].
  unfold bind at 1. rewrite FindFacts.findSessionForUrl_eq, Hfound.
  cbv beta iota zeta. fold init. unfold bind, fetch, await.
  fold p. rewrite Hp. cbv beta iota zeta.
  destruct (Z.eqb_spec (status response) 402) as [E|_]; [contradiction|].
  cbn [negb]. rewrite Ht.
  unfold Manager.recordSessionCall, bind, get_store, now_seconds, put_store, ret.
  cbn [store clock drawn fetched paid]. rewrite Hget.
  eexists. split; reflexivity.
Qed.

End AutoSession.

(** [x402_pay] as a whole: when the session request is answered 402 the
    table is the same after the call, whatever the payment flow does. *)
Lemma handleX402Pay_402_store (env : Env) (input : X402PayInput.t) (w : World)
  (config : ClawPayConfig) (s : SessionRecord.t) (response : Response) :
  getWallet env = Normal tt ->
  getConfig env = Normal config ->
  match X402PayInput.skip_session_check input with
  | Some b => b
  | None => false
  end = false ->
  Manager.find_in (X402PayInput.url input)
    (Manager.active_at (clock w / 1000) (store w)) = Some s ->
  settled
    (remote env (List.length (fetched w))
       (session_request s (X402PayInput.url input) (X402PayInput.method input)
          (X402PayInput.headers input) (X402PayInput.body input)
          (match X402PayInput.timeout_ms input with
           | Some t => t
           | None => 30000
           end)))
  = Normal response ->
  status response = 402 ->
  store (snd (handleX402Pay env input w)) = store w.
Proof.
  intros Hw Hc Hskip Hfound Hp Hs.
  unfold handleX402Pay, catch, bind, lift. rewrite Hw, Hc. cbv beta iota zeta.
  rewrite (@auto_session_402 env input config _ w s Hskip Hfound response Hp Hs).
  cbv beta iota zeta.
  match goal with
  | |- context [payment_flow env input config ?t ?w1] =>
      pose proof (payment_flow_store env input config t w1) as Hf;
      destruct (payment_flow env input config t w1) as [[r|e] w2]
  end; cbn [snd store] in Hf |- *.
  - exact Hf.
  - now rewrite ToolFacts.on_error_world.
Qed.

End PayFacts.

Module StartFacts.
Import Tool SessionTools.

Lemma includes_app_r (a b n : string) : Str.includes b n -> Str.includes (a ++ b) n.
Proof.
  intros [x [y ->]]. exists (a ++ x), y. now rewrite StrFacts.app_assoc.
Qed.

Ltac find_text :=
  first [ solve [ exists ""; eexists; reflexivity ]
        | apply includes_app_r; find_text ].

Lemma no_payment_text_says (input : X402SessionStartInput.t) (response : Response)
  (body : string) :
  Str.includes (no_payment_text input response body) "No Payment Required"
  /\ Str.includes (no_payment_text input response body)
       "You do not need a session token".
Proof.
  unfold no_payment_text. split.
  - exists "ℹ️ **". eexists. reflexivity.
  - find_text.
Qed.

(** The client's [fetch] resolves and no payment was made: the handler
    returns the no-payment text and calls nothing else. *)
Lemma start_without_payment (env : Env) (input : X402SessionStartInput.t) (w : World)
  (config : ClawPayConfig) (cap : option Z) (p : Promise Response)
  (track : PaymentTrack) (response : Response) (body : string) :
  getWallet env = Normal tt ->
  getConfig env = Normal config ->
  parse_cap env (X402SessionStartInput.max_payment_eth input) w = (Normal cap, w) ->
  run_client (start_onBeforePayment input cap) start_onPaymentComplete
             (x402 env (List.length (paid w)) cap (start_request input)) no_payment
  = (p, track) ->
  settled p = Normal response ->
  settled (text response) = Normal body ->
  paymentMade track = false ->
  handleX402SessionStart env input w
  = (Normal (mkResult (no_payment_text input response body) false),
     mkWorld (store w) (clock w + elapsed p + elapsed (text response)) (drawn w)
             (fetched w) (start_request input :: paid w)).
Proof.
  intros Hw Hc Hcap Hrun Hp Ht Hpaid.
  unfold handleX402SessionStart, catch, bind, lift. rewrite Hw, Hc, Hcap.
  cbv beta iota zeta. unfold x402Client_fetch. rewrite Hrun.
  unfold await. cbn [store clock drawn fetched paid settled]. rewrite Hp.
  cbv beta iota zeta. cbn [settled elapsed store clock drawn fetched paid].
  rewrite Ht, Hpaid. reflexivity.
Qed.

End StartFacts.

Module TtlFacts.

Lemma parseTtl_range (env : Env) : 1 <= Manager.parseTtlFromEnv env <= 2592000.
Proof.
  unfold Manager.parseTtlFromEnv, Manager.DEFAULT_TTL_SECONDS.
  destruct (SESSION_TTL_SECONDS env) as [raw|]; [|lia].
  destruct (String.eqb raw ""); [lia|].
  destruct (Js.parseInt raw) as [n|]; [|lia].
  destruct (Z.leb_spec n 0); lia.
Qed.

Lemma parseTtl_default (env : Env) :
  Spec.configured_ttl env = None -> Manager.parseTtlFromEnv env = 3600.
Proof.
  unfold Spec.configured_ttl, Manager.parseTtlFromEnv, Manager.DEFAULT_TTL_SECONDS.
  destruct (SESSION_TTL_SECONDS env) as [raw|]; [|reflexivity].
  destruct (String.eqb raw ""); [reflexivity|].
  destruct (Js.parseInt raw) as [n|]; [|reflexivity].
  destruct (Z.ltb_spec 0 n); [discriminate|].
  destruct (Z.leb_spec n 0); [reflexivity | lia].
Qed.

Lemma parseTtl_configured (env : Env) (n : Z) :
  Spec.configured_ttl env = Some n -> 60 <= n ->
  Manager.parseTtlFromEnv env = Spec.clamp n 60 2592000.
Proof.
  unfold Spec.configured_ttl, Manager.parseTtlFromEnv, Spec.clamp.
  destruct (SESSION_TTL_SECONDS env) as [raw|]; [|discriminate].
  destruct (String.eqb_spec raw "") as [->|_]; [discriminate|].
  destruct (Js.parseInt raw) as [m|]; [|discriminate].
  destruct (Z.ltb_spec 0 m); [|discriminate].
  intros E; injection E as ->. intros Hn.
  destruct (Z.leb_spec n 0); lia.
Qed.

End TtlFacts.

(* ================================================================== *)
(** * More about the session table *)
(* ================================================================== *)

Module PruneFacts.
Import JsMapFacts.

(** The test of [pruneExpired], on an entry. *)
Lemma delete_filter (V : Type) (m : JsMap.t V) (k : string) :
  NoDup (JsMap.keys m) ->
  JsMap.delete m k = filter (fun e => negb (String.eqb (fst e) k)) m.
Proof.
  induction m as [|[k0 v0] m IH]; simpl; [reflexivity|].
  intros Hnd. inversion Hnd as [|? ? Hni Hnd']; subst.
  destruct (String.eqb_spec k0 k) as [->|Hn]; simpl.
  - symmetry. apply forallb_filter_id. apply forallb_forall.
    intros [k1 v1] Hin. simpl. destruct (String.eqb_spec k1 k) as [->|_]; [|reflexivity].
    exfalso. apply Hni. change k with (fst (k, v1)). now apply in_map.
  - now rewrite IH.
Qed.

Lemma filter_filter (A : Type) (f g : A -> bool) (l : list A) :
  filter f (filter g l) = filter (fun x => g x && f x) l.
Proof.
  induction l as [|x l IH]; simpl; [reflexivity|].
  destruct (g x); simpl; [destruct (f x)|]; now rewrite IH.
Qed.

Lemma filter_nodup (V : Type) (f : string * V -> bool) (m : JsMap.t V) :
  NoDup (JsMap.keys m) -> NoDup (JsMap.keys (filter f m)).
Proof.
  induction m as [|e m IH]; simpl; [auto|].
  intros Hnd. inversion Hnd as [|? ? Hni Hnd']; subst.
  destruct (f e); simpl; [|now apply IH].
  constructor; [|now apply IH].
  intros Hin. apply Hni. unfold JsMap.keys in *. apply in_map_iff in Hin.
  destruct Hin as [e' [E Hin]]. apply filter_In in Hin. rewrite <- E.
  apply in_map. tauto.
Qed.

(** What the loop of [pruneExpired] leaves of a table [acc] when it runs
    over the entries [entries]: the entries whose key is that of no
    expired entry. *)
Lemma prune_fold (now : Z) (entries acc : JsMap.t SessionRecord.t) :
  NoDup (JsMap.keys acc) ->
  fold_left
    (fun acc entry =>
       let '(id, session) := entry in
       if SessionRecord.expiresAt session <=? now
       then JsMap.delete acc id
       else acc)
    entries acc
  = filter
      (fun e =>
         negb (existsb
                 (fun e' => String.eqb (fst e') (fst e)
                            && (SessionRecord.expiresAt (snd e') <=? now))
                 entries))
      acc.
Proof.
  revert acc. induction entries as [|[k s] entries IH]; intros acc Hnd.
  - simpl. symmetry. apply forallb_filter_id. now apply forallb_forall.
  - cbn [fold_left existsb fst snd].
    destruct (SessionRecord.expiresAt s <=? now).
    + rewrite IH by now apply delete_nodup.
      rewrite delete_filter by exact Hnd. rewrite filter_filter.
      apply filter_ext. intros [k1 v1]. cbn [fst].
      rewrite (String.eqb_sym k k1). rewrite andb_true_r.
      now destruct (String.eqb k1 k).
    + rewrite IH by exact Hnd. apply filter_ext. intros [k1 v1]. cbn [fst].
      now rewrite andb_false_r.
Qed.

(** In a table without duplicate keys, an entry shares its key with an
    expired entry exactly when it is expired itself. *)
Lemma expired_key (now : Z) (m : JsMap.t SessionRecord.t) (e : string * SessionRecord.t) :
  NoDup (JsMap.keys m) -> In e m ->
  existsb
    (fun e' => String.eqb (fst e') (fst e)
               && (SessionRecord.expiresAt (snd e') <=? now)) m
  = (SessionRecord.expiresAt (snd e) <=? now).
Proof.
  intros Hnd Hin. destruct e as [k s]. cbn [fst snd].
  destruct (SessionRecord.expiresAt s <=? now) eqn:E.
  - apply existsb_exists. exists (k, s). cbn [fst snd].
    now rewrite String.eqb_refl, E.
  - apply not_true_is_false. intros H. apply existsb_exists in H.
    destruct H as [[k' s'] [Hin' H]]. cbn [fst snd] in H.
    apply andb_true_iff in H. destruct H as [Hk Hs]. apply String.eqb_eq in Hk. subst k'.
    pose proof (in_get _ _ _ Hnd Hin) as G1. pose proof (in_get _ _ _ Hnd Hin') as G2.
    rewrite G1 in G2. injection G2 as <-. congruence.
Qed.

(** One pass of the loop of [pruneExpired] over a table: the entries
    that have not expired remain, in their order. *)
Lemma prune_at_filter (now : Z) (m : JsMap.t SessionRecord.t) :
  NoDup (JsMap.keys m) ->
  Manager.prune_at now m
  = filter (fun e => SessionRecord.expiresAt (snd e) >? now) m.
Proof.
  intros Hnd. unfold Manager.prune_at. rewrite prune_fold by exact Hnd.
  apply filter_ext_in. intros e Hin. rewrite expired_key by assumption.
  destruct (Z.leb_spec (SessionRecord.expiresAt (snd e)) now);
    destruct (Z.gtb_spec (SessionRecord.expiresAt (snd e)) now); simpl; lia || reflexivity.
Qed.

Lemma active_at_filter (now : Z) (m : JsMap.t SessionRecord.t) :
  Manager.active_at now
    (filter (fun e => SessionRecord.expiresAt (snd e) >? now) m)
  = Manager.active_at now m.
Proof.
  unfold Manager.active_at, JsMap.values.
  induction m as [|[k s] m IH]; simpl; [reflexivity|].
  destruct (SessionRecord.expiresAt s >? now) eqn:E; simpl; rewrite ?E, IH; reflexivity.
Qed.

Lemma values_filter (now : Z) (m : JsMap.t SessionRecord.t) :
  JsMap.values (filter (fun e => SessionRecord.expiresAt (snd e) >? now) m)
  = Manager.active_at now m.
Proof.
  unfold Manager.active_at, JsMap.values.
  induction m as [|[k s] m IH]; simpl; [reflexivity|].
  destruct (SessionRecord.expiresAt s >? now) eqn:E; simpl; rewrite IH; reflexivity.
Qed.

End PruneFacts.

Module TableFacts.
Import JsMapFacts PruneFacts.

Lemma get_filter (V : Type) (f : string * V -> bool) (m : JsMap.t V) (k : string) :
  NoDup (JsMap.keys m) ->
  JsMap.get (filter f m) k
  = match JsMap.get m k with
    | Some v => if f (k, v) then Some v else None
    | None => None
    end.
Proof.
  induction m as [|[k0 v0] m IH]; simpl; [reflexivity|].
  intros Hnd. inversion Hnd as [|? ? Hni Hnd']; subst.
  destruct (String.eqb_spec k0 k) as [->|Hn].
  - destruct (f (k, v0)) eqn:E; simpl.
    + now rewrite String.eqb_refl.
    + rewrite IH by exact Hnd'. now rewrite (get_none_not_in _ _ Hni).
  - destruct (f (k0, v0)); simpl.
    + destruct (String.eqb_spec k0 k); [contradiction|]. now apply IH.
    + now apply IH.
Qed.

Lemma store_ok_filter (f : string * SessionRecord.t -> bool) (m : JsMap.t SessionRecord.t) :
  store_ok m -> store_ok (filter f m).
Proof.
  intros [Hnd Hk]. split; [now apply filter_nodup|].
  intros k s Hin. apply filter_In in Hin. now apply Hk.
Qed.

Lemma store_ok_prune (now : Z) (m : JsMap.t SessionRecord.t) :
  store_ok m -> store_ok (Manager.prune_at now m).
Proof.
  intros Hok. rewrite prune_at_filter by apply Hok. now apply store_ok_filter.
Qed.

Lemma keys_set_present (V : Type) (m : JsMap.t V) (k : string) (v v' : V) :
  JsMap.get m k = Some v -> JsMap.keys (JsMap.set m k v') = JsMap.keys m.
Proof.
  induction m as [|[k0 v0] m IH]; simpl; [discriminate|].
  destruct (String.eqb_spec k0 k) as [->|Hn]; simpl; [reflexivity|].
  intros H. now rewrite IH.
Qed.

(** Every call of the API keeps the table in order. *)
Lemma exec_store_ok (env : Env) (c : Call) (w : World) :
  store_ok (store w) -> store_ok (store (snd (exec env c w))).
Proof.
  intros Hok. destruct c as [opts|k|k|k| | |url| |ms].
  - unfold exec, forget, bind.
    pose proof (ManagerFacts.createSession_cases env opts w) as H. cbv zeta in H.
    destruct (settled _) as [sg|e] in H; rewrite H; unfold ret; cbn [snd store].
    + apply store_ok_prune. now apply StoreFacts.store_ok_set.
    + exact Hok.
  - unfold exec, forget, bind, Manager.lookupSession, bind, get_store.
    destruct (JsMap.get (store w) k); cbn; auto.
  - unfold exec, Manager.recordSessionCall, bind, get_store.
    destruct (JsMap.get (store w) k) as [s|] eqn:E; cbn; auto.
    apply StoreFacts.store_ok_set; [exact Hok|].
    destruct Hok as [_ Hk]. simpl. apply Hk. now apply get_in.
  - unfold exec, forget, Manager.endSession, bind, get_store.
    destruct (JsMap.get (store w) k) as [s|] eqn:E; cbn; auto.
    apply StoreFacts.store_ok_set; [exact Hok|].
    destruct Hok as [_ Hk]. simpl. apply Hk. now apply get_in.
  - cbn. now apply store_ok_prune.
  - cbn. auto.
  - cbn. auto.
  - cbn. auto.
  - cbn. auto.
Qed.

Lemma exec_all_store_ok (env : Env) (cs : list Call) (w : World) :
  store_ok (store w) -> store_ok (store (exec_all env cs w)).
Proof.
  revert w. induction cs as [|c cs IH]; intros w Hok; [exact Hok|].
  simpl. apply IH. now apply exec_store_ok.
Qed.

Lemma lookup_after_set (m : JsMap.t SessionRecord.t) (k : string)
  (r : SessionRecord.t) (w : World) :
  NoDup (JsMap.keys m) ->
  store w = filter (fun e => SessionRecord.expiresAt (snd e) >? clock w / 1000)
                   (JsMap.set m k r) ->
  Manager.lookupSession k w
  = (Normal (if SessionRecord.expiresAt r >? clock w / 1000
             then Found r false else NotFound), w).
Proof.
  intros Hnd Hs.
  unfold Manager.lookupSession, bind, get_store, now_seconds, ret.
  rewrite Hs, get_filter by now apply set_nodup.
  rewrite get_set_same. cbn [snd].
  destruct (SessionRecord.expiresAt r >? clock w / 1000) eqn:E; [|reflexivity].
  apply Z.gtb_lt in E.
  destruct (Z.geb_spec (clock w / 1000) (SessionRecord.expiresAt r)); [lia | reflexivity].
Qed.

End TableFacts.

(* ================================================================== *)
(** * What becomes of a force-expired session *)
(* ================================================================== *)

Module EndedFacts.
Import JsMapFacts PruneFacts TableFacts.

Lemma exec_all_app (env : Env) (cs1 cs2 : list Call) (w : World) :
  exec_all env (cs1 ++ cs2)%list w = exec_all env cs2 (exec_all env cs1 w).
Proof.
  revert w. induction cs1 as [|c cs1 IH]; intros w; [reflexivity|].
  simpl. apply IH.
Qed.

(** The invariant of [StoreFacts.exec_inv], along a sequence of calls. *)
Lemma exec_all_inv_fresh (env : Env) (id : string) (cs : list Call) (w : World) :
  store_ok (store w) -> ended id (store w) ->
  (forall n, (drawn w <= n)%nat -> uuid env n <> id) ->
  let w' := exec_all env cs w in
  store_ok (store w') /\ ended id (store w')
  /\ (forall n, (drawn w' <= n)%nat -> uuid env n <> id).
Proof.
  revert w. induction cs as [|c cs IH]; intros w Hok He Hf; [cbn; auto|].
  simpl. destruct (@StoreFacts.exec_inv env id c w Hok He Hf) as (H1 & H2 & H3).
  now apply IH.
Qed.

(** A call that does not prune leaves a force-expired record where it
    is. *)
Lemma exec_keeps (env : Env) (id : string) (c : Call) (w : World) :
  prunes c = false ->
  (exists s, JsMap.get (store w) id = Some s /\ SessionRecord.expiresAt s = 0) ->
  exists s, JsMap.get (store (snd (exec env c w))) id = Some s
            /\ SessionRecord.expiresAt s = 0.
Proof.
  intros Hp (s & Hs & He).
  destruct c as [opts|k|k|k| | |url| |ms]; try discriminate Hp.
  - unfold exec, forget, bind, Manager.lookupSession, bind, get_store.
    destruct (JsMap.get (store w) k); cbn; eauto.
  - unfold exec, Manager.recordSessionCall, bind, get_store.
    destruct (JsMap.get (store w) k) as [s'|] eqn:E; cbn; eauto.
    destruct (String.eqb_spec k id) as [->|Hn].
    + rewrite get_set_same. rewrite Hs in E. injection E as <-.
      eexists. split; [reflexivity | exact He].
    + rewrite get_set_other by exact Hn. eauto.
  - unfold exec, forget, Manager.endSession, bind, get_store.
    destruct (JsMap.get (store w) k) as [s'|] eqn:E; cbn; eauto.
    destruct (String.eqb_spec k id) as [->|Hn].
    + rewrite get_set_same. eexists. split; reflexivity.
    + rewrite get_set_other by exact Hn. eauto.
  - cbn. eauto.
  - cbn. eauto.
  - cbn. eauto.
  - cbn. eauto.
Qed.

Lemma exec_all_keeps (env : Env) (id : string) (cs : list Call) (w : World) :
  existsb prunes cs = false ->
  (exists s, JsMap.get (store w) id = Some s /\ SessionRecord.expiresAt s = 0) ->
  exists s, JsMap.get (store (exec_all env cs w)) id = Some s
            /\ SessionRecord.expiresAt s = 0.
Proof.
  revert w. induction cs as [|c cs IH]; intros w Hp H; [exact H|].
  simpl in Hp. apply orb_false_iff in Hp. destruct Hp as [Hc Hcs].
  simpl. apply IH; [exact Hcs|]. now apply exec_keeps.
Qed.

(** A pruning pass at a time from the epoch on removes a force-expired
    record. *)
Lemma prune_removes (id : string) (now : Z) (m : JsMap.t SessionRecord.t) :
  store_ok m -> ended id m -> 0 <= now ->
  JsMap.get (Manager.prune_at now m) id = None.
Proof.
  intros Hok He Hn. rewrite prune_at_filter by apply Hok.
  rewrite get_filter by apply Hok. unfold ended in He.
  destruct (JsMap.get m id) as [s|]; [|reflexivity].
  cbn [snd]. rewrite He.
  destruct (Z.gtb_spec 0 now); [lia | reflexivity].
Qed.

Lemma prune_absent (id : string) (now : Z) (m : JsMap.t SessionRecord.t) :
  store_ok m -> JsMap.get m id = None ->
  JsMap.get (Manager.prune_at now m) id = None.
Proof.
  intros Hok Hg. rewrite prune_at_filter by apply Hok.
  rewrite get_filter by apply Hok. now rewrite Hg.
Qed.

(** A record that is gone does not come back, as long as no identifier
    drawn is its own. *)
Lemma exec_absent (env : Env) (id : string) (c : Call) (w : World) :
  store_ok (store w) -> JsMap.get (store w) id = None ->
  uuid env (drawn w) <> id ->
  JsMap.get (store (snd (exec env c w))) id = None.
Proof.
  intros Hok Hg Hf. destruct c as [opts|k|k|k| | |url| |ms].
  - unfold exec, forget, bind.
    pose proof (ManagerFacts.createSession_cases env opts w) as H. cbv zeta in H.
    destruct (settled _) as [sg|e] in H; rewrite H; unfold ret; cbn [snd store].
    + apply prune_absent; [apply StoreFacts.store_ok_set; [exact Hok | reflexivity]|].
      now rewrite get_set_other.
    + exact Hg.
  - unfold exec, forget, bind, Manager.lookupSession, bind, get_store.
    destruct (JsMap.get (store w) k); cbn; auto.
  - unfold exec, Manager.recordSessionCall, bind, get_store.
    destruct (JsMap.get (store w) k) as [s'|] eqn:E; cbn; auto.
    rewrite get_set_other; [exact Hg|]. intros ->. congruence.
  - unfold exec, forget, Manager.endSession, bind, get_store.
    destruct (JsMap.get (store w) k) as [s'|] eqn:E; cbn; auto.
    rewrite get_set_other; [exact Hg|]. intros ->. congruence.
  - cbn. now apply prune_absent.
  - cbn. auto.
  - cbn. auto.
  - cbn. auto.
  - cbn. auto.
Qed.

Lemma exec_drawn (env : Env) (c : Call) (w : World) :
  (drawn w <= drawn (snd (exec env c w)))%nat.
Proof.
  destruct c as [opts|k|k|k| | |url| |ms].
  - unfold exec, forget, bind.
    pose proof (ManagerFacts.createSession_cases env opts w) as H. cbv zeta in H.
    destruct (settled _) as [sg|e] in H; rewrite H; unfold ret; cbn [snd drawn]; lia.
  - unfold exec, forget, bind, Manager.lookupSession, bind, get_store.
    destruct (JsMap.get (store w) k); cbn; auto.
  - unfold exec, Manager.recordSessionCall, bind, get_store.
    destruct (JsMap.get (store w) k) as [s'|] eqn:E; cbn; auto.
  - unfold exec, forget, Manager.endSession, bind, get_store.
    destruct (JsMap.get (store w) k) as [s'|] eqn:E; cbn; auto.
  - cbn. auto.
  - cbn. auto.
  - cbn. auto.
  - cbn. auto.
  - cbn. auto.
Qed.

Lemma exec_all_absent (env : Env) (id : string) (cs : list Call) (w : World) :
  store_ok (store w) -> JsMap.get (store w) id = None ->
  (forall n, (drawn w <= n)%nat -> uuid env n <> id) ->
  JsMap.get (store (exec_all env cs w)) id = None.
Proof.
  revert w. induction cs as [|c cs IH]; intros w Hok Hg Hf; [exact Hg|].
  simpl. apply IH.
  - now apply exec_store_ok.
  - apply exec_absent; [exact Hok | exact Hg | apply Hf; lia].
  - intros n Hn. apply Hf. pose proof (exec_drawn env c w). lia.
Qed.

(** After [listActiveSessions] at a time from the epoch on, a
    force-expired record is gone for good. *)
Lemma listed_gone (env : Env) (id : string) (cs1 cs2 : list Call) (w : World) :
  store_ok (store w) -> ended id (store w) ->
  (forall n, (drawn w <= n)%nat -> uuid env n <> id) ->
  0 <= clock (exec_all env cs1 w) ->
  JsMap.get (store (exec_all env (cs1 ++ ListActiveSessions :: cs2)%list w)) id = None.
Proof.
  intros Hok He Hf Hc. rewrite exec_all_app.
  destruct (@exec_all_inv_fresh env id cs1 w Hok He Hf) as (Hok1 & He1 & Hf1).
  cbn [exec_all]. apply exec_all_absent.
  - now apply exec_store_ok.
  - cbn. apply prune_removes; [exact Hok1 | exact He1 | apply Z.div_pos; lia].
  - intros n Hn. apply Hf1. pose proof (exec_drawn env ListActiveSessions (exec_all env cs1 w)). lia.
Qed.

End EndedFacts.

(* ================================================================== *)
(** * The claims *)
(* ================================================================== *)

(** C1 (the code departs from the claim).  A request sent with the
    headers of session [id1] through [x402_session_fetch] is answered
    402.  The failure reported is the distinct one ("Session Not
    Recognised"), but the use has been recorded all the same:
    [recordSessionCall] runs before the status is looked at, so
    [callCount] went from 0 to 1 and [lastUsedAt] moved to the current
    time.  ([PayFacts.auto_session_402] shows the auto-session path of
    [x402_pay] recording nothing in the same situation.) *)
Theorem C1_session_fetch_records_use_on_402 :
  exists r w',
    SessionTools.handleX402SessionFetch Ex.env402
      (Ex.fetch_input "https://api.example.com/v1/data") Ex.w1
    = (Normal r, w')
    /\ isError r = true
    /\ Str.includes (content r) "Session Not Recognised"
    /\ JsMap.get (store Ex.w1) Ex.id1 = Some Ex.s1
    /\ JsMap.get (store w') Ex.id1 = Some (SessionRecord.use 1000060 Ex.s1)
    /\ SessionRecord.callCount (SessionRecord.use 1000060 Ex.s1)
       = SessionRecord.callCount Ex.s1 + 1
    /\ SessionRecord.lastUsedAt Ex.s1 = 1000000
    /\ SessionRecord.lastUsedAt (SessionRecord.use 1000060 Ex.s1) = 1000060.
Proof.
  eexists. eexists. split; [vm_compute; reflexivity|].
  split; [reflexivity|]. split.
  - exists "⚠️ **Server returned 402 — ". eexists. reflexivity.
  - repeat split.
Qed.

(** C2 (amended).  For every successful call of [createSession],
    [createdAt] is the current time and, the numbers of the program being
    doubles, [expiresAt = createdAt + ttl] as long as the two terms and
    their sum are safe integers (at most [2^53 - 1] in absolute value).
    [ttl] is [opts.ttlSeconds] exactly as supplied -- it is not clamped,
    and so equals [clamp(ttl, 60, 2592000)] when it lies between 60 and
    2592000, the range the input schema of the start tool admits -- and
    otherwise the configured default, which lies between 1 and 2592000,
    is 3600 when [SESSION_TTL_SECONDS] holds no positive integer, and is
    [clamp(n, 60, 2592000)] when it holds an integer [n >= 60] ([parseInt]
    skipping any leading white space, a no-break space included).  With
    the current time a time of [Date] and a TTL within the schema's range
    or the default one, the sum is exact.  [expiresAt >= createdAt] holds
    whenever the TTL used is not negative. *)
Theorem C2_createSession_expiry (env : Env) (opts : CreateSessionOptions.t)
  (w w' : World) (r : SessionRecord.t) :
  Manager.createSession env opts w = (Normal r, w') ->
  SessionRecord.createdAt r = clock w / 1000
  /\ (Js.adds_exactly (SessionRecord.createdAt r) (Manager.ttl_of env opts) ->
      SessionRecord.expiresAt r
      = SessionRecord.createdAt r + Manager.ttl_of env opts)
  /\ match CreateSessionOptions.ttlSeconds opts with
     | Some t =>
         Manager.ttl_of env opts = t
         /\ (60 <= t <= 2592000 ->
             Manager.ttl_of env opts = Spec.clamp t 60 2592000
             /\ (Js.valid_time (SessionRecord.createdAt r) ->
                 Js.adds_exactly (SessionRecord.createdAt r) (Manager.ttl_of env opts)))
     | None =>
         1 <= Manager.ttl_of env opts <= 2592000
         /\ match Spec.configured_ttl env with
            | None => Manager.ttl_of env opts = 3600
            | Some n => 60 <= n -> Manager.ttl_of env opts = Spec.clamp n 60 2592000
            end
         /\ (Js.valid_time (SessionRecord.createdAt r) ->
             Js.adds_exactly (SessionRecord.createdAt r) (Manager.ttl_of env opts))
     end
  /\ (0 <= Manager.ttl_of env opts ->
      SessionRecord.createdAt r <= SessionRecord.expiresAt r).
Proof.
  intros H. pose proof (ManagerFacts.createSession_cases env opts w) as Hc.
  cbv zeta in Hc. destruct (settled _) in Hc; rewrite Hc in H; [|discriminate].
  injection H as <- _. cbn [SessionRecord.createdAt SessionRecord.expiresAt].
  split; [reflexivity|]. split; [reflexivity|]. split; [|lia].
  unfold Manager.ttl_of. destruct (CreateSessionOptions.ttlSeconds opts) as [t|].
  - split; [reflexivity|]. intros Ht. split; [unfold Spec.clamp; lia|].
    unfold Js.adds_exactly, Js.isSafeInteger, Js.valid_time, Js.MAX_SAFE_INTEGER. lia.
  - pose proof (TtlFacts.parseTtl_range env) as Hr.
    split; [exact Hr|]. split.
    + destruct (Spec.configured_ttl env) as [n|] eqn:E.
      * now apply TtlFacts.parseTtl_configured.
      * now apply TtlFacts.parseTtl_default.
    + unfold Js.adds_exactly, Js.isSafeInteger, Js.valid_time, Js.MAX_SAFE_INTEGER. lia.
Qed.

Lemma C2_createSession_expiry_witness :
  exists r w',
    Manager.createSession Ex.env7200
      (Ex.opts "https://api.example.com/v1" Scope.prefix None Ex.sig_ok) Ex.w0
    = (Normal r, w')
    /\ Js.adds_exactly (SessionRecord.createdAt r) 7200
    /\ SessionRecord.expiresAt r = SessionRecord.createdAt r + 7200.
Proof.
  destruct (Manager.createSession Ex.env7200
              (Ex.opts "https://api.example.com/v1" Scope.prefix None Ex.sig_ok) Ex.w0)
    as [[r|e] w'] eqn:H.
  - exists r, w'. split; [reflexivity|].
    destruct (@C2_createSession_expiry _ _ _ _ _ H) as (Hc & Hs & _ & _).
    assert (Js.adds_exactly (SessionRecord.createdAt r) 7200) as Ha.
    { rewrite Hc. vm_compute. repeat split; discriminate. }
    split; [exact Ha | exact (Hs Ha)].
  - vm_compute in H. discriminate H.
Defined.

(** C2, as stated, fails: a TTL of one second is not raised to 60. *)
Lemma C2_counterexample :
  exists r w',
    Manager.createSession Ex.env
      (Ex.opts "https://api.example.com/v1" Scope.prefix (Some 1) Ex.sig_ok) Ex.w0
    = (Normal r, w')
    /\ SessionRecord.expiresAt r = SessionRecord.createdAt r + 1
    /\ SessionRecord.expiresAt r
       <> SessionRecord.createdAt r + Spec.clamp 1 60 2592000.
Proof.
  eexists. eexists. split; [vm_compute; reflexivity|].
  split; [reflexivity | vm_compute; discriminate].
Qed.

(** C3 (the code departs from the claim).  With one active prefix-scope
    session on [/v1] in the table, [findSessionForUrl] returns it for a
    URL under the sibling path [/v10]: its test is a bare [startsWith].
    The URL is not covered in the sense of the specification, nor in
    the sense of [isUrlCoveredBySession], which does look for the
    separator. *)
Theorem C3_findSessionForUrl_matches_sibling_path :
  Manager.findSessionForUrl "https://api.example.com/v10/users" Ex.w1
  = (Normal (Some Ex.s1), Ex.w1)
  /\ SessionRecord.scope Ex.s1 = Scope.prefix
  /\ Spec.prefix_covers (SessionRecord.endpoint Ex.s1)
       "https://api.example.com/v10/users" = false
  /\ SessionTools.isUrlCoveredBySession "https://api.example.com/v10/users"
       (SessionRecord.endpoint Ex.s1) (SessionRecord.scope Ex.s1) = false.
Proof. repeat split. Qed.

(** C4 (amended).  Once [endSession(id)] has returned [true], then after
    any sequence of calls on the table that draws no identifier equal to
    [id], and at any time from the epoch on, [lookupSession(id)] reports
    the session expired, unless a call that prunes -- [createSession] or
    [listActiveSessions] -- is among them, and only then may it not find
    the record; with no such call in between it finds it, expired.  It
    never reports it active.  Once [listActiveSessions] has run at a time
    from the epoch on, the lookup does not find it any more; and
    [listActiveSessions()] holds no record of that identifier. *)
Theorem C4_ended_session_stays_inactive (env : Env) (id : string)
  (w0 w1 : World) (cs : list Call) :
  store_ok (store w0) ->
  Manager.endSession id w0 = (Normal true, w1) ->
  (forall n, (drawn w0 <= n)%nat -> uuid env n <> id) ->
  0 <= clock (exec_all env cs w1) ->
  let w2 := exec_all env cs w1 in
  ((exists s, Manager.lookupSession id w2 = (Normal (Found s true), w2))
   \/ (Manager.lookupSession id w2 = (Normal NotFound, w2)
       /\ existsb prunes cs = true))
  /\ (forall cs1 cs2,
        cs = (cs1 ++ ListActiveSessions :: cs2)%list ->
        0 <= clock (exec_all env cs1 w1) ->
        Manager.lookupSession id w2 = (Normal NotFound, w2))
  /\ exists l w3,
       Manager.listActiveSessions w2 = (Normal l, w3)
       /\ forall s, In s l -> SessionRecord.sessionId s <> id.
Proof.
  intros Hok Hend Hfresh Hclock w2.
  destruct (@StoreFacts.endSession_inv id w0 w1 Hok Hend) as (Hok1 & He1 & Hd).
  assert (forall n, (drawn w1 <= n)%nat -> uuid env n <> id) as Hfresh1.
  { rewrite Hd. exact Hfresh. }
  destruct (@StoreFacts.exec_all_inv env id cs w1 Hok1 He1 Hfresh1) as [Hok2 He2].
  split; [|split].
  - destruct (existsb prunes cs) eqn:Hp.
    + destruct (@StoreFacts.ended_lookup id w2 He2 Hclock) as [Hn|Hf]; auto.
    + left. assert (exists s, JsMap.get (store w1) id = Some s
                              /\ SessionRecord.expiresAt s = 0) as Hk.
      { revert Hend. unfold Manager.endSession, bind, get_store.
        destruct (JsMap.get (store w0) id) as [s0|]; cbn; [|discriminate].
        intros H; injection H as <-. cbn [store].
        rewrite JsMapFacts.get_set_same. eexists. split; reflexivity. }
      destruct (@EndedFacts.exec_all_keeps env id cs w1 Hp Hk) as (s & Hs & He).
      exists s. subst w2. unfold Manager.lookupSession, bind, get_store.
      rewrite Hs. cbn. rewrite He.
      assert (0 <= clock (exec_all env cs w1) / 1000)
        by (apply Z.div_pos; [exact Hclock | lia]).
      now replace (clock (exec_all env cs w1) / 1000 >=? 0) with true by lia.
  - intros cs1 cs2 -> Hc1.
    pose proof (@EndedFacts.listed_gone env id cs1 cs2 w1 Hok1 He1 Hfresh1 Hc1) as Hg.
    subst w2. unfold Manager.lookupSession, bind, get_store.
    now rewrite Hg.
  - now apply StoreFacts.ended_list.
Qed.

Lemma C4_ended_session_stays_inactive_witness :
  let w1 := snd (Manager.endSession Ex.id2 Ex.w2) in
  let quiet :=
    exec_all Ex.env
      [ FindSessionForUrl "https://api.example.com/v1/users";
        Wait 5000;
        RecordSessionCall Ex.id2;
        LookupSession Ex.id2 ] w1 in
  let busy :=
    exec_all Ex.env
      [ FindSessionForUrl "https://api.example.com/v1/users";
        CreateSession (Ex.opts "https://api.example.com/v2" Scope.exact None Ex.sig_ok);
        Wait 5000;
        RecordSessionCall Ex.id2 ] w1 in
  let listed :=
    exec_all Ex.env [ Wait 5000; ListActiveSessions; LookupSession Ex.id2 ] w1 in
  Manager.endSession Ex.id2 Ex.w2 = (Normal true, w1)
  /\ (exists s, Manager.lookupSession Ex.id2 quiet = (Normal (Found s true), quiet))
  /\ Manager.lookupSession Ex.id2 busy = (Normal NotFound, busy)
  /\ Manager.lookupSession Ex.id2 listed = (Normal NotFound, listed)
  /\ exists l w3,
       Manager.listActiveSessions busy = (Normal l, w3)
       /\ forall s, In s l -> SessionRecord.sessionId s <> Ex.id2.
Proof.
  assert (store_ok (store Ex.w2)) as Hok.
  { split.
    - repeat constructor. simpl. tauto.
    - simpl. intros k s [H|[]]. injection H as <- <-. reflexivity. }
  assert (forall n, (drawn Ex.w2 <= n)%nat -> uuid Ex.env n <> Ex.id2) as Hf.
  { intros n _. simpl. discriminate. }
  split; [reflexivity|]. split; [|split; [|split]].
  - destruct (@C4_ended_session_stays_inactive Ex.env Ex.id2 Ex.w2 _
                [ FindSessionForUrl "https://api.example.com/v1/users";
                  Wait 5000;
                  RecordSessionCall Ex.id2;
                  LookupSession Ex.id2 ] Hok eq_refl Hf)
      as ([H|[_ H]] & _); [vm_compute; discriminate | exact H | discriminate H].
  - destruct (@C4_ended_session_stays_inactive Ex.env Ex.id2 Ex.w2 _
                [ FindSessionForUrl "https://api.example.com/v1/users";
                  CreateSession
                    (Ex.opts "https://api.example.com/v2" Scope.exact None Ex.sig_ok);
                  Wait 5000;
                  RecordSessionCall Ex.id2 ] Hok eq_refl Hf)
      as ([[s H]|[H _]] & _); [vm_compute; discriminate | | exact H].
    vm_compute in H. discriminate H.
  - destruct (@C4_ended_session_stays_inactive Ex.env Ex.id2 Ex.w2 _
                [ Wait 5000; ListActiveSessions; LookupSession Ex.id2 ] Hok eq_refl Hf)
      as (_ & H & _); [vm_compute; discriminate|].
    apply (H [Wait 5000] [LookupSession Ex.id2] eq_refl). vm_compute. discriminate.
  - destruct (@C4_ended_session_stays_inactive Ex.env Ex.id2 Ex.w2 _
                [ FindSessionForUrl "https://api.example.com/v1/users";
                  CreateSession
                    (Ex.opts "https://api.example.com/v2" Scope.exact None Ex.sig_ok);
                  Wait 5000;
                  RecordSessionCall Ex.id2 ] Hok eq_refl Hf)
      as (_ & _ & H); [vm_compute; discriminate | exact H].
Defined.

(** C4, as stated, fails: after [endSession] and a listing, which
    prunes, the lookup no longer finds the session. *)
Lemma C4_counterexample :
  exists w2 l w3,
    Manager.endSession Ex.id1 Ex.w1 = (Normal true, w2)
    /\ Manager.listActiveSessions w2 = (Normal l, w3)
    /\ Manager.lookupSession Ex.id1 w3 = (Normal NotFound, w3).
Proof.
  eexists. eexists. eexists.
  split; [vm_compute; reflexivity|]. split; [vm_compute; reflexivity|].
  reflexivity.
Qed.

(** C5 (amended).  For every token payload [p] and every signature that
    contains no dot, decoding the token built from them -- the base64url
    of the canonical JSON of [p], a dot, the signature -- is not null, its
    payload is the object of section 6 and reads back as [p] field for
    field, and its signature is the one given.  Every record that
    [createSession] returns with this payload and this signature carries
    exactly this token, whatever its label: the label is no part of it. *)
Theorem C5_token_round_trip (p : SessionTokenPayload.t) (signature : string) :
  Str.mem "." signature = false ->
  (exists payload,
      Manager.decodeSessionToken
        (Base64url.encode (Manager.canonicalise (SessionTokenPayload.to_object p))
           ++ "." ++ signature)
      = Normal (Some (Manager.mkDecoded payload signature))
      /\ payload = JSON.JObj (Spec.canonical_fields p)
      /\ SessionTokenPayload.of_value payload = Some p)
  /\ (forall env opts w r w',
         Manager.createSession env opts w = (Normal r, w') ->
         Manager.payload_of opts (SessionRecord.sessionId r)
           (SessionRecord.createdAt r) (SessionRecord.expiresAt r) = p ->
         SessionRecord.signature r = signature ->
         SessionRecord.sessionToken r
         = Base64url.encode (Manager.canonicalise (SessionTokenPayload.to_object p))
             ++ "." ++ signature).
Proof.
  intros Hs. split.
  - eexists. split; [now apply CodecFacts.decode_token|].
    split; [reflexivity | apply CodecFacts.of_value_canonical].
  - intros env opts w r w' H Hp Hsig.
    rewrite (@ManagerFacts.createSession_token env opts w w' r H). now rewrite Hp, Hsig.
Qed.

Lemma C5_token_round_trip_witness :
  Str.mem "." "0xsig" = false
  /\ exists payload,
       Manager.decodeSessionToken
         (Base64url.encode
            (Manager.canonicalise (SessionTokenPayload.to_object Ex.payload))
            ++ "." ++ "0xsig")
       = Normal (Some (Manager.mkDecoded payload "0xsig"))
       /\ payload = JSON.JObj (Spec.canonical_fields Ex.payload)
       /\ SessionTokenPayload.of_value payload = Some Ex.payload.
Proof.
  split; [reflexivity|].
  exact (proj1 (@C5_token_round_trip Ex.payload "0xsig" eq_refl)).
Defined.

(** C5, as stated, fails: with a signer whose signature contains a dot,
    the token of the record that [createSession] returns decodes to
    null. *)
Lemma C5_counterexample :
  exists r w',
    Manager.createSession Ex.env
      (Ex.opts "https://api.example.com/v1" Scope.prefix None Ex.sig_dot) Ex.w0
    = (Normal r, w')
    /\ SessionRecord.signature r = "0xab.cd"
    /\ Manager.decodeSessionToken (SessionRecord.sessionToken r) = Normal None.
Proof.
  eexists. eexists. split; [vm_compute; reflexivity|].
  split; [reflexivity | vm_compute; reflexivity].
Qed.

(** C6.  Whenever the table holds an active exact-scope session whose
    endpoint is the URL, [findSessionForUrl] returns an active
    exact-scope session with that endpoint -- that very session when it
    is the only such one -- whatever prefix-scope sessions cover the URL
    and wherever in the table they stand. *)
Theorem C6_exact_match_preferred (w : World) (url : string) (e : SessionRecord.t) :
  In e (JsMap.values (store w)) ->
  Spec.active (clock w / 1000) e ->
  SessionRecord.scope e = Scope.exact ->
  SessionRecord.endpoint e = url ->
  exists r,
    Manager.findSessionForUrl url w = (Normal (Some r), w)
    /\ In r (JsMap.values (store w))
    /\ Spec.active (clock w / 1000) r
    /\ SessionRecord.scope r = Scope.exact
    /\ SessionRecord.endpoint r = url
    /\ ((forall e',
            In e' (JsMap.values (store w)) -> Spec.active (clock w / 1000) e' ->
            SessionRecord.scope e' = Scope.exact -> SessionRecord.endpoint e' = url ->
            e' = e) ->
        r = e).
Proof.
  intros Hin Hact Hs He.
  assert (In e (Manager.active_at (clock w / 1000) (store w))) as Ha.
  { apply FindFacts.active_at_in. now split. }
  destruct (@FindFacts.find_in_exact url _ e Ha Hs He) as (r & Hf & Hr & Hrs & Hre).
  apply FindFacts.active_at_in in Hr. destruct Hr as [Hr1 Hr2].
  exists r. rewrite FindFacts.findSessionForUrl_eq, Hf.
  repeat split; auto.
Qed.

Lemma C6_exact_match_preferred_witness :
  In Ex.s_exact (JsMap.values (store Ex.w4))
  /\ Spec.active (clock Ex.w4 / 1000) Ex.s_exact
  /\ exists r,
       Manager.findSessionForUrl "https://api.example.com/v1/users" Ex.w4
       = (Normal (Some r), Ex.w4)
       /\ SessionRecord.scope r = Scope.exact
       /\ SessionRecord.endpoint r = "https://api.example.com/v1/users".
Proof.
  assert (In Ex.s_exact (JsMap.values (store Ex.w4))) as Hin.
  { simpl. right. left. reflexivity. }
  assert (Spec.active (clock Ex.w4 / 1000) Ex.s_exact) as Hact.
  { vm_compute. reflexivity. }
  split; [exact Hin|]. split; [exact Hact|].
  destruct (@C6_exact_match_preferred Ex.w4 "https://api.example.com/v1/users"
              Ex.s_exact Hin Hact eq_refl eq_refl)
    as (r & H1 & _ & _ & H2 & H3 & _).
  exists r. repeat split; assumption.
Defined.

(** C7.  Whenever the initial request of [x402_session_start] completes
    -- the payment client's [fetch] resolves and the body is read --
    without any payment having been made, the handler returns, without
    error, a text that says that no payment was required and that no
    session token is needed; the session table is left as it was and no
    identifier is drawn: no record is created. *)
Theorem C7_free_endpoint_creates_no_session (env : Env)
  (input : X402SessionStartInput.t) (w : World) (config : ClawPayConfig)
  (cap : option Z) (p : Promise Response) (track : PaymentTrack)
  (response : Response) (body : string) :
  getWallet env = Normal tt ->
  getConfig env = Normal config ->
  Tool.parse_cap env (X402SessionStartInput.max_payment_eth input) w = (Normal cap, w) ->
  run_client (SessionTools.start_onBeforePayment input cap)
             SessionTools.start_onPaymentComplete
             (x402 env (List.length (paid w)) cap (SessionTools.start_request input))
             Tool.no_payment
  = (p, track) ->
  settled p = Normal response ->
  settled (text response) = Normal body ->
  paymentMade track = false ->
  exists r w',
    SessionTools.handleX402SessionStart env input w = (Normal r, w')
    /\ store w' = store w
    /\ drawn w' = drawn w
    /\ isError r = false
    /\ Str.includes (content r) "No Payment Required"
    /\ Str.includes (content r) "You do not need a session token".
Proof.
  intros Hw Hc Hcap Hrun Hp Ht Hpaid.
  eexists. eexists. split.
  - exact (@StartFacts.start_without_payment env input w config cap p track response
             body Hw Hc Hcap Hrun Hp Ht Hpaid).
  - cbn [store drawn isError content]. repeat split;
      apply StartFacts.no_payment_text_says.
Qed.

Lemma C7_free_endpoint_creates_no_session_witness :
  paymentMade Tool.no_payment = false
  /\ exists r w',
       SessionTools.handleX402SessionStart Ex.env Ex.start_input Ex.w0 = (Normal r, w')
       /\ store w' = store Ex.w0
       /\ drawn w' = drawn Ex.w0
       /\ isError r = false
       /\ Str.includes (content r) "No Payment Required"
       /\ Str.includes (content r) "You do not need a session token".
Proof.
  split; [reflexivity|].
  exact (@C7_free_endpoint_creates_no_session Ex.env Ex.start_input Ex.w0
           (mkConfig "0xwallet" 8453) None (resolved Ex.ok200) Tool.no_payment
           Ex.ok200 "ok" eq_refl eq_refl eq_refl eq_refl eq_refl eq_refl eq_refl).
Defined.

(** C8.  [x402_session_fetch] validates in this order: an unknown
    identifier fails with "Session not found"; a known but expired
    session fails with "Session Expired", whatever the URL; an active
    session that does not cover the URL fails with "URL not covered by
    this session".  In each of the three cases the world is left exactly
    as it was: no HTTP request is attempted.  Only for an active session
    that covers the URL is a request sent, one, to that URL.  An
    exact-scope session covers its endpoint and no other URL. *)
Theorem C8_fetch_validation_order (env : Env) (input : X402SessionFetchInput.t)
  (w : World) :
  let id := X402SessionFetchInput.session_id input in
  let url := X402SessionFetchInput.url input in
  let out := SessionTools.handleX402SessionFetch env input w in
  let fails_saying (what : string) :=
    snd out = w
    /\ exists r, fst out = Normal r /\ isError r = true
                 /\ Str.includes (content r) what in
  match JsMap.get (store w) id with
  | None => fails_saying "Session not found"
  | Some s =>
      if clock w / 1000 >=? SessionRecord.expiresAt s
      then fails_saying "Session Expired"
      else if SessionTools.isUrlCoveredBySession url (SessionRecord.endpoint s)
                (SessionRecord.scope s)
      then exists init, fetched (snd out) = init :: fetched w /\ req_url init = url
      else fails_saying "URL not covered by this session"
  end
  /\ forall endpoint,
       SessionTools.isUrlCoveredBySession url endpoint Scope.exact = true
       <-> url = endpoint.
Proof.
  cbv zeta. split; [|intros endpoint; apply String.eqb_eq].
  destruct (JsMap.get (store w) (X402SessionFetchInput.session_id input)) as [s|] eqn:Hg.
  - destruct (clock w / 1000 >=? SessionRecord.expiresAt s) eqn:He.
    + destruct (@SessionFetchFacts.expired env input w s Hg He) as (r & -> & H1 & H2).
      split; [reflexivity | now exists r].
    + destruct (SessionTools.isUrlCoveredBySession _ _ _) eqn:Hc.
      * pose proof (@SessionFetchFacts.covered env input w s Hg He Hc) as H.
        cbv zeta in H.
        exists (Tool.session_request s (X402SessionFetchInput.url input)
                  (X402SessionFetchInput.method input)
                  (X402SessionFetchInput.headers input)
                  (X402SessionFetchInput.body input)
                  (match X402SessionFetchInput.timeout_ms input with
                   | Some t => t
                   | None => 30000
                   end)).
        split; [|reflexivity].
        destruct (settled (remote env _ _)) as [response|e].
        -- destruct (settled (text response)) as [body|e].
           ++ destruct H as (r & -> & _). reflexivity.
           ++ rewrite H, ToolFacts.on_error_world. reflexivity.
        -- rewrite H, ToolFacts.on_error_world. reflexivity.
      * destruct (@SessionFetchFacts.not_covered env input w s Hg He Hc) as (r & -> & H1 & H2).
        split; [reflexivity | now exists r].
  - destruct (@SessionFetchFacts.not_found env input w Hg) as (r & -> & H1 & H2).
    split; [reflexivity | now exists r].
Qed.

(** C9.  [decodeSessionToken] is total and never throws: on every input
    it returns what Decode of the specification returns -- null when
    there is no dot, and otherwise, with the token split at its last dot,
    null when the part before it does not parse as JSON once
    base64url-decoded, and else the parsed value with the part after the
    dot as the signature. *)
Theorem C9_decodeSessionToken_total (t : string) :
  Manager.decodeSessionToken t = Normal (Spec.Decode t)
  /\ match Spec.split_last "." t with
     | None => Str.mem "." t = false /\ Spec.Decode t = None
     | Some (first, signature) =>
         t = first ++ "." ++ signature
         /\ Str.mem "." signature = false
         /\ Spec.Decode t
            = match JSON.parse (Base64url.decode first) with
              | Some payload => Some (Manager.mkDecoded payload signature)
              | None => None
              end
     end.
Proof.
  split; [apply decodeSessionToken_Decode|].
  unfold Spec.Decode.
  destruct (Spec.split_last "." t) as [[first signature]|] eqn:E.
  - apply StrFacts.split_last_some in E. destruct E as [-> Hm].
    repeat split. exact Hm.
  - split; [now apply StrFacts.split_last_none | reflexivity].
Qed.

(** C10.  Whenever the injected [signMessage] rejects the canonical
    payload, [createSession] fails with the same error and the session
    table is exactly as it was: nothing is inserted and nothing is
    pruned. *)
Theorem C10_createSession_sign_rejects (env : Env) (opts : CreateSessionOptions.t)
  (w : World) (e : Exn) :
  settled
    (CreateSessionOptions.signMessage opts
       (Manager.canonicalise
          (SessionTokenPayload.to_object
             (Manager.payload_of opts (uuid env (drawn w)) (clock w / 1000)
                (clock w / 1000 + Manager.ttl_of env opts)))))
  = Throw e ->
  exists w',
    Manager.createSession env opts w = (Throw e, w')
    /\ store w' = store w
    /\ JsMap.get (store w') (uuid env (drawn w)) = JsMap.get (store w) (uuid env (drawn w)).
Proof.
  intros H. pose proof (ManagerFacts.createSession_cases env opts w) as Hc.
  cbv zeta in Hc. rewrite H in Hc. rewrite Hc.
  eexists. repeat split.
Qed.

Lemma C10_createSession_sign_rejects_witness :
  exists w',
    Manager.createSession Ex.env
      (Ex.opts "https://api.example.com/v1" Scope.prefix None Ex.sig_fail) Ex.w3
    = (Throw (mkExn "Error" "user rejected the signature request"), w')
    /\ store w' = store Ex.w3.
Proof.
  destruct (@C10_createSession_sign_rejects Ex.env
              (Ex.opts "https://api.example.com/v1" Scope.prefix None Ex.sig_fail)
              Ex.w3 (mkExn "Error" "user rejected the signature request") eq_refl)
    as (w' & H1 & H2 & _).
  exists w'. split; assumption.
Defined.

Module ListFacts.

(** What [listActiveSessions] returns and leaves, on a table without
    duplicate identifiers. *)
Lemma listActiveSessions_filter (w : World) :
  NoDup (JsMap.keys (store w)) ->
  Manager.listActiveSessions w
  = (Normal (JsMap.values
               (filter (fun e => SessionRecord.expiresAt (snd e) >? clock w / 1000)
                       (store w))),
     mkWorld (filter (fun e => SessionRecord.expiresAt (snd e) >? clock w / 1000) (store w))
             (clock w) (drawn w) (fetched w) (paid w))
  /\ JsMap.values
       (filter (fun e => SessionRecord.expiresAt (snd e) >? clock w / 1000) (store w))
     = Manager.active_at (clock w / 1000) (store w).
Proof.
  intros Hnd. split.
  - unfold Manager.listActiveSessions, Manager.pruneExpired, bind, now_seconds,
      get_store, put_store, ret. cbn [store clock drawn fetched paid].
    rewrite PruneFacts.prune_at_filter by exact Hnd.
    rewrite PruneFacts.active_at_filter.
    now rewrite <- (PruneFacts.values_filter (clock w / 1000) (store w)).
  - apply PruneFacts.values_filter.
Qed.

End ListFacts.

(** X2.  On a table without duplicate identifiers, [listActiveSessions]
    returns the records with [expiresAt > now], in insertion order, and
    leaves in the table exactly the entries of these records: the
    expired ones are deleted, the others are untouched. *)
Theorem X2_listActiveSessions_prunes (w : World) :
  NoDup (JsMap.keys (store w)) ->
  let now := clock w / 1000 in
  let kept := filter (fun e => SessionRecord.expiresAt (snd e) >? now) (store w) in
  Manager.listActiveSessions w
  = (Normal (JsMap.values kept),
     mkWorld kept (clock w) (drawn w) (fetched w) (paid w))
  /\ JsMap.values kept
     = filter (fun s => SessionRecord.expiresAt s >? now) (JsMap.values (store w)).
Proof.
  intros Hnd now kept. split.
  - unfold Manager.listActiveSessions, Manager.pruneExpired, bind, now_seconds,
      get_store, put_store, ret. cbn [store clock drawn fetched paid].
    fold now. rewrite PruneFacts.prune_at_filter by exact Hnd. fold kept.
    unfold kept at 1. rewrite PruneFacts.active_at_filter.
    now rewrite <- (PruneFacts.values_filter now (store w)).
  - apply PruneFacts.values_filter.
Qed.

Lemma X2_listActiveSessions_prunes_witness :
  NoDup (JsMap.keys (store Ex.w3))
  /\ Manager.listActiveSessions Ex.w3
     = (Normal [], mkWorld [] (clock Ex.w3) (drawn Ex.w3) [] []).
Proof.
  assert (NoDup (JsMap.keys (store Ex.w3))) as H.
  { repeat constructor. simpl. tauto. }
  split; [exact H|]. exact (proj1 (X2_listActiveSessions_prunes Ex.w3 H)).
Defined.

(** X3.  Insert, then look up.  After a successful [createSession] on a
    table without duplicate identifiers, the table is the old one with
    the new record set under its identifier, minus every entry that has
    expired by the time the signer has answered; a lookup of the new
    identifier finds the returned record, not expired, unless the record
    itself has expired by then (a TTL of zero or less, or a signer slower
    than the TTL), in which case it is already gone. *)
Theorem X3_createSession_then_lookup (env : Env) (opts : CreateSessionOptions.t)
  (w w' : World) (r : SessionRecord.t) :
  NoDup (JsMap.keys (store w)) ->
  Manager.createSession env opts w = (Normal r, w') ->
  let now' := clock w' / 1000 in
  store w'
  = filter (fun e => SessionRecord.expiresAt (snd e) >? now')
           (JsMap.set (store w) (SessionRecord.sessionId r) r)
  /\ Manager.lookupSession (SessionRecord.sessionId r) w'
     = (Normal (if SessionRecord.expiresAt r >? now' then Found r false else NotFound),
        w').
Proof.
  intros Hnd H now'.
  assert (store w' = filter (fun e => SessionRecord.expiresAt (snd e) >? now')
                       (JsMap.set (store w) (SessionRecord.sessionId r) r)) as Hs.
  { pose proof (ManagerFacts.createSession_cases env opts w) as Hc.
    cbv zeta in Hc. destruct (settled _) as [sg|e] in Hc; rewrite Hc in H; [|discriminate].
    injection H as <- <-. unfold now'. cbn [store clock SessionRecord.sessionId].
    apply PruneFacts.prune_at_filter. now apply JsMapFacts.set_nodup. }
  split; [exact Hs|]. now apply (@TableFacts.lookup_after_set (store w)).
Qed.

Lemma X3_createSession_then_lookup_witness :
  exists r w',
    Manager.createSession Ex.env
      (Ex.opts "https://api.example.com/v2" Scope.exact None Ex.sig_ok) Ex.w3
    = (Normal r, w')
    /\ Manager.lookupSession (SessionRecord.sessionId r) w' = (Normal (Found r false), w')
    /\ JsMap.keys (store w') = [Ex.id1].
Proof.
  destruct (Manager.createSession Ex.env
              (Ex.opts "https://api.example.com/v2" Scope.exact None Ex.sig_ok) Ex.w3)
    as [[r|e] w'] eqn:H.
  - exists r, w'. split; [reflexivity|].
    assert (NoDup (JsMap.keys (store Ex.w3))) as Hnd.
    { repeat constructor. simpl. tauto. }
    destruct (@X3_createSession_then_lookup Ex.env _ Ex.w3 w' r Hnd H) as [H1 H2].
    vm_compute in H. injection H as <- <-. split; [exact H2 | reflexivity].
  - vm_compute in H. discriminate H.
Defined.

Module TameFacts.
Import Tool.

Section WithEnv.
Variable env : Env.

Lemma moves_trans (w1 w2 w3 : World) :
  moves env w1 w2 -> moves env w2 w3 -> moves env w1 w3.
Proof.
  induction 1 as [|w1 w2 w2' Hm _ IH]; [auto|].
  intros H. eapply moves_step; [exact Hm | now apply IH].
Qed.

Lemma moves_one (w w' : World) : move env w w' -> moves env w w'.
Proof. intros H. eapply moves_step; [exact H | apply moves_refl]. Qed.

Lemma tame_still (A : Type) (m : M A) :
  (forall w, store (snd (m w)) = store w /\ drawn (snd (m w)) = drawn w) ->
  tame env m.
Proof. intros H w. apply moves_one. apply move_none; apply H. Qed.

Lemma tame_ret (A : Type) (a : A) : tame env (ret a).
Proof. intros w. apply moves_refl. Qed.

Lemma tame_throw (A : Type) (e : Exn) : tame env (@throw A e).
Proof. intros w. apply moves_refl. Qed.

Lemma tame_lift (A : Type) (c : Completion A) : tame env (lift c).
Proof. intros w. apply moves_refl. Qed.

Lemma tame_await (A : Type) (p : Promise A) : tame env (await p).
Proof. apply tame_still. intros w. split; reflexivity. Qed.

Lemma tame_now : tame env now_seconds.
Proof. intros w. apply moves_refl. Qed.

Lemma tame_get_store : tame env get_store.
Proof. intros w. apply moves_refl. Qed.

Lemma tame_bind (A B : Type) (m : M A) (f : A -> M B) :
  tame env m -> (forall a, tame env (f a)) -> tame env (bind m f).
Proof.
  intros Hm Hf w. unfold bind. specialize (Hm w).
  destruct (m w) as [[a|e] w1]; cbn [snd] in Hm |- *; [|exact Hm].
  eapply moves_trans; [exact Hm | apply Hf].
Qed.

Lemma tame_catch (A : Type) (m : M A) (h : Exn -> M A) :
  tame env m -> (forall e, tame env (h e)) -> tame env (catch m h).
Proof.
  intros Hm Hh w. unfold catch. specialize (Hm w).
  destruct (m w) as [[a|e] w1]; cbn [snd] in Hm |- *; [exact Hm|].
  eapply moves_trans; [exact Hm | apply Hh].
Qed.

Lemma tame_forget (A : Type) (m : M A) : tame env m -> tame env (forget m).
Proof. intros H. apply tame_bind; [exact H | intros a; apply tame_ret]. Qed.

Lemma tame_fetch (r : Request) : tame env (fetch env r).
Proof. apply tame_still. intros w. split; reflexivity. Qed.

Lemma tame_x402Client_fetch cap onB onC (r : Request) (t : PaymentTrack) :
  tame env (x402Client_fetch env cap onB onC r t).
Proof. apply tame_still. intros w. apply PayFacts.x402Client_fetch_store. Qed.

Lemma tame_parse_cap (s : option string) : tame env (parse_cap env s).
Proof.
  apply tame_still. intros w. now rewrite ToolFacts.parse_cap_world.
Qed.

Lemma tame_on_error (tool : string) (t : option Z) (e : Exn) :
  tame env (on_error tool t e).
Proof.
  apply tame_still. intros w. now rewrite ToolFacts.on_error_world.
Qed.

(** ** The session manager *)

Lemma tame_lookupSession (id : string) : tame env (Manager.lookupSession id).
Proof.
  intros w. unfold Manager.lookupSession, bind, get_store, now_seconds, ret.
  destruct (JsMap.get (store w) id); apply moves_refl.
Qed.

Lemma tame_recordSessionCall (id : string) : tame env (Manager.recordSessionCall id).
Proof.
  intros w. unfold Manager.recordSessionCall, bind, get_store, now_seconds, put_store, ret.
  destruct (JsMap.get (store w) id) as [s|] eqn:E; [|apply moves_refl].
  apply moves_one. eapply move_use; [exact E | reflexivity | reflexivity].
Qed.

Lemma tame_endSession (id : string) : tame env (Manager.endSession id).
Proof.
  intros w. unfold Manager.endSession, bind, get_store, put_store, ret.
  destruct (JsMap.get (store w) id) as [s|] eqn:E; [|apply moves_refl].
  apply moves_one. eapply move_end; [exact E | reflexivity | reflexivity].
Qed.

Lemma tame_pruneExpired : tame env Manager.pruneExpired.
Proof.
  intros w. apply moves_one. eapply move_prune; reflexivity.
Qed.

Lemma tame_listActiveSessions : tame env Manager.listActiveSessions.
Proof.
  intros w. apply moves_one. eapply move_prune; reflexivity.
Qed.

Lemma tame_listAllSessions : tame env Manager.listAllSessions.
Proof. intros w. apply moves_refl. Qed.

Lemma tame_findSessionForUrl (url : string) : tame env (Manager.findSessionForUrl url).
Proof. intros w. apply moves_refl. Qed.

Lemma tame_getStoreSize : tame env Manager.getStoreSize.
Proof. intros w. apply moves_refl. Qed.

Lemma tame_createSession (opts : CreateSessionOptions.t) :
  tame env (Manager.createSession env opts).
Proof.
  intros w. pose proof (ManagerFacts.createSession_cases env opts w) as H.
  cbv zeta in H. destruct (settled _) as [sg|e] in H; rewrite H; cbn [snd];
    apply moves_one.
  - match goal with
    | |- move _ _ (mkWorld (Manager.prune_at ?t (JsMap.set _ _ ?r)) _ _ _ _) =>
        apply (@move_create env w _ r t); reflexivity
    end.
  - now apply move_draw.
Qed.

End WithEnv.

Create HintDb tame.

#[export] Hint Resolve tame_ret tame_throw tame_lift tame_await tame_now tame_get_store
  tame_fetch tame_x402Client_fetch tame_parse_cap tame_on_error
  tame_lookupSession tame_recordSessionCall tame_endSession tame_pruneExpired
  tame_listActiveSessions tame_listAllSessions tame_findSessionForUrl
  tame_getStoreSize tame_createSession : tame.

(** Breaks a computation down to the calls above. *)
Ltac tame :=
  repeat first
    [ progress auto with tame
    | apply tame_bind; [|intros ?]
    | apply tame_catch; [|intros ?]
    | apply tame_forget
    | match goal with
      | |- tame _ (match ?x with _ => _ end) => destruct x
      | |- tame _ (if ?x then _ else _) => destruct x
      | |- tame _ (let '(_, _) := ?x in _) => destruct x
      end ].

Section Handlers.
Variable env : Env.
Variable ttlProgressBar : Z -> Z -> string.
Variable Number_toString : Z -> Z -> string.

Lemma tame_handleX402SessionStart (input : X402SessionStartInput.t) :
  tame env (SessionTools.handleX402SessionStart env input).
Proof. unfold SessionTools.handleX402SessionStart. tame. Qed.

Lemma tame_handleX402SessionFetch (input : X402SessionFetchInput.t) :
  tame env (SessionTools.handleX402SessionFetch env input).
Proof. unfold SessionTools.handleX402SessionFetch. cbv zeta. tame. Qed.

Lemma tame_handleX402SessionStatus (input : X402SessionStatusInput.t) :
  tame env (SessionAdmin.handleX402SessionStatus env ttlProgressBar Number_toString input).
Proof. unfold SessionAdmin.handleX402SessionStatus. cbv zeta. tame. Qed.

Lemma tame_handleX402SessionEnd (input : X402SessionEndInput.t) :
  tame env (SessionAdmin.handleX402SessionEnd input).
Proof. unfold SessionAdmin.handleX402SessionEnd. cbv zeta. tame. Qed.

Lemma tame_handleX402Pay (input : X402PayInput.t) :
  tame env (X402Tool.handleX402Pay env input).
Proof.
  unfold X402Tool.handleX402Pay, X402Tool.auto_session, X402Tool.payment_flow.
  cbv zeta. tame.
Qed.

Lemma tame_happen (e : Event) :
  tame env (happen env ttlProgressBar Number_toString e).
Proof.
  destruct e as [c|c].
  - apply tame_forget. destruct c; cbn [call_tool].
    + apply tame_handleX402Pay.
    + apply tame_handleX402SessionStart.
    + apply tame_handleX402SessionFetch.
    + apply tame_handleX402SessionStatus.
    + apply tame_handleX402SessionEnd.
  - destruct c; cbn [happen exec]; tame.
Qed.

Lemma moves_run (es : list Event) (w : World) :
  moves env w (run env ttlProgressBar Number_toString es w).
Proof.
  revert w. induction es as [|e es IH]; intros w; [apply moves_refl|].
  cbn [run]. eapply moves_trans; [apply tame_happen | apply IH].
Qed.

End Handlers.

End TameFacts.

Module InvFacts.
Import JsMapFacts PruneFacts TableFacts.

Lemma get_prune (t : Z) (m : JsMap.t SessionRecord.t) (id : string) (s : SessionRecord.t) :
  NoDup (JsMap.keys m) ->
  JsMap.get (Manager.prune_at t m) id = Some s ->
  JsMap.get m id = Some s /\ SessionRecord.expiresAt s > t.
Proof.
  intros Hnd. rewrite prune_at_filter, get_filter by exact Hnd.
  destruct (JsMap.get m id) as [s0|]; [|discriminate]. cbn [snd].
  destruct (Z.gtb_spec (SessionRecord.expiresAt s0) t) as [Hlt|Hge]; [|discriminate].
  intros E; injection E as <-. split; [reflexivity | lia].
Qed.

Lemma same_refl (s : SessionRecord.t) : same_session s s.
Proof. unfold same_session. repeat split; first [reflexivity | lia | now left]. Qed.

Lemma same_use (t : Z) (s s1 : SessionRecord.t) :
  same_session s s1 -> same_session s (SessionRecord.use t s1).
Proof.
  unfold same_session. cbn. intros H. repeat split; try apply H.
  destruct H as (_ & _ & _ & _ & _ & _ & _ & _ & _ & _ & _ & _ & Hc & _). lia.
Qed.

Lemma same_end (s s1 : SessionRecord.t) :
  same_session s s1 -> same_session s (SessionRecord.set_expiresAt 0 s1).
Proof.
  unfold same_session. cbn. intros H. repeat split; try apply H. now right.
Qed.

Section WithEnv.
Variable env : Env.

Lemma move_store_ok (w w' : World) :
  move env w w' -> store_ok (store w) -> store_ok (store w').
Proof.
  intros Hm Hok. destruct Hm as [Hs _|id s t Hg Hs _|id s Hg Hs _|t Hs _|Hs _|r t Hr _ Hs _];
    rewrite Hs.
  - exact Hok.
  - apply StoreFacts.store_ok_set; [exact Hok|]. cbn.
    destruct Hok as [_ Hk]. apply Hk. now apply get_in.
  - apply StoreFacts.store_ok_set; [exact Hok|]. cbn.
    destruct Hok as [_ Hk]. apply Hk. now apply get_in.
  - now apply store_ok_prune.
  - exact Hok.
  - apply store_ok_prune. now apply StoreFacts.store_ok_set.
Qed.

Lemma move_drawn (w w' : World) : move env w w' -> (drawn w <= drawn w')%nat.
Proof. intros [ ]; lia. Qed.

Lemma move_ended (id : string) (w w' : World) :
  move env w w' -> store_ok (store w) -> ended id (store w) ->
  (forall n, (drawn w <= n)%nat -> uuid env n <> id) ->
  ended id (store w').
Proof.
  intros Hm Hok He Hfresh.
  destruct Hm as [Hs _|k s t Hg Hs _|k s Hg Hs _|t Hs _|Hs _|r t Hr _ Hs _]; rewrite Hs.
  - exact He.
  - unfold ended in *. destruct (String.eqb_spec k id) as [->|Hn].
    + rewrite get_set_same. rewrite Hg in He. exact He.
    + now rewrite get_set_other.
  - unfold ended in *. destruct (String.eqb_spec k id) as [->|Hn].
    + rewrite get_set_same. reflexivity.
    + now rewrite get_set_other.
  - now apply StoreFacts.prune_at_inv.
  - exact He.
  - apply StoreFacts.prune_at_inv.
    + now apply StoreFacts.store_ok_set.
    + apply StoreFacts.ended_set_other; [|exact He].
      rewrite Hr. apply Hfresh. lia.
Qed.

Lemma move_same (id : string) (s : SessionRecord.t) (w w' : World) :
  move env w w' -> store_ok (store w) ->
  (forall n, (drawn w <= n)%nat -> uuid env n <> id) ->
  (forall s1, JsMap.get (store w) id = Some s1 -> same_session s s1) ->
  forall s1, JsMap.get (store w') id = Some s1 -> same_session s s1.
Proof.
  intros Hm Hok Hfresh Hsame s1.
  destruct Hm as [Hs _|k s0 t Hg Hs _|k s0 Hg Hs _|t Hs _|Hs _|r t Hr _ Hs _]; rewrite Hs.
  - apply Hsame.
  - destruct (String.eqb_spec k id) as [->|Hn].
    + rewrite get_set_same. intros H; injection H as <-. apply same_use. now apply Hsame.
    + rewrite get_set_other by exact Hn. apply Hsame.
  - destruct (String.eqb_spec k id) as [->|Hn].
    + rewrite get_set_same. intros H; injection H as <-. apply same_end. now apply Hsame.
    + rewrite get_set_other by exact Hn. apply Hsame.
  - intros H. apply get_prune in H; [|apply Hok]. now apply Hsame.
  - apply Hsame.
  - intros H. apply get_prune in H; [|apply set_nodup, Hok].
    destruct H as [H _]. rewrite get_set_other in H; [now apply Hsame|].
    rewrite Hr. apply Hfresh. lia.
Qed.

Lemma moves_store_ok (w w' : World) :
  moves env w w' -> store_ok (store w) -> store_ok (store w').
Proof.
  induction 1 as [|w1 w2 w3 Hm _ IH]; [auto|].
  intros Hok. apply IH. now apply (move_store_ok Hm).
Qed.

Lemma moves_ended (id : string) (w w' : World) :
  moves env w w' -> store_ok (store w) -> ended id (store w) ->
  (forall n, (drawn w <= n)%nat -> uuid env n <> id) ->
  ended id (store w').
Proof.
  induction 1 as [|w1 w2 w3 Hm _ IH]; [auto|].
  intros Hok He Hfresh. apply IH.
  - now apply (move_store_ok Hm).
  - now apply (move_ended Hm).
  - intros n Hn. apply Hfresh. pose proof (move_drawn Hm). lia.
Qed.

Lemma moves_same (id : string) (s : SessionRecord.t) (w w' : World) :
  moves env w w' -> store_ok (store w) ->
  (forall n, (drawn w <= n)%nat -> uuid env n <> id) ->
  (forall s1, JsMap.get (store w) id = Some s1 -> same_session s s1) ->
  forall s1, JsMap.get (store w') id = Some s1 -> same_session s s1.
Proof.
  induction 1 as [|w1 w2 w3 Hm _ IH]; [auto|].
  intros Hok Hfresh Hsame. apply IH.
  - now apply (move_store_ok Hm).
  - intros n Hn. apply Hfresh. pose proof (move_drawn Hm). lia.
  - now apply (move_same Hm).
Qed.

End WithEnv.

End InvFacts.

(* ================================================================== *)
(** * Further properties: the session table under the tools *)
(* ================================================================== *)

(** X1.  In every state that tool calls and calls of the session manager
    reach from an empty table, in any number and order, no identifier
    occurs twice in the table and every record is stored under its own
    identifier: looking up the [sessionId] of a stored record finds that
    record. *)
Theorem X1_reachable_table_in_order (env : Env)
  (ttlProgressBar Number_toString : Z -> Z -> string) (es : list Event)
  (clock0 : Z) (drawn0 : nat) (log1 log2 : list Request) :
  let w := run env ttlProgressBar Number_toString es
             (mkWorld [] clock0 drawn0 log1 log2) in
  store_ok (store w)
  /\ forall s, In s (JsMap.values (store w)) ->
               JsMap.get (store w) (SessionRecord.sessionId s) = Some s.
Proof.
  cbv zeta.
  match goal with |- store_ok (store ?w) /\ _ => assert (store_ok (store w)) as Hok end.
  { eapply InvFacts.moves_store_ok; [apply TameFacts.moves_run|].
    split; [constructor | intros k s []]. }
  split; [exact Hok|]. intros s Hin. destruct Hok as [Hnd Hk].
  unfold JsMap.values in Hin. apply in_map_iff in Hin. destruct Hin as [[k s'] [E Hin]].
  simpl in E. subst s'. rewrite (Hk _ _ Hin). now apply JsMapFacts.in_get.
Qed.

(** X4.  Closing is final.  Let [x402_session_end] be called on a stored
    session that is still active, in a table in order, and let no later
    identifier drawn equal the session's.  The call reports the session
    closed, without an error.  After any later sequence of tool calls and
    manager calls, at any time from the epoch on: [x402_session_fetch]
    with this identifier returns an error and leaves the world as it is,
    so that no request is sent; [findSessionForUrl], by which [x402_pay]
    attaches sessions, never returns this session; and a second
    [x402_session_end] changes nothing. *)
Theorem X4_closed_session_stays_closed (env : Env)
  (ttlProgressBar Number_toString : Z -> Z -> string)
  (id : string) (s : SessionRecord.t) (w0 : World) :
  store_ok (store w0) ->
  JsMap.get (store w0) id = Some s ->
  clock w0 / 1000 < SessionRecord.expiresAt s ->
  (forall n, (drawn w0 <= n)%nat -> uuid env n <> id) ->
  exists r w1,
    SessionAdmin.handleX402SessionEnd (X402SessionEndInput.mk id) w0 = (Normal r, w1)
    /\ isError r = false
    /\ Str.includes (content r) "Session Closed"
    /\ forall es,
         let w2 := run env ttlProgressBar Number_toString es w1 in
         0 <= clock w2 ->
         (forall input, X402SessionFetchInput.session_id input = id ->
            exists r', SessionTools.handleX402SessionFetch env input w2 = (Normal r', w2)
                       /\ isError r' = true)
         /\ (forall url r', Manager.findSessionForUrl url w2 = (Normal (Some r'), w2) ->
               SessionRecord.sessionId r' <> id)
         /\ exists r', SessionAdmin.handleX402SessionEnd (X402SessionEndInput.mk id) w2
                       = (Normal r', w2).
Proof.
  intros Hok Hget Hact Hfresh.
  set (w1 := mkWorld (JsMap.set (store w0) id (SessionRecord.set_expiresAt 0 s))
                     (clock w0) (drawn w0) (fetched w0) (paid w0)).
  assert (SessionAdmin.handleX402SessionEnd (X402SessionEndInput.mk id) w0
          = (Normal (mkResult
               ("✅ **Session Closed**" ++ Tool.nl ++ Tool.nl
                  ++ "  Session ID: " ++ SessionRecord.sessionId s ++ Tool.nl
                  ++ "  Endpoint:   " ++ SessionRecord.endpoint s ++ Tool.nl
                  ++ "  Calls made: " ++ Str.of_Z (SessionRecord.callCount s)
                  ++ Tool.nl ++ Tool.nl
                  ++ "The session has been closed and can no longer be used." ++ Tool.nl
                  ++ "Use x402_session_start to establish a new session when needed.")
               false), w1)) as Hend.
  { unfold SessionAdmin.handleX402SessionEnd, catch, bind, Manager.lookupSession,
      Manager.endSession, bind, get_store, now_seconds, put_store, ret.
    cbn [X402SessionEndInput.session_id]. rewrite Hget.
    destruct (Z.geb_spec (clock w0 / 1000) (SessionRecord.expiresAt s)) as [Hge|_]; [lia|].
    rewrite Hget. reflexivity. }
  eexists. exists w1. split; [exact Hend|]. split; [reflexivity|].
  split; [exists "✅ **"; eexists; reflexivity|].
  intros es w2 Hclock.
  assert (store_ok (store w1)) as Hok1.
  { apply StoreFacts.store_ok_set; [exact Hok|]. cbn.
    destruct Hok as [_ Hk]. apply Hk. now apply JsMapFacts.get_in. }
  assert (ended id (store w1)) as He1.
  { unfold ended. cbn [store w1]. now rewrite JsMapFacts.get_set_same. }
  assert (store_ok (store w2)) as Hok2.
  { eapply InvFacts.moves_store_ok; [apply TameFacts.moves_run | exact Hok1]. }
  assert (ended id (store w2)) as He2.
  { eapply InvFacts.moves_ended; [apply TameFacts.moves_run | exact Hok1 | exact He1 |].
    exact Hfresh. }
  assert (0 <= clock w2 / 1000) as Hnow by (apply Z.div_pos; lia).
  split; [|split].
  - intros input <-. unfold ended in He2.
    destruct (JsMap.get (store w2) (X402SessionFetchInput.session_id input)) as [s2|] eqn:E.
    + destruct (@SessionFetchFacts.expired env input w2 s2 E) as (r' & H1 & H2 & _).
      { rewrite He2. destruct (Z.geb_spec (clock w2 / 1000) 0); [reflexivity | lia]. }
      now exists r'.
    + destruct (@SessionFetchFacts.not_found env input w2 E) as (r' & H1 & H2 & _).
      now exists r'.
  - intros url r' H. rewrite FindFacts.findSessionForUrl_eq in H.
    injection H as H. apply FindFacts.find_in_sound in H. destruct H as [Hin _].
    apply FindFacts.active_at_in in Hin. destruct Hin as [Hin Ha].
    intros Hid. unfold JsMap.values in Hin. apply in_map_iff in Hin.
    destruct Hin as [[k s'] [E Hin]]. simpl in E. subst s'.
    destruct Hok2 as [Hnd Hk]. pose proof (Hk _ _ Hin) as Hkey.
    apply (JsMapFacts.in_get _ _ _ Hnd) in Hin. rewrite <- Hkey, Hid in Hin.
    unfold ended in He2. rewrite Hin in He2. unfold Spec.active in Ha. lia.
  - unfold SessionAdmin.handleX402SessionEnd, catch, bind, Manager.lookupSession,
      bind, get_store, now_seconds, ret.
    cbn [X402SessionEndInput.session_id]. unfold ended in He2.
    destruct (JsMap.get (store w2) id) as [s2|]; [|eexists; reflexivity].
    rewrite He2. destruct (Z.geb_spec (clock w2 / 1000) 0); [|lia].
    eexists; reflexivity.
Qed.

Lemma X4_closed_session_stays_closed_witness :
  exists r w1,
    SessionAdmin.handleX402SessionEnd (X402SessionEndInput.mk Ex.id2) Ex.w2 = (Normal r, w1)
    /\ isError r = false
    /\ let w2 := run Ex.env Ex2.bar Ex2.num Ex2.day w1 in
       exists r', SessionTools.handleX402SessionFetch Ex.env
                    (X402SessionFetchInput.mk Ex.id2 "https://api.example.com/v1/items"
                       None None None None) w2 = (Normal r', w2)
                  /\ isError r' = true.
Proof.
  assert (store_ok (store Ex.w2)) as Hok.
  { split.
    - repeat constructor. simpl. tauto.
    - simpl. intros k s [H|[]]. injection H as <- <-. reflexivity. }
  destruct (@X4_closed_session_stays_closed Ex.env Ex2.bar Ex2.num Ex.id2 _ Ex.w2 Hok
              eq_refl)
    as (r & w1 & H1 & H2 & _ & H3).
  - vm_compute. reflexivity.
  - intros n _. simpl. discriminate.
  - exists r, w1. split; [exact H1|]. split; [exact H2|].
    cbv zeta. apply (H3 Ex2.day).
    + injection H1 as _ <-. vm_compute. discriminate.
    + reflexivity.
Defined.

(** X5.  What a stored session keeps.  From a table in order, through any
    sequence of tool calls and manager calls that draws no identifier
    equal to [id], the record found under [id] -- as long as one is found
    -- is the record that was there at the start in every field but
    three: its identifier, endpoint, scope, wallet, creation time,
    payment and signed token are the same, its count of calls has not
    gone down, and its expiry is the same or was set to zero by a
    closing.  No tool rewrites, renews or replaces a session. *)
Theorem X5_stored_session_is_stable (env : Env)
  (ttlProgressBar Number_toString : Z -> Z -> string)
  (es : list Event) (w : World) (id : string) (s s' : SessionRecord.t) :
  store_ok (store w) ->
  (forall n, (drawn w <= n)%nat -> uuid env n <> id) ->
  JsMap.get (store w) id = Some s ->
  JsMap.get (store (run env ttlProgressBar Number_toString es w)) id = Some s' ->
  same_session s s'.
Proof.
  intros Hok Hfresh Hget Hget'.
  eapply (@InvFacts.moves_same env id s w); [apply TameFacts.moves_run | exact Hok | exact Hfresh | | exact Hget'].
  intros s1 H. rewrite Hget in H. injection H as <-. apply InvFacts.same_refl.
Qed.

Lemma X5_stored_session_is_stable_witness :
  exists s',
    JsMap.get (store (run Ex.env Ex2.bar Ex2.num Ex2.day Ex.w2)) Ex.id2 = Some s'
    /\ SessionRecord.callCount s' = 2
    /\ same_session (Ex.session Ex.id2 "https://api.example.com/v1" Scope.prefix 1003600) s'.
Proof.
  destruct (JsMap.get (store (run Ex.env Ex2.bar Ex2.num Ex2.day Ex.w2)) Ex.id2)
    as [s'|] eqn:E.
  - exists s'. split; [reflexivity|]. split.
    + vm_compute in E. injection E as <-. reflexivity.
    + apply (@X5_stored_session_is_stable Ex.env Ex2.bar Ex2.num Ex2.day Ex.w2 Ex.id2).
      * split.
        -- repeat constructor. simpl. tauto.
        -- simpl. intros k s [H|[]]. injection H as <- <-. reflexivity.
      * intros n _. simpl. discriminate.
      * reflexivity.
      * exact E.
  - vm_compute in E. discriminate E.
Defined.

(** X6.  The five tools never throw: whatever the wallet, the servers,
    the payment client and the signer do, each call completes normally
    with a tool result (an error is reported inside the result). *)
Theorem X6_tools_never_throw (env : Env)
  (ttlProgressBar Number_toString : Z -> Z -> string) (c : ToolCall) (w : World) :
  exists r w', call_tool env ttlProgressBar Number_toString c w = (Normal r, w').
Proof.
  assert (forall (m : M ToolResult) (h : Exn -> M ToolResult),
             (forall e w1, exists r w', h e w1 = (Normal r, w')) ->
             exists r w', catch m h w = (Normal r, w')) as Hcatch.
  { intros m h Hh. unfold catch. destruct (m w) as [[r|e] w1]; [now exists r, w1|].
    apply Hh. }
  destruct c as [input|input|input|input|input]; cbn [call_tool].
  - apply Hcatch. intros e w1.
    destruct (ToolFacts.on_error_normal "x402_pay" (X402PayInput.timeout_ms input) e w1)
      as (r & H & _). now exists r, w1.
  - apply Hcatch. intros e w1.
    destruct (ToolFacts.on_error_normal "x402_session_start"
                (X402SessionStartInput.timeout_ms input) e w1) as (r & H & _).
    now exists r, w1.
  - apply Hcatch. intros e w1.
    destruct (ToolFacts.on_error_normal "x402_session_fetch"
                (X402SessionFetchInput.timeout_ms input) e w1) as (r & H & _).
    now exists r, w1.
  - apply Hcatch. intros e w1. eexists. eexists. reflexivity.
  - apply Hcatch. intros e w1. eexists. eexists. reflexivity.
Qed.

Module CountFacts.
Import JsMapFacts.

Lemma record_known (id : string) (s : SessionRecord.t) (w : World) :
  JsMap.get (store w) id = Some s ->
  Manager.recordSessionCall id w
  = (Normal tt,
     mkWorld (JsMap.set (store w) id (SessionRecord.use (clock w / 1000) s))
             (clock w) (drawn w) (fetched w) (paid w)).
Proof.
  intros H. unfold Manager.recordSessionCall, bind, get_store, now_seconds, put_store.
  now rewrite H.
Qed.

Lemma record_unknown (id : string) (w : World) :
  JsMap.get (store w) id = None -> Manager.recordSessionCall id w = (Normal tt, w).
Proof.
  intros H. unfold Manager.recordSessionCall, bind, get_store. now rewrite H.
Qed.

End CountFacts.

(* ================================================================== *)
(** * Further properties: the session manager *)
(* ================================================================== *)

(** X7.  [findSessionForUrl] is sound and complete, and reads only.  It
    leaves the world as it is (it does not prune).  A session it returns
    is in the table, has [expiresAt > now], and matches the URL: scope
    exact with the endpoint equal to the URL, or scope prefix with the
    endpoint a string prefix of the URL.  It returns [undefined] only
    when no session of the table with [expiresAt > now] matches the URL
    in this sense. *)
Theorem X7_findSessionForUrl_sound_complete (url : string) (w : World) :
  let now := clock w / 1000 in
  let matches s :=
    (SessionRecord.scope s = Scope.exact /\ SessionRecord.endpoint s = url)
    \/ (SessionRecord.scope s = Scope.prefix
        /\ Str.startsWith url (SessionRecord.endpoint s) = true) in
  exists res,
    Manager.findSessionForUrl url w = (Normal res, w)
    /\ match res with
       | Some r =>
           In r (JsMap.values (store w)) /\ now < SessionRecord.expiresAt r /\ matches r
       | None =>
           forall s, In s (JsMap.values (store w)) ->
                     now < SessionRecord.expiresAt s -> ~ matches s
       end.
Proof.
  cbv zeta. rewrite FindFacts.findSessionForUrl_eq. eexists. split; [reflexivity|].
  destruct (Manager.find_in url _) as [r|] eqn:E.
  - apply FindFacts.find_in_sound in E. destruct E as [Hin Hm].
    apply FindFacts.active_at_in in Hin. destruct Hin as [Hin Ha].
    split; [exact Hin|]. split; [exact Ha | exact Hm].
  - intros s Hin Ha Hm.
    assert (In s (Manager.active_at (clock w / 1000) (store w))) as Hin'.
    { apply FindFacts.active_at_in. now split. }
    unfold Manager.find_in in E.
    destruct (find _ (Manager.active_at _ _)) as [x|] eqn:E1; [discriminate|].
    destruct (find (fun s0 => Scope.eqb (SessionRecord.scope s0) Scope.prefix && _)
                   (Manager.active_at _ _)) as [x|] eqn:E2; [discriminate|].
    pose proof (find_none _ _ E1 s Hin') as H1.
    pose proof (find_none _ _ E2 s Hin') as H2.
    cbv beta in H1, H2.
    destruct Hm as [[Hs He]|[Hs He]].
    + rewrite Hs, He, String.eqb_refl in H1. discriminate.
    + rewrite Hs, He in H2. discriminate.
Qed.

(** X8.  Counting uses.  [recordSessionCall] on an identifier that is not
    in the table changes nothing.  On a stored session it counts, expired
    or not: after [n] calls, with any waits in between, the record under
    the identifier has a count of calls [n] higher, and the same expiry
    (a use neither extends nor shortens a session) and the same other
    fields; the identifiers of the table, and their order, are the
    same. *)
Theorem X8_recordSessionCall_counts (env : Env) (id : string) (ds : list Z) (w : World) :
  let w' := exec_all env (flat_map (fun d => [Wait d; RecordSessionCall id]) ds) w in
  match JsMap.get (store w) id with
  | None => store w' = store w
  | Some s =>
      exists s',
        JsMap.get (store w') id = Some s'
        /\ SessionRecord.callCount s' = SessionRecord.callCount s + Z.of_nat (List.length ds)
        /\ SessionRecord.expiresAt s' = SessionRecord.expiresAt s
        /\ same_session s s'
        /\ JsMap.keys (store w') = JsMap.keys (store w)
  end.
Proof.
  cbv zeta. revert w. induction ds as [|d ds IH]; intros w.
  - cbn [flat_map exec_all]. destruct (JsMap.get (store w) id) as [s|] eqn:E; [|reflexivity].
    exists s. split; [reflexivity|]. split; [cbn [List.length]; lia|].
    split; [reflexivity|]. split; [apply InvFacts.same_refl | reflexivity].
  - cbn [flat_map].
    change ([Wait d; RecordSessionCall id] ++ ?l)%list
      with (Wait d :: RecordSessionCall id :: l).
    cbn [exec_all exec].
    set (w1 := snd (await (mkPromise d (Normal tt)) w)).
    assert (store w1 = store w) as Hs1 by reflexivity.
    destruct (JsMap.get (store w) id) as [s|] eqn:E.
    + rewrite (@CountFacts.record_known id s w1) by (now rewrite Hs1).
      cbn [snd]. specialize (IH (mkWorld (JsMap.set (store w1) id
                                  (SessionRecord.use (clock w1 / 1000) s))
                                  (clock w1) (drawn w1) (fetched w1) (paid w1))).
      cbn [store] in IH. rewrite JsMapFacts.get_set_same in IH.
      destruct IH as (s' & H1 & H2 & H3 & H4 & H5).
      exists s'. split; [exact H1|]. split; [|split; [exact H3|split]].
      * rewrite H2. cbn [SessionRecord.callCount SessionRecord.use List.length]. lia.
      * unfold same_session in *. cbn in H4. repeat split; try apply H4.
        destruct H4 as (_ & _ & _ & _ & _ & _ & _ & _ & _ & _ & _ & _ & Hc & _). lia.
      * rewrite H5, Hs1. eapply TableFacts.keys_set_present. exact E.
    + rewrite (@CountFacts.record_unknown id w1) by (now rewrite Hs1).
      cbn [snd]. specialize (IH w1). rewrite Hs1, E in IH. now rewrite IH.
Qed.

Module HeaderFacts.
Import JsMapFacts Tool.

Lemma get_spread (acc src : JsMap.t string) (k : string) :
  NoDup (JsMap.keys src) ->
  JsMap.get (spread acc src) k
  = match JsMap.get src k with
    | Some v => Some v
    | None => JsMap.get acc k
    end.
Proof.
  unfold spread. revert acc. induction src as [|[k0 v0] src IH]; intros acc Hnd.
  - reflexivity.
  - inversion Hnd as [|? ? Hni Hnd']; subst. cbn [fold_left]. rewrite IH by exact Hnd'.
    cbn [JsMap.get]. destruct (String.eqb_spec k0 k) as [->|Hn].
    + rewrite (get_none_not_in _ _ Hni). apply get_set_same.
    + destruct (JsMap.get src k); [reflexivity|]. now apply get_set_other.
Qed.

Lemma get_with_content_type (body : option string) (method : string)
  (h : JsMap.t string) (k : string) :
  JsMap.get (with_content_type body method h) k
  = if String.eqb k "Content-Type" && (truthy body && has_body_method method)
       && negb (truthy (JsMap.get h "Content-Type"))
    then Some "application/json"
    else JsMap.get h k.
Proof.
  unfold with_content_type.
  destruct (truthy body); destruct (has_body_method method);
    cbn [andb]; rewrite ?andb_false_r; try reflexivity.
  rewrite !andb_true_r.
  destruct (truthy (JsMap.get h "Content-Type")); cbn [negb].
  - now rewrite andb_false_r.
  - rewrite andb_true_r. destruct (String.eqb_spec k "Content-Type") as [->|Hn].
    + apply get_set_same.
    + apply get_set_other. congruence.
Qed.

End HeaderFacts.

(* ================================================================== *)
(** * Further properties: the requests of the session tools *)
(* ================================================================== *)

(** X9.  The headers of a session-authenticated request, as
    [x402_session_fetch] and the auto-session path of [x402_pay] send it.
    A header the caller passes is sent with the caller's value, whatever
    its name: a caller's [X-Session-Token], [X-Session-Wallet] or
    [PAYMENT-SESSION] replaces the session's (the one exception is an
    empty [Content-Type] on a request with a body and a method POST, PUT
    or PATCH, which becomes [application/json]).  Where the caller passes
    no header of that name, the three session headers carry the token,
    the wallet and the identifier of the session, [Accept] has its
    default, [Content-Type] is [application/json] on a request with a
    body and such a method, and no other header is sent. *)
Theorem X9_session_request_headers (s : SessionRecord.t) (url : string)
  (method : option string) (headers : option (JsMap.t string))
  (body : option string) (timeoutMs : Z) (k : string) :
  let h := match headers with Some h => h | None => [] end in
  let with_body :=
    Tool.truthy body
    && Tool.has_body_method (match method with Some m => m | None => "GET" end) in
  NoDup (JsMap.keys h) ->
  JsMap.get (req_headers (Tool.session_request s url method headers body timeoutMs)) k
  = match JsMap.get h k with
    | Some v =>
        if String.eqb k "Content-Type" && String.eqb v "" && with_body
        then Some "application/json" else Some v
    | None =>
        if String.eqb k "X-Session-Token" then Some (SessionRecord.sessionToken s)
        else if String.eqb k "X-Session-Wallet" then Some (SessionRecord.walletAddress s)
        else if String.eqb k "PAYMENT-SESSION" then Some (SessionRecord.sessionId s)
        else if String.eqb k "Accept" then Some "application/json, text/plain, */*"
        else if String.eqb k "Content-Type" && with_body then Some "application/json"
        else None
    end.
Proof.
  intros h with_body Hnd. unfold Tool.session_request, Tool.requestInit.
  cbn [req_headers]. fold h. rewrite HeaderFacts.get_with_content_type.
  rewrite !HeaderFacts.get_spread by
    (first [exact Hnd | repeat constructor; simpl; intuition discriminate]).
  fold with_body.
  assert (JsMap.get (Manager.buildSessionHeaders s) "Content-Type" = None) as Hs
    by reflexivity.
  assert (JsMap.get Tool.accept_header "Content-Type" = None) as Ha by reflexivity.
  rewrite Hs, Ha.
  destruct (String.eqb_spec k "Content-Type") as [->|Hn].
  - cbn [andb]. destruct (JsMap.get h "Content-Type") as [v|]; cbn [Tool.truthy].
    + destruct (String.eqb v ""), with_body; reflexivity.
    + now destruct with_body.
  - cbn [andb]. destruct (JsMap.get h k) as [v|]; [reflexivity|].
    unfold Manager.buildSessionHeaders, Manager.SESSION_TOKEN_HEADER,
      Manager.SESSION_WALLET_HEADER, Manager.PAYMENT_SESSION_HEADER, Tool.accept_header.
    cbn [JsMap.get].
    rewrite (String.eqb_sym "X-Session-Token"), (String.eqb_sym "X-Session-Wallet"),
      (String.eqb_sym "PAYMENT-SESSION"), (String.eqb_sym "Accept").
    destruct (String.eqb k "X-Session-Token"); [reflexivity|].
    destruct (String.eqb k "X-Session-Wallet"); [reflexivity|].
    destruct (String.eqb k "PAYMENT-SESSION"); [reflexivity|].
    destruct (String.eqb k "Accept"); reflexivity.
Qed.

Lemma X9_session_request_headers_witness :
  let sent :=
    req_headers
      (Tool.session_request Ex.s1 "https://api.example.com/v1/users" (Some "POST")
         (Some [("X-Session-Token", "forged"); ("X-Trace", "1")]) (Some "{}") 30000) in
  JsMap.get sent "X-Session-Token" = Some "forged"
  /\ JsMap.get sent "PAYMENT-SESSION" = Some Ex.id1
  /\ JsMap.get sent "Content-Type" = Some "application/json".
Proof.
  assert (NoDup (JsMap.keys [("X-Session-Token", "forged"); ("X-Trace", "1")])) as Hnd.
  { repeat constructor; simpl; intuition discriminate. }
  cbv zeta. split; [|split].
  - exact (@X9_session_request_headers Ex.s1 "https://api.example.com/v1/users"
             (Some "POST") (Some [("X-Session-Token", "forged"); ("X-Trace", "1")])
             (Some "{}") 30000 "X-Session-Token" Hnd).
  - reflexivity.
  - reflexivity.
Defined.

(** X10.  What a session covers, in [x402_session_fetch].  With scope
    exact, the endpoint itself and nothing else.  With scope prefix, the
    URLs made of the endpoint and a rest that is empty, or starts with a
    slash or a question mark, or is anything when the endpoint ends in a
    slash.  In both scopes the endpoint is a string prefix of a covered
    URL, so that the prefix test of [findSessionForUrl] accepts every URL
    that is covered (it accepts more). *)
Theorem X10_isUrlCoveredBySession_iff (url endpoint : string) (scope : Scope.t) :
  (SessionTools.isUrlCoveredBySession url endpoint scope = true <->
   match scope with
   | Scope.exact => url = endpoint
   | Scope.prefix =>
       exists rest,
         url = endpoint ++ rest
         /\ (rest = "" \/ Str.endsWith endpoint "/" = true
             \/ Str.startsWith rest "/" = true \/ Str.startsWith rest "?" = true)
   end)
  /\ (SessionTools.isUrlCoveredBySession url endpoint scope = true ->
      Str.startsWith url endpoint = true).
Proof.
  assert (SessionTools.isUrlCoveredBySession url endpoint scope = true <->
   match scope with
   | Scope.exact => url = endpoint
   | Scope.prefix =>
       exists rest,
         url = endpoint ++ rest
         /\ (rest = "" \/ Str.endsWith endpoint "/" = true
             \/ Str.startsWith rest "/" = true \/ Str.startsWith rest "?" = true)
   end) as Hiff.
  { unfold SessionTools.isUrlCoveredBySession. destruct scope.
    - rewrite !orb_true_iff, String.eqb_eq, !StrFacts.startsWith_iff. split.
      + intros [[->|[r Hr]]|[r Hr]].
        * exists "". rewrite StrFacts.app_nil_r. auto.
        * destruct (Str.endsWith endpoint "/") eqn:E.
          -- exists r. auto.
          -- exists ("/" ++ r). rewrite Hr, StrFacts.app_assoc. auto.
        * exists ("?" ++ r). rewrite Hr, StrFacts.app_assoc.
          split; [reflexivity|]. right. right. right. reflexivity.
      + intros [rest [-> [->|[E|[H|H]]]]].
        * left. left. apply StrFacts.app_nil_r.
        * left. right. rewrite E. now exists rest.
        * left. right. apply StrFacts.startsWith_iff in H. destruct H as [r ->].
          destruct (Str.endsWith endpoint "/").
          -- now exists ("/" ++ r).
          -- exists r. now rewrite StrFacts.app_assoc.
        * right. apply StrFacts.startsWith_iff in H. destruct H as [r ->].
          exists r. now rewrite StrFacts.app_assoc.
    - apply String.eqb_eq. }
  split; [exact Hiff|]. intros H. apply Hiff in H. destruct scope.
  - destruct H as [rest [-> _]]. apply StrFacts.startsWith_app.
  - subst url. rewrite <- (StrFacts.app_nil_r endpoint) at 1. apply StrFacts.startsWith_app.
Qed.

(* ================================================================== *)
(** * Further properties: the handlers *)
(* ================================================================== *)

(** X11.  [x402_session_start] after a payment.  Let the wallet and the
    configuration be there, the cap parse, the payment client's [fetch]
    resolve with a payment made, and the body be read; let the creation
    time and the TTL add up exactly (safe integers, as the schema's TTLs
    and every time of [Date] are) and the expiry be a time that [Date]
    holds, so that [toISOString] does not throw.  If the signer resolves,
    the tool reports the session established and the table holds, pruned,
    one more record under the identifier just drawn: the endpoint, scope
    and label of the input, the wallet of the configuration, the
    transaction, amount, token and recipient of the payment, no call yet,
    and an expiry that is the creation time plus the TTL.  If the signer
    rejects, the tool returns an error and the table is as before: the
    payment was made, and there is no session. *)
Theorem X11_start_after_payment (env : Env) (input : X402SessionStartInput.t)
  (w : World) (config : ClawPayConfig) (cap : option Z) (p : Promise Response)
  (track : PaymentTrack) (response : Response) (body : string) :
  getWallet env = Normal tt ->
  getConfig env = Normal config ->
  Tool.parse_cap env (X402SessionStartInput.max_payment_eth input) w = (Normal cap, w) ->
  run_client (SessionTools.start_onBeforePayment input cap)
             SessionTools.start_onPaymentComplete
             (x402 env (List.length (paid w)) cap (SessionTools.start_request input))
             Tool.no_payment
  = (p, track) ->
  settled p = Normal response ->
  settled (text response) = Normal body ->
  paymentMade track = true ->
  let sent := SessionTools.start_request input :: paid w in
  let paid_at := clock w + elapsed p + elapsed (text response) in
  let scope :=
    match X402SessionStartInput.scope input with
    | Some s => s
    | None => Scope.prefix
    end in
  let opts :=
    CreateSessionOptions.mk (X402SessionStartInput.endpoint input) (Some scope)
      (X402SessionStartInput.ttl_seconds input) (X402SessionStartInput.label input)
      (trk_txHash track) (trk_amount track) (trk_token track) (trk_recipient track)
      (cfg_walletAddress config) (wallet_signMessage env) in
  let id := uuid env (drawn w) in
  let now := paid_at / 1000 in
  let ttl :=
    match X402SessionStartInput.ttl_seconds input with
    | Some t => t
    | None => Manager.parseTtlFromEnv env
    end in
  let expires := now + ttl in
  Js.adds_exactly now ttl ->
  Js.valid_time expires ->
  let canonical :=
    Manager.canonicalise
      (SessionTokenPayload.to_object (Manager.payload_of opts id now expires)) in
  let sign := wallet_signMessage env canonical in
  match settled sign with
  | Normal sg =>
      let session :=
        SessionRecord.mk id (X402SessionStartInput.endpoint input) scope
          (cfg_walletAddress config) now expires (trk_txHash track)
          (Str.of_Z (trk_amount track)) (trk_token track) (trk_recipient track)
          (Base64url.encode canonical ++ "." ++ sg) sg
          (X402SessionStartInput.label input) 0 now in
      exists r,
        SessionTools.handleX402SessionStart env input w
        = (Normal r,
           mkWorld (Manager.prune_at ((paid_at + elapsed sign) / 1000)
                      (JsMap.set (store w) id session))
                   (paid_at + elapsed sign) (S (drawn w)) (fetched w) sent)
        /\ isError r = false
        /\ Str.includes (content r) "x402 Session Established"
  | Throw e =>
      exists r,
        SessionTools.handleX402SessionStart env input w
        = (Normal r,
           mkWorld (store w) (paid_at + elapsed sign) (S (drawn w)) (fetched w) sent)
        /\ isError r = true
  end.
Proof.
  intros Hw Hc Hcap Hrun Hp Ht Hpaid. cbv zeta. intros _ _.
  match goal with |- match settled ?sgn with _ => _ end => set (S := sgn) end.
  destruct (settled S) as [sg|e] eqn:Es;
    unfold SessionTools.handleX402SessionStart, catch; unfold bind at 1 2 3 4 5;
    unfold lift; rewrite Hw, Hc, Hcap;
    cbv beta iota zeta; unfold Tool.x402Client_fetch; rewrite Hrun;
    unfold await at 1 2; cbn [store clock drawn fetched paid settled]; rewrite Hp;
    cbv beta iota zeta; cbn [settled elapsed store clock drawn fetched paid];
    rewrite Ht, Hpaid; cbn [negb]; unfold bind at 1;
    match goal with
    | |- context [Manager.createSession env ?o ?w1] =>
        pose proof (ManagerFacts.createSession_cases env o w1) as H
    end;
    cbv zeta in H;
    match type of H with match settled ?x with _ => _ end => change x with S in H end;
    rewrite Es in H; rewrite H.
  - unfold bind, now_seconds, ret. eexists. split; [reflexivity|].
    split; [reflexivity|]. cbn [content]. exists "🔐 **". eexists. reflexivity.
  - match goal with
    | |- exists r, Tool.on_error ?t ?o e ?w1 = _ /\ _ =>
        destruct (ToolFacts.on_error_normal t o e w1) as (r & Hr & He)
    end.
    exists r. split; [exact Hr | exact He].
Qed.

Lemma X11_start_after_payment_witness :
  exists r w',
    SessionTools.handleX402SessionStart Ex2.env_paid Ex.start_input Ex.w0 = (Normal r, w')
    /\ isError r = false
    /\ JsMap.keys (store w') = [Ex.id1]
    /\ paid w' = [SessionTools.start_request Ex.start_input].
Proof.
  pose proof (@X11_start_after_payment Ex2.env_paid Ex.start_input Ex.w0
                (mkConfig "0xwallet" 8453) None (resolved Ex.ok200)
                (mkTrack true 100 "0xtx1" "0xrecip"
                   "0x0000000000000000000000000000000000000000")
                Ex.ok200 "ok" eq_refl eq_refl eq_refl eq_refl eq_refl eq_refl eq_refl)
    as H.
  cbv zeta in H.
  assert (Js.adds_exactly (1000000000 / 1000) 3600) as Ha
    by (vm_compute; repeat split; discriminate).
  assert (Js.valid_time (1000000000 / 1000 + 3600)) as Hv
    by (vm_compute; repeat split; discriminate).
  destruct (H Ha Hv) as (r & H1 & H2 & _).
  exists r. eexists. split; [exact H1|]. split; [exact H2|].
  split; vm_compute; reflexivity.
Defined.

Module KeepFacts.
Import Tool.

(** A computation that leaves one observation of the world as it is. *)
Section Observation.
Variable A : Type.
Variable f : World -> A.

Lemma keeps_ret (B : Type) (b : B) : keeps f (ret b).
Proof. intros w. reflexivity. Qed.

Lemma keeps_throw (B : Type) (e : Exn) : keeps f (@throw B e).
Proof. intros w. reflexivity. Qed.

Lemma keeps_lift (B : Type) (c : Completion B) : keeps f (lift c).
Proof. intros w. reflexivity. Qed.

Lemma keeps_now : keeps f now_seconds.
Proof. intros w. reflexivity. Qed.

Lemma keeps_get_store : keeps f get_store.
Proof. intros w. reflexivity. Qed.

Lemma keeps_bind (B C : Type) (m : M B) (k : B -> M C) :
  keeps f m -> (forall b, keeps f (k b)) -> keeps f (bind m k).
Proof.
  intros Hm Hk w. unfold bind. specialize (Hm w).
  destruct (m w) as [[b|e] w1]; cbn [snd] in Hm |- *; [|exact Hm].
  now rewrite Hk.
Qed.

Lemma keeps_catch (B : Type) (m : M B) (h : Exn -> M B) :
  keeps f m -> (forall e, keeps f (h e)) -> keeps f (catch m h).
Proof.
  intros Hm Hh w. unfold catch. specialize (Hm w).
  destruct (m w) as [[b|e] w1]; cbn [snd] in Hm |- *; [exact Hm|].
  now rewrite Hh.
Qed.

Lemma keeps_await (B : Type) (p : Promise B) : ignores_clock f -> keeps f (await p).
Proof. intros Hc [s c d l q]. cbn. apply Hc. Qed.

Lemma keeps_put_store (m : JsMap.t SessionRecord.t) : ignores_store f -> keeps f (put_store m).
Proof. intros Hs [s c d l q]. cbn. apply Hs. Qed.

Lemma keeps_on_error (tool : string) (t : option Z) (e : Exn) : keeps f (on_error tool t e).
Proof. intros w. now rewrite ToolFacts.on_error_world. Qed.

Lemma keeps_parse_cap (env : Env) (s : option string) : keeps f (parse_cap env s).
Proof. intros w. now rewrite ToolFacts.parse_cap_world. Qed.

Lemma keeps_fetch (env : Env) (r : Request) :
  ignores_clock f -> ignores_fetched f -> keeps f (fetch env r).
Proof.
  intros Hc Hf [s c d l q]. unfold fetch, await. cbn.
  rewrite (Hc s _ c d _ q). apply Hf.
Qed.

Lemma keeps_x402Client_fetch (env : Env) cap onB onC (r : Request) (t : PaymentTrack) :
  ignores_clock f -> ignores_paid f -> keeps f (x402Client_fetch env cap onB onC r t).
Proof.
  intros Hc Hp [s c d l q]. unfold x402Client_fetch, await.
  destruct (run_client onB onC _ t) as [p t']. cbn [store clock drawn fetched paid].
  destruct (settled p); cbn [snd]; rewrite (Hc s _ c d l _); apply Hp.
Qed.

Lemma keeps_lookupSession (id : string) : keeps f (Manager.lookupSession id).
Proof.
  intros w. unfold Manager.lookupSession, bind, get_store, now_seconds, ret.
  now destruct (JsMap.get (store w) id).
Qed.

Lemma keeps_findSessionForUrl (url : string) : keeps f (Manager.findSessionForUrl url).
Proof. intros w. reflexivity. Qed.

Lemma keeps_recordSessionCall (id : string) :
  ignores_store f -> keeps f (Manager.recordSessionCall id).
Proof.
  intros Hs [s c d l q].
  unfold Manager.recordSessionCall, bind, get_store, now_seconds, put_store, ret.
  cbn [store]. destruct (JsMap.get s id); cbn; [apply Hs | reflexivity].
Qed.

Lemma keeps_endSession (id : string) : ignores_store f -> keeps f (Manager.endSession id).
Proof.
  intros Hs [s c d l q].
  unfold Manager.endSession, bind, get_store, put_store, ret.
  cbn [store]. destruct (JsMap.get s id); cbn; [apply Hs | reflexivity].
Qed.

Lemma keeps_listActiveSessions : ignores_store f -> keeps f Manager.listActiveSessions.
Proof. intros Hs [s c d l q]. cbn. apply Hs. Qed.

Lemma keeps_createSession (env : Env) (opts : CreateSessionOptions.t) :
  ignores_store f -> ignores_clock f -> ignores_drawn f ->
  keeps f (Manager.createSession env opts).
Proof.
  intros Hs Hc Hd [s c d l q].
  pose proof (ManagerFacts.createSession_cases env opts (mkWorld s c d l q)) as H.
  cbv zeta in H. destruct (settled _) as [sg|e] in H; rewrite H; cbn [snd store clock drawn fetched paid].
  - rewrite (Hs _ s), (Hc s _ c), (Hd s c _ d). reflexivity.
  - rewrite (Hc s _ c), (Hd s c _ d). reflexivity.
Qed.

End Observation.

End KeepFacts.

Create HintDb keep.

#[export] Hint Resolve KeepFacts.keeps_ret KeepFacts.keeps_throw KeepFacts.keeps_lift
  KeepFacts.keeps_now KeepFacts.keeps_get_store KeepFacts.keeps_await
  KeepFacts.keeps_put_store KeepFacts.keeps_on_error KeepFacts.keeps_parse_cap
  KeepFacts.keeps_fetch KeepFacts.keeps_x402Client_fetch KeepFacts.keeps_lookupSession
  KeepFacts.keeps_findSessionForUrl KeepFacts.keeps_recordSessionCall
  KeepFacts.keeps_endSession KeepFacts.keeps_listActiveSessions
  KeepFacts.keeps_createSession : keep.

#[export] Hint Extern 1 (ignores_store _) => intros ? ? ? ? ? ?; reflexivity : keep.
#[export] Hint Extern 1 (ignores_clock _) => intros ? ? ? ? ? ?; reflexivity : keep.
#[export] Hint Extern 1 (ignores_drawn _) => intros ? ? ? ? ? ?; reflexivity : keep.
#[export] Hint Extern 1 (ignores_fetched _) => intros ? ? ? ? ? ?; reflexivity : keep.
#[export] Hint Extern 1 (ignores_paid _) => intros ? ? ? ? ? ?; reflexivity : keep.

(** Breaks a computation down to the calls above. *)
Ltac keep :=
  repeat first
    [ progress auto with keep
    | apply KeepFacts.keeps_bind; [|intros ?]
    | apply KeepFacts.keeps_catch; [|intros ?]
    | match goal with
      | |- keeps _ (match ?x with _ => _ end) => destruct x
      | |- keeps _ (if ?x then _ else _) => destruct x
      | |- keeps _ (let '(_, _) := ?x in _) => destruct x
      end ].

Module EffectFacts.

Section WithEnv.
Variable env : Env.
Variable A : Type.
Variable f : World -> A.

Lemma keeps_payment_flow (input : X402PayInput.t) (config : ClawPayConfig) (t : Z) :
  ignores_clock f -> ignores_paid f ->
  keeps f (X402Tool.payment_flow env input config t).
Proof. intros Hc Hp. unfold X402Tool.payment_flow. cbv zeta. keep. Qed.

Lemma keeps_handleX402SessionFetch (input : X402SessionFetchInput.t) :
  ignores_clock f -> ignores_fetched f -> ignores_store f ->
  keeps f (SessionTools.handleX402SessionFetch env input).
Proof. intros Hc Hf Hs. unfold SessionTools.handleX402SessionFetch. cbv zeta. keep. Qed.

Lemma keeps_handleX402SessionStart (input : X402SessionStartInput.t) :
  ignores_clock f -> ignores_paid f -> ignores_store f -> ignores_drawn f ->
  keeps f (SessionTools.handleX402SessionStart env input).
Proof. intros Hc Hp Hs Hd. unfold SessionTools.handleX402SessionStart. keep. Qed.

Lemma keeps_handleX402Pay (input : X402PayInput.t) :
  ignores_clock f -> ignores_fetched f -> ignores_paid f -> ignores_store f ->
  keeps f (X402Tool.handleX402Pay env input).
Proof.
  intros Hc Hf Hp Hs.
  unfold X402Tool.handleX402Pay, X402Tool.auto_session, X402Tool.payment_flow.
  cbv zeta. keep.
Qed.

Lemma keeps_handleX402SessionEnd (input : X402SessionEndInput.t) :
  ignores_store f -> keeps f (SessionAdmin.handleX402SessionEnd input).
Proof. intros Hs. unfold SessionAdmin.handleX402SessionEnd. cbv zeta. keep. Qed.

Lemma keeps_handleX402SessionStatus (ttlProgressBar Number_toString : Z -> Z -> string)
  (input : X402SessionStatusInput.t) :
  ignores_store f ->
  keeps f (SessionAdmin.handleX402SessionStatus env ttlProgressBar Number_toString input).
Proof. intros Hs. unfold SessionAdmin.handleX402SessionStatus. cbv zeta. keep. Qed.

End WithEnv.

End EffectFacts.

(** X12.  What the tools leave alone, whatever their input and whatever
    the outside does.  [x402_session_fetch] never calls the payment
    client and never draws an identifier: it cannot pay and cannot create
    a session.  [x402_session_start] never calls the global [fetch]: all
    its traffic goes through the payment client.  [x402_pay] never draws
    an identifier: it creates no session.  [x402_session_end] and
    [x402_session_status] send no request of either kind, draw nothing
    and take no time. *)
Theorem X12_tools_side_effects (env : Env)
  (ttlProgressBar Number_toString : Z -> Z -> string) :
  (forall input w,
      let w' := snd (SessionTools.handleX402SessionFetch env input w) in
      paid w' = paid w /\ drawn w' = drawn w)
  /\ (forall input w,
        fetched (snd (SessionTools.handleX402SessionStart env input w)) = fetched w)
  /\ (forall input w,
        drawn (snd (X402Tool.handleX402Pay env input w)) = drawn w)
  /\ (forall input w,
        let w' := snd (SessionAdmin.handleX402SessionEnd input w) in
        clock w' = clock w /\ fetched w' = fetched w /\ paid w' = paid w
        /\ drawn w' = drawn w)
  /\ (forall input w,
        let w' := snd (SessionAdmin.handleX402SessionStatus env ttlProgressBar
                         Number_toString input w) in
        clock w' = clock w /\ fetched w' = fetched w /\ paid w' = paid w
        /\ drawn w' = drawn w).
Proof.
  split; [|split; [|split; [|split]]].
  - intros input w. cbv zeta. split.
    + apply (@EffectFacts.keeps_handleX402SessionFetch env _ paid input); auto with keep.
    + apply (@EffectFacts.keeps_handleX402SessionFetch env _ drawn input); auto with keep.
  - intros input w.
    apply (@EffectFacts.keeps_handleX402SessionStart env _ fetched input); auto with keep.
  - intros input w.
    apply (@EffectFacts.keeps_handleX402Pay env _ drawn input); auto with keep.
  - intros input w. cbv zeta. repeat split.
    + apply (@EffectFacts.keeps_handleX402SessionEnd _ clock input); auto with keep.
    + apply (@EffectFacts.keeps_handleX402SessionEnd _ fetched input); auto with keep.
    + apply (@EffectFacts.keeps_handleX402SessionEnd _ paid input); auto with keep.
    + apply (@EffectFacts.keeps_handleX402SessionEnd _ drawn input); auto with keep.
  - intros input w. cbv zeta. repeat split.
    + apply (@EffectFacts.keeps_handleX402SessionStatus env _ clock); auto with keep.
    + apply (@EffectFacts.keeps_handleX402SessionStatus env _ fetched); auto with keep.
    + apply (@EffectFacts.keeps_handleX402SessionStatus env _ paid); auto with keep.
    + apply (@EffectFacts.keeps_handleX402SessionStatus env _ drawn); auto with keep.
Qed.

(** X13.  [x402_pay] without a session.  When the caller sets
    [skip_session_check], or no active session matches the URL, the
    handler goes to the payment flow at once: with the wallet and the
    configuration there, what it does and returns is what the payment
    flow does and returns from the very state the handler was called in,
    an exception of the flow being turned into an error result; once the
    cap has parsed, one request has gone to the payment client, made of
    the caller's URL, method, headers and body alone.  The global [fetch]
    is not called, so no session header leaves the process, the table is
    as before and no identifier is drawn, whether the payment flow
    succeeds or fails. *)
Theorem X13_pay_without_session (env : Env) (input : X402PayInput.t) (w : World) :
  match X402PayInput.skip_session_check input with
  | Some b => b
  | None => false
  end = true
  \/ Manager.find_in (X402PayInput.url input)
       (Manager.active_at (clock w / 1000) (store w)) = None ->
  let timeoutMs :=
    match X402PayInput.timeout_ms input with
    | Some t => t
    | None => 30000
    end in
  let method :=
    match X402PayInput.method input with
    | Some m => m
    | None => "GET"
    end in
  let init :=
    Tool.requestInit (X402PayInput.url input) method
      (Tool.with_content_type (X402PayInput.body input) method
         (Tool.spread Tool.accept_header
            (match X402PayInput.headers input with
             | Some h => h
             | None => []
             end)))
      (X402PayInput.body input) timeoutMs in
  let w' := snd (X402Tool.handleX402Pay env input w) in
  store w' = store w /\ fetched w' = fetched w /\ drawn w' = drawn w
  /\ forall config,
       getWallet env = Normal tt ->
       getConfig env = Normal config ->
       X402Tool.handleX402Pay env input w
       = catch (X402Tool.payment_flow env input config timeoutMs)
               (Tool.on_error "x402_pay" (X402PayInput.timeout_ms input)) w
       /\ (forall cap,
             Tool.parse_cap env (X402PayInput.max_payment_eth input) w
             = (Normal cap, w) ->
             paid w' = init :: paid w)
       /\ (forall e,
             Tool.parse_cap env (X402PayInput.max_payment_eth input) w
             = (Throw e, w) ->
             paid w' = paid w).
Proof.
  intros H.
  assert (forall config t, X402Tool.auto_session env input config t w
                           = (Normal X402Tool.FallThrough, w)) as Ha.
  { intros config t. unfold X402Tool.auto_session. destruct H as [H|H].
    - rewrite H. reflexivity.
    - destruct (negb _); [|reflexivity]. unfold bind.
      rewrite FindFacts.findSessionForUrl_eq, H. reflexivity. }
  assert (forall (A : Type) (f : World -> A),
             ignores_clock f -> ignores_paid f ->
             f (snd (X402Tool.handleX402Pay env input w)) = f w) as Hkeep.
  { intros A f Hc Hp. unfold X402Tool.handleX402Pay, catch, bind, lift.
    destruct (getWallet env) as [[]|e]; [|now rewrite ToolFacts.on_error_world].
    destruct (getConfig env) as [config|e]; [|now rewrite ToolFacts.on_error_world].
    rewrite Ha.
    match goal with
    | |- context [X402Tool.payment_flow env input config ?t w] =>
        pose proof (@EffectFacts.keeps_payment_flow env A f input config t Hc Hp w) as Hf;
        destruct (X402Tool.payment_flow env input config t w) as [[r|e] w1]
    end; cbn [snd] in Hf |- *; [exact Hf|].
    now rewrite ToolFacts.on_error_world. }
  cbv zeta. split; [|split; [|split]]; try (apply Hkeep; auto with keep).
  intros config Hw Hc.
  assert (X402Tool.handleX402Pay env input w
          = catch (X402Tool.payment_flow env input config
                     match X402PayInput.timeout_ms input with
                     | Some t => t
                     | None => 30000
                     end)
                  (Tool.on_error "x402_pay" (X402PayInput.timeout_ms input)) w) as Heq.
  { unfold X402Tool.handleX402Pay, catch. unfold bind at 1 2 3. unfold lift.
    rewrite Hw, Hc, Ha. reflexivity. }
  split; [exact Heq|]. split.
  - intros cap Hcap. rewrite Heq.
    unfold catch, X402Tool.payment_flow. cbv zeta. unfold bind at 1. rewrite Hcap.
    unfold bind at 1. unfold Tool.x402Client_fetch.
    destruct (run_client _ _ _ _) as [p t']. unfold await at 1.
    cbn [settled elapsed store clock drawn fetched paid].
    destruct (settled p) as [response|e].
    + unfold bind, await, ret. destruct (settled (text response)) as [body|e].
      * reflexivity.
      * now rewrite ToolFacts.on_error_world.
    + now rewrite ToolFacts.on_error_world.
  - intros e Hcap. rewrite Heq.
    unfold catch, X402Tool.payment_flow. cbv zeta. unfold bind at 1. rewrite Hcap.
    now rewrite ToolFacts.on_error_world.
Qed.

Lemma X13_pay_without_session_witness :
  let input :=
    X402PayInput.mk "https://api.example.com/v1/users" None None None None None
      (Some true) in
  let w' := snd (X402Tool.handleX402Pay Ex.env input Ex.w1) in
  store w' = store Ex.w1 /\ fetched w' = fetched Ex.w1 /\ drawn w' = drawn Ex.w1
  /\ X402Tool.handleX402Pay Ex.env input Ex.w1
     = catch (X402Tool.payment_flow Ex.env input (mkConfig "0xwallet" 8453) 30000)
             (Tool.on_error "x402_pay" None) Ex.w1
  /\ paid w'
     = [ Tool.requestInit "https://api.example.com/v1/users" "GET" Tool.accept_header
           None 30000 ].
Proof.
  destruct (@X13_pay_without_session Ex.env
              (X402PayInput.mk "https://api.example.com/v1/users" None None None None
                 None (Some true)) Ex.w1 (or_introl eq_refl))
    as (H1 & H2 & H3 & H4).
  destruct (H4 (mkConfig "0xwallet" 8453) eq_refl eq_refl) as (H5 & H6 & _).
  exact (conj H1 (conj H2 (conj H3 (conj H5 (H6 None eq_refl))))).
Defined.

(** Finds a text that comes after [pre] in one of the pieces of a
    message. *)
Ltac find_text_after pre :=
  first [ solve [ exists pre; eexists; reflexivity ]
        | apply StartFacts.includes_app_r; find_text_after pre ].

(** X14.  [x402_pay] with a session: pay once, then call for free.  In a
    table in order, when an active session matches the URL and the server
    answers the session request with a status other than 402, the handler
    returns the answer without an error and says that the session was
    used; the payment client is not called, so nothing is paid; one
    request went out, with the session's headers; the use is recorded on
    the session, and the count of calls shown is the count after it. *)
Theorem X14_pay_with_session (env : Env) (input : X402PayInput.t) (w : World)
  (config : ClawPayConfig) (s : SessionRecord.t) (response : Response) (body : string) :
  store_ok (store w) ->
  getWallet env = Normal tt ->
  getConfig env = Normal config ->
  match X402PayInput.skip_session_check input with
  | Some b => b
  | None => false
  end = false ->
  Manager.find_in (X402PayInput.url input)
    (Manager.active_at (clock w / 1000) (store w)) = Some s ->
  let init :=
    Tool.session_request s (X402PayInput.url input) (X402PayInput.method input)
      (X402PayInput.headers input) (X402PayInput.body input)
      (match X402PayInput.timeout_ms input with
       | Some t => t
       | None => 30000
       end) in
  let p := remote env (List.length (fetched w)) init in
  settled p = Normal response ->
  status response <> 402 ->
  settled (text response) = Normal body ->
  let later := clock w + elapsed p + elapsed (text response) in
  exists r,
    X402Tool.handleX402Pay env input w
    = (Normal r,
       mkWorld (JsMap.set (store w) (SessionRecord.sessionId s)
                  (SessionRecord.use (later / 1000) s))
               later (drawn w) (init :: fetched w) (paid w))
    /\ isError r = false
    /\ Str.includes (content r) "Session Used"
    /\ Str.includes (content r)
         ("  Calls:      " ++ Str.of_Z (SessionRecord.callCount s + 1)).
Proof.
  intros Hok Hw Hc Hskip Hfound init p Hp Hs Ht later.
  assert (JsMap.get (store w) (SessionRecord.sessionId s) = Some s) as Hget.
  { apply FindFacts.find_in_sound in Hfound. destruct Hfound as [Hin _].
    apply FindFacts.active_at_in in Hin. destruct Hin as [Hin _].
    unfold JsMap.values in Hin. apply in_map_iff in Hin.
    destruct Hin as [[k s'] [E Hin]]. simpl in E. subst s'.
    destruct Hok as [Hnd Hk]. rewrite (Hk _ _ Hin). now apply JsMapFacts.in_get. }
  unfold X402Tool.handleX402Pay, catch. unfold bind at 1 2 3. unfold lift.
  rewrite Hw, Hc. cbv beta iota zeta.
  unfold X402Tool.auto_session. rewrite Hskip. cbn [negb].
  unfold bind at 1. rewrite FindFacts.findSessionForUrl_eq, Hfound.
  cbv beta iota zeta. fold init. unfold bind at 1. unfold Tool.fetch, await.
  fold p. rewrite Hp. cbv beta iota zeta.
  destruct (Z.eqb_spec (status response) 402) as [E|_]; [contradiction|].
  cbn [negb]. unfold bind at 1. cbn [settled elapsed store clock drawn fetched paid].
  rewrite Ht.
  unfold Manager.recordSessionCall, bind, get_store, now_seconds, put_store, ret.
  cbn [store clock drawn fetched paid]. rewrite Hget.
  cbn [store clock drawn fetched paid].
  rewrite JsMapFacts.get_set_same. cbn [SessionRecord.callCount SessionRecord.use].
  eexists. split; [reflexivity|]. split; [reflexivity|]. cbn [content]. split.
  - find_text_after "🔐 **".
  - StartFacts.find_text.
Qed.

Lemma X14_pay_with_session_witness :
  exists r w',
    X402Tool.handleX402Pay Ex.env (Ex.pay_input "https://api.example.com/v1/users") Ex.w1
    = (Normal r, w')
    /\ isError r = false
    /\ paid w' = []
    /\ Str.includes (content r) "  Calls:      1".
Proof.
  assert (store_ok (store Ex.w1)) as Hok.
  { split.
    - repeat constructor. simpl. tauto.
    - simpl. intros k s [H|[]]. injection H as <- <-. reflexivity. }
  destruct (@X14_pay_with_session Ex.env (Ex.pay_input "https://api.example.com/v1/users")
              Ex.w1 (mkConfig "0xwallet" 8453) Ex.s1 Ex.ok200 "ok"
              Hok eq_refl eq_refl eq_refl eq_refl eq_refl)
    as (r & H1 & H2 & _ & H4).
  - discriminate.
  - reflexivity.
  - exists r. eexists. split; [exact H1|]. split; [exact H2|].
    split; [reflexivity | exact H4].
Defined.

(** X15.  A session request that fails is not counted.  When
    [x402_session_fetch] is called on an active session for a URL it
    covers and the request is rejected -- the network fails, or the
    timeout aborts it -- the tool returns an error, the session's count
    of calls and last use are as before, and nothing is paid.  An
    [AbortError] is reported as a timeout after [timeout_ms], or 30000,
    milliseconds; any other error with its message. *)
Theorem X15_session_fetch_failure (env : Env) (input : X402SessionFetchInput.t)
  (w : World) (s : SessionRecord.t) (e : Exn) :
  let id := X402SessionFetchInput.session_id input in
  let url := X402SessionFetchInput.url input in
  let timeoutMs :=
    match X402SessionFetchInput.timeout_ms input with
    | Some t => t
    | None => 30000
    end in
  let init :=
    Tool.session_request s url (X402SessionFetchInput.method input)
      (X402SessionFetchInput.headers input) (X402SessionFetchInput.body input)
      timeoutMs in
  let p := remote env (List.length (fetched w)) init in
  JsMap.get (store w) id = Some s ->
  clock w / 1000 < SessionRecord.expiresAt s ->
  SessionTools.isUrlCoveredBySession url (SessionRecord.endpoint s)
    (SessionRecord.scope s) = true ->
  settled p = Throw e ->
  SessionTools.handleX402SessionFetch env input w
  = (Normal
       (mkResult
          (if String.eqb (name e) "AbortError"
           then "❌ x402_session_fetch failed: Request timed out after "
                  ++ Str.of_Z timeoutMs ++ "ms"
           else "❌ x402_session_fetch failed: " ++ message e)
          true),
     mkWorld (store w) (clock w + elapsed p) (drawn w) (init :: fetched w) (paid w)).
Proof.
  intros id url timeoutMs init p Hget Hact Hcov Hp.
  assert ((clock w / 1000 >=? SessionRecord.expiresAt s) = false) as Hgeb.
  { destruct (Z.geb_spec (clock w / 1000) (SessionRecord.expiresAt s)); [lia | reflexivity]. }
  pose proof (@SessionFetchFacts.covered env input w s Hget Hgeb Hcov) as H.
  cbv zeta in H. fold timeoutMs url in H. fold init in H. fold p in H.
  rewrite Hp in H. rewrite H. unfold Tool.on_error, Tool.formatError, ret.
  unfold timeoutMs.
  destruct (String.eqb (name e) "AbortError"); reflexivity.
Qed.

Lemma X15_session_fetch_failure_witness :
  exists w',
    SessionTools.handleX402SessionFetch Ex2.env_slow
      (Ex.fetch_input "https://api.example.com/v1/users") Ex.w1
    = (Normal (mkResult "❌ x402_session_fetch failed: Request timed out after 30000ms" true),
       w')
    /\ store w' = store Ex.w1.
Proof.
  eexists. split.
  - apply (@X15_session_fetch_failure Ex2.env_slow
             (Ex.fetch_input "https://api.example.com/v1/users") Ex.w1 Ex.s1
             (mkExn "AbortError" "The operation was aborted")).
    + reflexivity.
    + vm_compute. reflexivity.
    + reflexivity.
    + reflexivity.
  - reflexivity.
Defined.

Module TextFacts.

Lemma includes_app_l (a b n : string) : Str.includes a n -> Str.includes (a ++ b) n.
Proof.
  intros [x [y ->]]. exists x, (y ++ b). now rewrite !StrFacts.app_assoc.
Qed.

Lemma includes_refl (n : string) : Str.includes n n.
Proof. exists "", "". cbn. now rewrite StrFacts.app_nil_r. Qed.

(** What a loop has appended stays in the text. *)
Lemma fold_includes (A : Type) (entry : A -> string) (l : list A) (init n : string) :
  Str.includes init n ->
  Str.includes (fold_left (fun out x => out ++ entry x) l init) n.
Proof.
  revert init. induction l as [|x l IH]; intros init H; [exact H|].
  cbn [fold_left]. apply IH. now apply includes_app_l.
Qed.

Lemma fold_includes_entry (A : Type) (entry : A -> string) (l : list A) (init : string)
  (x : A) (n : string) :
  In x l -> Str.includes (entry x) n ->
  Str.includes (fold_left (fun out x => out ++ entry x) l init) n.
Proof.
  revert init. induction l as [|y l IH]; intros init Hin Hn; [contradiction|].
  cbn [fold_left]. destruct Hin as [->|Hin].
  - apply fold_includes. now apply StartFacts.includes_app_r.
  - now apply IH.
Qed.

End TextFacts.

(* ================================================================== *)
(** * Further properties: closing and inspecting sessions *)
(* ================================================================== *)

(** X16.  [x402_session_end] closes and does nothing else.  It never
    removes an entry of the table and never touches another session.  On
    an unknown identifier it returns an error and leaves the world as it
    is; on a session that has expired it says so, without an error, and
    leaves the world as it is; on an active session it sets the expiry of
    that session to zero, and nothing else in the record. *)
Theorem X16_session_end_cases (input : X402SessionEndInput.t) (w : World) :
  let id := X402SessionEndInput.session_id input in
  let now := clock w / 1000 in
  exists r w',
    SessionAdmin.handleX402SessionEnd input w = (Normal r, w')
    /\ JsMap.keys (store w') = JsMap.keys (store w)
    /\ (forall k, k <> id -> JsMap.get (store w') k = JsMap.get (store w) k)
    /\ match JsMap.get (store w) id with
       | None => w' = w /\ isError r = true
       | Some s =>
           isError r = false
           /\ (SessionRecord.expiresAt s <= now ->
               w' = w /\ Str.includes (content r) "was already expired")
           /\ (now < SessionRecord.expiresAt s ->
               JsMap.get (store w') id = Some (SessionRecord.set_expiresAt 0 s)
               /\ Str.includes (content r) "Session Closed")
       end.
Proof.
  intros id now.
  unfold SessionAdmin.handleX402SessionEnd, catch, bind, Manager.lookupSession,
    Manager.endSession, bind, get_store, now_seconds, put_store, ret.
  fold id. destruct (JsMap.get (store w) id) as [s|] eqn:E.
  - fold now. destruct (Z.geb_spec now (SessionRecord.expiresAt s)) as [Hge|Hlt].
    + eexists. eexists. split; [reflexivity|]. split; [reflexivity|].
      split; [reflexivity|]. split; [reflexivity|]. split.
      * intros _. split; [reflexivity|]. cbn [content]. find_text_after " ".
      * intros H. lia.
    + rewrite E. eexists. eexists. split; [reflexivity|]. cbn [store]. split.
      { eapply TableFacts.keys_set_present. exact E. }
      split.
      { intros k Hk. now apply JsMapFacts.get_set_other. }
      split; [reflexivity|]. split.
      * intros H. lia.
      * intros _. split; [apply JsMapFacts.get_set_same|].
        cbn [content]. exists "✅ **". eexists. reflexivity.
  - eexists. eexists. split; [reflexivity|]. split; [reflexivity|].
    split; [reflexivity|]. split; reflexivity.
Qed.

(** X17.  Inspecting one session reads only.  [x402_session_status] with
    an identifier leaves the world as it is: it does not prune and does
    not count as a use.  For an unknown identifier the result is an
    error.  For a stored session whose times of creation, of expiry and,
    if it was used, of last use are times that [Date] holds -- so that
    [toISOString] does not throw -- and whose token is the one
    [createSession] makes -- the base64url of the canonical payload, a
    dot, and a signature of ASCII characters without a dot -- the result
    is no error and shows, decoded from the token, the protocol version
    of the payload and the two ends of the signature. *)
Theorem X17_status_of_one_session (env : Env)
  (ttlProgressBar Number_toString : Z -> Z -> string) (id : string) (w : World) :
  id <> "" ->
  let input := X402SessionStatusInput.mk (Some id) in
  exists r,
    SessionAdmin.handleX402SessionStatus env ttlProgressBar Number_toString input w
    = (Normal r, w)
    /\ match JsMap.get (store w) id with
       | None => isError r = true /\ Str.includes (content r) "Session not found"
       | Some s =>
           forall p sg,
             Js.valid_time (SessionRecord.createdAt s) ->
             Js.valid_time (SessionRecord.expiresAt s) ->
             (0 < SessionRecord.lastUsedAt s ->
              Js.valid_time (SessionRecord.lastUsedAt s)) ->
             is_ascii sg = true ->
             Str.mem "." sg = false ->
             SessionRecord.sessionToken s
             = Base64url.encode (Manager.canonicalise (SessionTokenPayload.to_object p))
                 ++ "." ++ sg ->
             isError r = false
             /\ Str.includes (content r)
                  ("  Protocol:      " ++ SessionTokenPayload.version p)
             /\ Str.includes (content r)
                  ("  Signature:     " ++ Str.slice sg 0 20 ++ "..."
                     ++ Str.slice_from sg (-8))
       end.
Proof.
  intros Hid input.
  unfold SessionAdmin.handleX402SessionStatus, catch. unfold bind at 1.
  unfold now_seconds at 1. cbn [X402SessionStatusInput.session_id input Tool.truthy].
  destruct (String.eqb_spec id "") as [E|_]; [contradiction|]. cbn [negb].
  unfold bind at 1. unfold Manager.lookupSession, bind, get_store, now_seconds, ret.
  destruct (JsMap.get (store w) id) as [s|] eqn:E.
  - cbv beta iota zeta. unfold lift.
    destruct (Manager.decodeSessionToken (SessionRecord.sessionToken s))
      as [[d|]|e] eqn:Ed.
    + destruct (SessionAdmin.version_text Number_toString (Manager.payload d))
        as [v|e] eqn:Ev.
      * eexists. split; [reflexivity|]. intros p sg _ _ _ _ Hsg Htok.
        rewrite Htok, (@CodecFacts.decode_token p sg Hsg) in Ed. injection Ed as <-.
        cbn [Manager.payload Manager.dec_signature] in Ev |- *.
        assert (v = SessionTokenPayload.version p) as ->.
        { destruct p. cbn in Ev. now injection Ev as <-. }
        split; [reflexivity|]. cbn [content]. split.
        -- apply StartFacts.includes_app_r. apply StartFacts.includes_app_r.
           apply StartFacts.includes_app_r. StartFacts.find_text.
        -- match goal with
           | |- Str.includes (?out ++ ?a ++ ?b ++ ?c ++ ?d ++ ?e ++ _) _ =>
               exists (out ++ a ++ b ++ c ++ d ++ e), Tool.nl
           end.
           rewrite !StrFacts.app_assoc. reflexivity.
      * eexists. split; [reflexivity|]. intros p sg _ _ _ _ Hsg Htok.
        rewrite Htok, (@CodecFacts.decode_token p sg Hsg) in Ed. injection Ed as <-.
        destruct p. cbn in Ev. discriminate Ev.
    + eexists. split; [reflexivity|]. intros p sg _ _ _ _ Hsg Htok.
      rewrite Htok, (@CodecFacts.decode_token p sg Hsg) in Ed. discriminate Ed.
    + eexists. split; [reflexivity|]. intros p sg _ _ _ _ Hsg Htok.
      rewrite Htok, (@CodecFacts.decode_token p sg Hsg) in Ed. discriminate Ed.
  - eexists. split; [reflexivity|]. split; [reflexivity|].
    cbn [content]. exists "❌ ". eexists. reflexivity.
Qed.

Lemma X17_status_of_one_session_witness :
  exists r,
    SessionAdmin.handleX402SessionStatus Ex.env Ex2.bar Ex2.num
      (X402SessionStatusInput.mk (Some Ex.id1)) Ex2.w_created
    = (Normal r, Ex2.w_created)
    /\ isError r = false
    /\ Str.includes (content r) "  Protocol:      clawpay/1.1".
Proof.
  assert (Ex.id1 <> "") as Hid by discriminate.
  destruct (@X17_status_of_one_session Ex.env Ex2.bar Ex2.num Ex.id1 Ex2.w_created Hid)
    as (r & H1 & H2).
  exists r. split; [exact H1|].
  destruct (JsMap.get (store Ex2.w_created) Ex.id1) as [s|] eqn:E.
  - vm_compute in E. injection E as <-.
    destruct (H2 (Manager.payload_of Ex2.opts1 Ex.id1 1000000 1003600) "0xsig")
      as (H3 & H4 & _).
    + vm_compute. split; discriminate.
    + vm_compute. split; discriminate.
    + intros _. vm_compute. split; discriminate.
    + reflexivity.
    + reflexivity.
    + vm_compute. reflexivity.
    + split; [exact H3 | exact H4].
  - vm_compute in E. discriminate E.
Defined.

(** X18.  Listing the sessions.  [x402_session_status] without an
    identifier -- or with an empty one -- does what [listActiveSessions]
    does to the world, which is to remove the expired entries, and
    returns no error.  On a table without duplicate identifiers it says
    that there is no active session exactly when no entry of the table
    has [expiresAt > now]; otherwise it gives the number of those
    sessions and the identifier of each of them. *)
Theorem X18_status_lists_active_sessions (env : Env)
  (ttlProgressBar Number_toString : Z -> Z -> string)
  (input : X402SessionStatusInput.t) (w : World) :
  Tool.truthy (X402SessionStatusInput.session_id input) = false ->
  NoDup (JsMap.keys (store w)) ->
  let active := Manager.active_at (clock w / 1000) (store w) in
  exists r,
    SessionAdmin.handleX402SessionStatus env ttlProgressBar Number_toString input w
    = (Normal r, snd (Manager.listActiveSessions w))
    /\ isError r = false
    /\ match active with
       | [] => Str.includes (content r) "No active sessions"
       | _ :: _ =>
           Str.includes (content r)
             ("📋 **Active x402 Sessions** ("
                ++ Str.of_Z (Z.of_nat (List.length active)) ++ ")")
           /\ forall s, In s active ->
                Str.includes (content r) ("  ID:       " ++ SessionRecord.sessionId s)
       end.
Proof.
  intros Hin Hnd active.
  destruct (@ListFacts.listActiveSessions_filter w Hnd) as [Hl Hv].
  unfold SessionAdmin.handleX402SessionStatus, catch. unfold bind at 1.
  unfold now_seconds at 1. rewrite Hin. unfold bind at 1. rewrite Hl. cbn [snd].
  rewrite Hv. fold active. destruct active as [|a l] eqn:Ea.
  - cbn [List.length Z.of_nat Z.eqb]. unfold ret. eexists. split; [reflexivity|].
    split; [reflexivity|]. cbn [content]. StartFacts.find_text.
  - destruct (Z.eqb_spec (Z.of_nat (List.length (a :: l))) 0) as [E0|_];
      [cbn [List.length] in E0; lia|].
    unfold ret. eexists. split; [reflexivity|]. split; [reflexivity|].
    cbn [content]. split.
    + apply TextFacts.includes_app_l. apply TextFacts.fold_includes.
      exists "", (Tool.nl ++ Tool.nl). rewrite !StrFacts.app_assoc. reflexivity.
    + intros s Hs. apply TextFacts.includes_app_l.
      apply (@TextFacts.fold_includes_entry _ _ _ _ s); [exact Hs|].
      unfold SessionAdmin.list_entry. StartFacts.find_text.
Qed.

Lemma X18_status_lists_active_sessions_witness :
  exists r w',
    SessionAdmin.handleX402SessionStatus Ex.env Ex2.bar Ex2.num
      (X402SessionStatusInput.mk None) Ex.w4
    = (Normal r, w')
    /\ Str.includes (content r) "📋 **Active x402 Sessions** (2)"
    /\ Str.includes (content r) ("  ID:       " ++ Ex.id1).
Proof.
  assert (NoDup (JsMap.keys (store Ex.w4))) as Hnd.
  { repeat constructor; simpl; intuition discriminate. }
  destruct (@X18_status_lists_active_sessions Ex.env Ex2.bar Ex2.num
              (X402SessionStatusInput.mk None) Ex.w4 eq_refl Hnd) as (r & H1 & _ & H3).
  exists r. eexists. split; [exact H1|].
  destruct H3 as [H3 H4]. split; [exact H3|].
  apply (H4 Ex.s_exact). right. left. reflexivity.
Defined.

Module AmountTests.
Import Payments.

Example amount_plain : parseTokenAmount "1.5" 6 = Normal 1500000.
Proof. reflexivity. Qed.

Example amount_truncated : parseTokenAmount " 0.1234567 " 6 = Normal 123456.
Proof. reflexivity. Qed.

Example amount_no_int : parseTokenAmount ".5" 6 = Normal 500000.
Proof. reflexivity. Qed.

Example amount_negative : parseTokenAmount "-1.5" 6 = Normal (-1500000).
Proof. reflexivity. Qed.

Example amount_exponent : exists e, parseTokenAmount "1e3" 6 = Throw e /\ name e = "SyntaxError".
Proof. eexists. split; reflexivity. Qed.

Example amount_exponent_cut : parseTokenAmount "1.5e3" 1 = Normal 15.
Proof. reflexivity. Qed.

Example amount_hex : parseTokenAmount "0x10" 6 = Normal 268435456.
Proof. reflexivity. Qed.

Example amount_words : exists e, parseTokenAmount "abc" 6 = Throw e /\ name e = "Error".
Proof. eexists. split; reflexivity. Qed.

Example amount_two_points : exists e, parseTokenAmount "1.2.3" 6 = Throw e /\ name e = "Error".
Proof. eexists. split; reflexivity. Qed.

Example amount_empty : exists e, parseTokenAmount "   " 6 = Throw e /\ name e = "Error".
Proof. eexists. split; reflexivity. Qed.

End AmountTests.

Module DigitFacts.
Import Runtime.

Lemma is_digit_code (c : ascii) :
  JSON.is_digit c = true -> (48 <= N_of_ascii c <= 57)%N.
Proof.
  unfold JSON.is_digit. cbv zeta. rewrite andb_true_iff, !N.leb_le. tauto.
Qed.

Lemma usize_digits (s : string) :
  DecimalPos.Unsigned.usize (JSON.uint_of_digits s) = N.of_nat (String.length s).
Proof.
  induction s as [|c r IH]; [reflexivity|].
  cbn [JSON.uint_of_digits String.length]. rewrite Nat2N.inj_succ, <- IH.
  unfold JSON.digit_of.
  repeat match goal with
         | |- context [match ?p with _ => _ end] => destruct p
         end; reflexivity.
Qed.

Lemma digits_value_cons (c : ascii) (r : string) :
  JSON.is_digit c = true ->
  JSON.digits_value (String c r)
  = (Z.of_N (N_of_ascii c) - 48) * 10 ^ Z.of_nat (String.length r) + JSON.digits_value r.
Proof.
  intros Hc. apply is_digit_code in Hc.
  unfold JSON.digits_value, Z.of_uint, N.of_uint. cbn [JSON.uint_of_digits].
  rewrite !DecimalPos.Unsigned.of_uint_alt.
  assert (forall k d, (k <= 9)%N ->
            DecimalPos.Unsigned.of_lu
              (Decimal.rev
                 (match k with
                  | 0 => D0 d | 1 => D1 d | 2 => D2 d | 3 => D3 d | 4 => D4 d
                  | 5 => D5 d | 6 => D6 d | 7 => D7 d | 8 => D8 d | _ => D9 d
                  end%N))
            = (DecimalPos.Unsigned.of_lu (Decimal.rev d)
               + k * 10 ^ DecimalPos.Unsigned.usize d)%N) as H.
  { intros k d Hk.
    assert (k = 0 \/ k = 1 \/ k = 2 \/ k = 3 \/ k = 4 \/ k = 5 \/ k = 6 \/ k = 7
            \/ k = 8 \/ k = 9)%N as Hcases by lia.
    repeat (destruct Hcases as [->|Hcases]); try subst k;
      unfold Decimal.rev; cbn [Decimal.revapp];
      rewrite DecimalPos.Unsigned.of_lu_revapp; reflexivity. }
  unfold JSON.digit_of. rewrite H by lia. rewrite usize_digits.
  rewrite N2Z.inj_add, N2Z.inj_mul, N2Z.inj_pow, N2Z.inj_sub by lia.
  rewrite nat_N_Z. cbn [Z.of_N]. lia.
Qed.

Lemma digits_value_nil : JSON.digits_value "" = 0.
Proof. reflexivity. Qed.

Lemma digits_value_bounds (s : string) :
  all_digits s = true ->
  0 <= JSON.digits_value s < 10 ^ Z.of_nat (String.length s).
Proof.
  induction s as [|c r IH]; [cbn; lia|].
  cbn [all_digits]. rewrite andb_true_iff. intros [Hc Hr].
  rewrite digits_value_cons by exact Hc. specialize (IH Hr).
  apply is_digit_code in Hc. cbn [String.length]. rewrite Nat2Z.inj_succ, Z.pow_succ_r by lia.
  nia.
Qed.

Lemma digits_value_app (a b : string) :
  all_digits a = true ->
  JSON.digits_value (a ++ b)
  = JSON.digits_value a * 10 ^ Z.of_nat (String.length b) + JSON.digits_value b.
Proof.
  induction a as [|c r IH]; [intros _; cbn [append]; rewrite digits_value_nil; lia|].
  cbn [all_digits append]. rewrite andb_true_iff. intros [Hc Hr].
  rewrite !digits_value_cons by exact Hc. rewrite IH by exact Hr.
  rewrite StrFacts.length_app, Nat2Z.inj_add, Z.pow_add_r by lia. ring.
Qed.

Lemma all_digits_app (a b : string) :
  all_digits (a ++ b) = all_digits a && all_digits b.
Proof.
  induction a as [|c r IH]; [reflexivity|]. cbn [append all_digits].
  now rewrite IH, andb_assoc.
Qed.

Lemma digits_value_zeros (n : nat) : JSON.digits_value (repeat "0" n) = 0.
Proof.
  induction n as [|n IH]; [reflexivity|]. cbn [repeat].
  rewrite digits_value_cons by reflexivity. rewrite IH. cbn. lia.
Qed.

Lemma all_digits_zeros (n : nat) : all_digits (repeat "0" n) = true.
Proof. induction n as [|n IH]; [reflexivity|]. cbn. exact IH. Qed.

Lemma length_zeros (c : ascii) (n : nat) : String.length (repeat c n) = n.
Proof. induction n as [|n IH]; [reflexivity|]. cbn. now rewrite IH. Qed.

(** The value of decimal digits, read from the most significant on. *)
Lemma value_in_digits (s : string) (acc : Z) :
  all_digits s = true ->
  value_in 10 s acc = Some (acc * 10 ^ Z.of_nat (String.length s) + JSON.digits_value s).
Proof.
  revert acc. induction s as [|c r IH]; intros acc.
  - intros _. cbn. f_equal. lia.
  - cbn [all_digits]. rewrite andb_true_iff. intros [Hc Hr].
    rewrite digits_value_cons by exact Hc.
    pose proof (is_digit_code c Hc) as Hn.
    cbn [value_in]. unfold JSON.hex_val. cbv zeta.
    destruct (N.leb_spec 48 (N_of_ascii c)); [|lia].
    destruct (N.leb_spec (N_of_ascii c) 57); [|lia]. cbn [andb].
    destruct (Z.ltb_spec (Z.of_N (N_of_ascii c - 48)) 10); [|lia].
    rewrite IH by exact Hr. f_equal.
    cbn [String.length]. rewrite Nat2Z.inj_succ, Z.pow_succ_r by lia.
    rewrite N2Z.inj_sub by lia. cbn [Z.of_N]. ring.
Qed.

End DigitFacts.

Module AmountFacts.
Import Runtime Payments DigitFacts.

Lemma space_at_printable (c : ascii) (r : string) :
  printable_code c -> Js.space_at (String c r) = O.
Proof.
  unfold printable_code, Js.space_at. cbv zeta. intros H.
  destruct (N.leb_spec 9 (N_of_ascii c)); destruct (N.leb_spec (N_of_ascii c) 13);
    try lia; destruct (N.eqb_spec (N_of_ascii c) 32); try lia; cbn [andb orb].
  all: destruct r as [|d [|e r']]; try reflexivity.
  all: destruct (N.eqb_spec (N_of_ascii c) 194); try lia; cbn [andb]; try reflexivity.
  all: destruct (N.eqb_spec (N_of_ascii c) 225); try lia;
       destruct (N.eqb_spec (N_of_ascii c) 226); try lia;
       destruct (N.eqb_spec (N_of_ascii c) 227); try lia;
       destruct (N.eqb_spec (N_of_ascii c) 239); try lia; reflexivity.
Qed.

Lemma trim_start_printable (fuel : nat) (c : ascii) (r : string) :
  printable_code c -> Js.trim_start_n fuel (String c r) = String c r.
Proof.
  intros H. destruct fuel; [reflexivity|]. cbn [Js.trim_start_n].
  now rewrite space_at_printable.
Qed.

Lemma trim_end_printable (s : string) :
  Forall printable_code (list_ascii_of_string s) -> trim_end s = s.
Proof.
  induction s as [|c r IH]; [reflexivity|].
  cbn [list_ascii_of_string]. intros H. inversion H as [|? ? Hc Hr]; subst.
  cbn [trim_end String.length all_space_n]. rewrite space_at_printable by exact Hc.
  now rewrite IH.
Qed.

Lemma trim_printable (s : string) :
  Forall printable_code (list_ascii_of_string s) -> trim s = s.
Proof.
  intros H. unfold trim, Js.trim_start. destruct s as [|c r]; [reflexivity|].
  rewrite trim_start_printable; [now apply trim_end_printable|].
  now inversion H.
Qed.

Lemma digit_printable (c : ascii) : JSON.is_digit c = true -> printable_code c.
Proof. intros H. apply is_digit_code in H. unfold printable_code. lia. Qed.

Lemma digits_printable (s : string) :
  all_digits s = true -> Forall printable_code (list_ascii_of_string s).
Proof.
  induction s as [|c r IH]; [constructor|].
  cbn [all_digits list_ascii_of_string]. rewrite andb_true_iff. intros [Hc Hr].
  constructor; [now apply digit_printable | now apply IH].
Qed.

Lemma list_ascii_app (a b : string) :
  list_ascii_of_string (a ++ b)
  = (list_ascii_of_string a ++ list_ascii_of_string b)%list.
Proof. induction a as [|c r IH]; [reflexivity|]. cbn. now rewrite IH. Qed.

Lemma span_digits_all (s : string) :
  all_digits s = true -> JSON.span_digits s = (s, "").
Proof.
  induction s as [|c r IH]; [reflexivity|].
  cbn [all_digits JSON.span_digits]. rewrite andb_true_iff. intros [Hc Hr].
  now rewrite Hc, IH.
Qed.

Lemma span_digits_app (a : string) (c : ascii) (r : string) :
  all_digits a = true -> JSON.is_digit c = false ->
  JSON.span_digits (a ++ String c r) = (a, String c r).
Proof.
  intros Ha Hc. induction a as [|x a IH].
  - cbn [append JSON.span_digits]. now rewrite Hc.
  - cbn [all_digits] in Ha. apply andb_true_iff in Ha. destruct Ha as [Hx Ha].
    cbn [append JSON.span_digits]. now rewrite Hx, IH.
Qed.

Lemma split_digits (s : string) : all_digits s = true -> split "." s = [s].
Proof.
  induction s as [|c r IH]; [reflexivity|].
  cbn [all_digits split]. rewrite andb_true_iff. intros [Hc Hr].
  destruct (Ascii.eqb_spec c ".") as [->|_]; [discriminate|].
  now rewrite IH.
Qed.

Lemma split_at_point (a r : string) :
  all_digits a = true -> split "." (a ++ String "." r) = a :: split "." r.
Proof.
  induction a as [|c a IH]; [reflexivity|].
  cbn [all_digits append split]. rewrite andb_true_iff. intros [Hc Ha].
  destruct (Ascii.eqb_spec c ".") as [->|_]; [discriminate|].
  now rewrite IH.
Qed.

Lemma non_decimal_digits (s : string) : all_digits s = true -> non_decimal s = None.
Proof.
  destruct s as [|z [|c r]]; try reflexivity.
  cbn [all_digits]. rewrite !andb_true_iff. intros [_ [Hc _]].
  unfold non_decimal. destruct (Ascii.eqb z "0"); [|reflexivity].
  destruct (Ascii.eqb_spec c "x") as [->|_]; [discriminate|].
  destruct (Ascii.eqb_spec c "X") as [->|_]; [discriminate|].
  destruct (Ascii.eqb_spec c "o") as [->|_]; [discriminate|].
  destruct (Ascii.eqb_spec c "O") as [->|_]; [discriminate|].
  destruct (Ascii.eqb_spec c "b") as [->|_]; [discriminate|].
  destruct (Ascii.eqb_spec c "B") as [->|_]; [discriminate|].
  reflexivity.
Qed.

Lemma sign_digits (s : string) : all_digits s = true -> sign s = (false, s).
Proof.
  destruct s as [|c r]; [reflexivity|].
  cbn [all_digits]. rewrite andb_true_iff. intros [Hc _]. unfold sign.
  destruct (Ascii.eqb_spec c "-") as [->|_]; [discriminate|].
  destruct (Ascii.eqb_spec c "+") as [->|_]; [discriminate|].
  reflexivity.
Qed.

(** [BigInt] of decimal digits. *)
Lemma BigInt_digits (s : string) :
  all_digits s = true -> BigInt s = Normal (JSON.digits_value s).
Proof.
  intros H. unfold BigInt. cbv zeta. rewrite trim_printable by now apply digits_printable.
  destruct (String.eqb_spec s "") as [->|Hne]; [reflexivity|].
  rewrite non_decimal_digits, sign_digits by exact H. cbn [fst snd].
  unfold digits_in. destruct s as [|c r]; [contradiction|].
  rewrite value_in_digits by exact H. f_equal; try lia.
Qed.

(** [slice(0, d)] and [padEnd(d, '0')] on the digits of the fraction. *)
Lemma fraction_digits (fp : string) (d : Z) :
  0 <= d ->
  padEnd (Str.slice fp 0 d) d "0"
  = if d <=? Str.length fp
    then Str.take (Z.to_nat d) fp
    else fp ++ repeat "0" (Z.to_nat (d - Str.length fp)).
Proof.
  intros Hd. unfold padEnd, Str.slice, Str.rel_index.
  destruct (Z.ltb_spec d 0); [lia|]. cbn [Z.ltb Z.compare].
  assert (0 <= Str.length fp) as Hl by (unfold Str.length; lia).
  rewrite (Z.min_l 0) by exact Hl. cbn [Z.to_nat Str.drop]. rewrite Z.sub_0_r.
  destruct (Z.leb_spec d (Str.length fp)) as [Hle|Hgt].
  - rewrite Z.min_l by exact Hle.
    assert (Str.length (Str.take (Z.to_nat d) fp) = d) as Hlen.
    { unfold Str.length in *. clear H Hl. revert d Hd Hle.
      induction fp as [|c r IH]; intros d Hd Hle.
      - cbn in *. assert (d = 0) by lia. now subst.
      - destruct (Z.to_nat d) as [|n] eqn:En; [cbn; lia|].
        cbn [Str.take String.length]. cbn [String.length] in Hle.
        specialize (IH (Z.of_nat n)). rewrite Nat2Z.id in IH. lia. }
    rewrite Hlen, Z.sub_diag. cbn [Z.to_nat repeat]. apply StrFacts.app_nil_r.
  - rewrite Z.min_r by lia. unfold Str.length. rewrite Nat2Z.id.
    now rewrite StrFacts.take_all.
Qed.

Lemma take_drop (n : nat) (s : string) : Str.take n s ++ Str.drop n s = s.
Proof.
  revert s. induction n as [|n IH]; intros s; [reflexivity|].
  destruct s as [|c r]; [reflexivity|]. cbn. now rewrite IH.
Qed.

Lemma length_take (n : nat) (s : string) :
  (n <= String.length s)%nat -> String.length (Str.take n s) = n.
Proof.
  revert s. induction n as [|n IH]; intros s H; [reflexivity|].
  destruct s as [|c r]; [cbn in H; lia|]. cbn in *. rewrite IH; lia.
Qed.

Lemma length_drop (n : nat) (s : string) :
  String.length (Str.drop n s) = (String.length s - n)%nat.
Proof.
  revert s. induction n as [|n IH]; intros s; [cbn; lia|].
  destruct s as [|c r]; [reflexivity|]. cbn. apply IH.
Qed.

(** The value of the digits that [parseTokenAmount] hands to [BigInt]:
    the amount times [10^d], rounded down. *)
Lemma scaled_value (ip fp : string) (d : Z) :
  all_digits ip = true -> all_digits fp = true -> 0 <= d ->
  let digits := ip ++ padEnd (Str.slice fp 0 d) d "0" in
  all_digits digits = true
  /\ JSON.digits_value digits
     = JSON.digits_value (ip ++ fp) * 10 ^ d / 10 ^ Str.length fp.
Proof.
  intros Hi Hf Hd. cbv zeta. rewrite fraction_digits by exact Hd.
  assert (0 <= Str.length fp) as Hl by (unfold Str.length; lia).
  destruct (Z.leb_spec d (Str.length fp)) as [Hle|Hgt].
  - pose proof (take_drop (Z.to_nat d) fp) as Htd.
    assert (all_digits (Str.take (Z.to_nat d) fp) = true
            /\ all_digits (Str.drop (Z.to_nat d) fp) = true) as [Ht Hdr].
    { rewrite <- Htd, all_digits_app in Hf. now apply andb_true_iff in Hf. }
    split; [now rewrite all_digits_app, Hi, Ht|].
    rewrite <- Htd at 2. rewrite <- StrFacts.app_assoc.
    rewrite (digits_value_app (ip ++ Str.take (Z.to_nat d) fp))
      by (now rewrite all_digits_app, Hi, Ht).
    pose proof (digits_value_bounds _ Hdr) as Hb. rewrite length_drop in Hb.
    set (v := JSON.digits_value (ip ++ Str.take (Z.to_nat d) fp)) in *.
    set (low := JSON.digits_value (Str.drop (Z.to_nat d) fp)) in *.
    rewrite length_drop.
    assert (Z.of_nat (String.length fp - Z.to_nat d) = Str.length fp - d) as Hk
      by (unfold Str.length in *; lia).
    rewrite Hk in *.
    assert (10 ^ Str.length fp = 10 ^ (Str.length fp - d) * 10 ^ d) as Hp.
    { rewrite <- Z.pow_add_r by lia. f_equal. lia. }
    rewrite Hp. rewrite Z.div_mul_cancel_r by (apply Z.pow_nonzero; lia).
    apply Z.div_unique with (r := low); [lia | ring].
  - split; [now rewrite !all_digits_app, Hi, Hf, all_digits_zeros|].
    rewrite <- StrFacts.app_assoc.
    rewrite (digits_value_app (ip ++ fp)) by (now rewrite all_digits_app, Hi, Hf).
    rewrite digits_value_zeros, length_zeros, Z.add_0_r.
    rewrite Z2Nat.id by lia.
    assert (10 ^ d = 10 ^ (d - Str.length fp) * 10 ^ Str.length fp) as Hp.
    { rewrite <- Z.pow_add_r by lia. f_equal. lia. }
    rewrite Hp, Z.mul_assoc, Z.div_mul by (apply Z.pow_nonzero; lia). reflexivity.
Qed.

End AmountFacts.

Module AmountCases.
Import Runtime Payments DigitFacts AmountFacts.

Lemma point_printable : printable_code ".".
Proof. unfold printable_code. cbn. lia. Qed.

Lemma plain_printable (ip fp : string) :
  all_digits ip = true -> all_digits fp = true ->
  Forall printable_code (list_ascii_of_string (ip ++ String "." fp)).
Proof.
  intros Hi Hf. rewrite list_ascii_app. apply Forall_app. split.
  - now apply digits_printable.
  - cbn [list_ascii_of_string]. constructor; [apply point_printable|].
    now apply digits_printable.
Qed.

Lemma sign_plain (ip fp : string) :
  all_digits ip = true ->
  sign (ip ++ String "." fp) = (false, ip ++ String "." fp).
Proof.
  destruct ip as [|c r]; [reflexivity|].
  cbn [all_digits append]. rewrite andb_true_iff. intros [Hc _]. unfold sign.
  destruct (Ascii.eqb_spec c "-") as [->|_]; [discriminate|].
  destruct (Ascii.eqb_spec c "+") as [->|_]; [discriminate|].
  reflexivity.
Qed.

Lemma plain_not_empty (ip fp : string) : ip ++ String "." fp <> "".
Proof. destruct ip; discriminate. Qed.

(** Digits, a point, digits, with a digit on one side at least, is a
    number. *)
Lemma plain_is_number (ip fp : string) :
  all_digits ip = true -> all_digits fp = true -> ip <> "" \/ fp <> "" ->
  Number_isNaN (ip ++ String "." fp) = false.
Proof.
  intros Hi Hf Hne. unfold Number_isNaN. cbv zeta.
  rewrite trim_printable by now apply plain_printable.
  destruct (String.eqb_spec (ip ++ String "." fp) "") as [E|_];
    [now apply plain_not_empty in E|].
  destruct (non_decimal _); [reflexivity|].
  rewrite sign_plain by exact Hi. cbn [snd]. unfold is_unsigned_decimal.
  rewrite span_digits_app by (exact Hi || reflexivity).
  cbn [Ascii.eqb Bool.eqb]. rewrite span_digits_all by exact Hf.
  rewrite String.eqb_refl. cbn [orb]. rewrite andb_true_r.
  destruct (String.eqb_spec ip "") as [->|_]; destruct (String.eqb_spec fp "") as [->|_];
    cbn; rewrite ?orb_true_r; try reflexivity.
  destruct Hne as [H|H]; now elim H.
Qed.

Lemma digits_is_number (ip : string) :
  all_digits ip = true -> ip <> "" -> Number_isNaN ip = false.
Proof.
  intros Hi Hne. unfold Number_isNaN. cbv zeta.
  rewrite trim_printable by now apply digits_printable.
  destruct (String.eqb_spec ip "") as [E|_]; [contradiction|].
  rewrite non_decimal_digits, sign_digits by exact Hi. cbn [snd].
  unfold is_unsigned_decimal. rewrite span_digits_all by exact Hi.
  destruct (String.eqb_spec ip "") as [E|_]; [contradiction|].
  cbn. now rewrite orb_true_r.
Qed.

End AmountCases.

(* ================================================================== *)
(** * Further properties: amounts *)
(* ================================================================== *)

(** X19.  [parseTokenAmount] on a plain decimal: digits, a point,
    digits, with a digit on one side of the point at least.  The result
    is the amount times [10^decimals], rounded down to an integer:
    fraction digits beyond [decimals] are dropped, never rounded, and no
    floating point is involved.  Without a point, digits give their value
    times [10^decimals]. *)
Theorem X19_parseTokenAmount_plain (ip fp : string) (decimals : Z) :
  all_digits ip = true -> all_digits fp = true -> 0 <= decimals ->
  (ip <> "" \/ fp <> "" ->
   Payments.parseTokenAmount (ip ++ "." ++ fp) decimals
   = Normal (JSON.digits_value (ip ++ fp) * 10 ^ decimals / 10 ^ Str.length fp))
  /\ (ip <> "" ->
      Payments.parseTokenAmount ip decimals
      = Normal (JSON.digits_value ip * 10 ^ decimals)).
Proof.
  intros Hi Hf Hd. split.
  - intros Hne. change (ip ++ "." ++ fp) with (ip ++ String "." fp).
    unfold Payments.parseTokenAmount. cbv zeta.
    rewrite AmountFacts.trim_printable by now apply AmountCases.plain_printable.
    destruct (String.eqb_spec (ip ++ String "." fp) "") as [E|_];
      [now apply AmountCases.plain_not_empty in E|].
    rewrite AmountCases.plain_is_number by assumption. cbn [orb].
    rewrite AmountFacts.split_at_point, AmountFacts.split_digits by assumption.
    cbn [nth].
    destruct (@AmountFacts.scaled_value ip fp decimals Hi Hf Hd) as [Hall Hval].
    rewrite AmountFacts.BigInt_digits by exact Hall. now rewrite Hval.
  - intros Hne. unfold Payments.parseTokenAmount. cbv zeta.
    rewrite AmountFacts.trim_printable by now apply AmountFacts.digits_printable.
    destruct (String.eqb_spec ip "") as [E|_]; [contradiction|].
    rewrite AmountCases.digits_is_number by assumption. cbn [orb].
    rewrite AmountFacts.split_digits by assumption. cbn [nth].
    destruct (@AmountFacts.scaled_value ip "" decimals Hi eq_refl Hd) as [Hall Hval].
    rewrite AmountFacts.BigInt_digits by exact Hall. rewrite Hval.
    rewrite StrFacts.app_nil_r. change (Str.length "") with 0.
    now rewrite Z.pow_0_r, Z.div_1_r.
Qed.

Lemma X19_parseTokenAmount_plain_witness :
  Payments.parseTokenAmount "12.3456789" 6 = Normal 12345678
  /\ Payments.parseTokenAmount "12" 6 = Normal 12000000.
Proof.
  destruct (@X19_parseTokenAmount_plain "12" "3456789" 6 eq_refl eq_refl) as [H1 H2].
  - lia.
  - split.
    + apply H1. left. discriminate.
    + apply H2. discriminate.
Defined.

Module ExponentFacts.
Import Runtime Payments DigitFacts AmountFacts.

Lemma exp_printable (ip r : string) :
  all_digits ip = true -> all_digits r = true ->
  Forall printable_code (list_ascii_of_string (ip ++ String "e" r)).
Proof.
  intros Hi Hr. rewrite list_ascii_app. apply Forall_app. split.
  - now apply digits_printable.
  - cbn [list_ascii_of_string]. constructor; [unfold printable_code; cbn; lia|].
    now apply digits_printable.
Qed.

Lemma exp_not_empty (ip r : string) : ip ++ String "e" r <> "".
Proof. destruct ip; discriminate. Qed.

Lemma exp_non_decimal (ip r : string) :
  all_digits ip = true -> non_decimal (ip ++ String "e" r) = None.
Proof.
  destruct ip as [|z [|c r']].
  - intros _. cbn [append]. now destruct r.
  - intros _. cbn [append]. unfold non_decimal. now destruct (Ascii.eqb z "0").
  - cbn [all_digits append]. rewrite !andb_true_iff. intros [_ [Hc _]].
    unfold non_decimal. destruct (Ascii.eqb z "0"); [|reflexivity].
    destruct (Ascii.eqb_spec c "x") as [->|_]; [discriminate|].
    destruct (Ascii.eqb_spec c "X") as [->|_]; [discriminate|].
    destruct (Ascii.eqb_spec c "o") as [->|_]; [discriminate|].
    destruct (Ascii.eqb_spec c "O") as [->|_]; [discriminate|].
    destruct (Ascii.eqb_spec c "b") as [->|_]; [discriminate|].
    destruct (Ascii.eqb_spec c "B") as [->|_]; [discriminate|].
    reflexivity.
Qed.

Lemma exp_sign (ip r : string) :
  all_digits ip = true -> ip <> "" ->
  sign (ip ++ String "e" r) = (false, ip ++ String "e" r).
Proof.
  destruct ip as [|c r']; [contradiction|].
  cbn [all_digits append]. rewrite andb_true_iff. intros [Hc _] _. unfold sign.
  destruct (Ascii.eqb_spec c "-") as [->|_]; [discriminate|].
  destruct (Ascii.eqb_spec c "+") as [->|_]; [discriminate|].
  reflexivity.
Qed.

Lemma exp_no_value (ip r : string) (acc : Z) :
  all_digits ip = true -> value_in 10 (ip ++ String "e" r) acc = None.
Proof.
  revert acc. induction ip as [|c ip IH]; intros acc; [reflexivity|].
  cbn [all_digits append value_in]. rewrite andb_true_iff. intros [Hc Hi].
  destruct (JSON.hex_val c) as [v|]; [|reflexivity].
  destruct (Z.of_N v <? 10); [now apply IH | reflexivity].
Qed.

Lemma no_point_split (s : string) : Str.mem "." s = false -> split "." s = [s].
Proof.
  induction s as [|c r IH]; [reflexivity|].
  cbn [Str.mem split]. rewrite orb_false_iff. intros [Hc Hr].
  rewrite Hc. now rewrite IH.
Qed.

Lemma digits_no_point (s : string) : all_digits s = true -> Str.mem "." s = false.
Proof.
  induction s as [|c r IH]; [reflexivity|].
  cbn [all_digits Str.mem]. rewrite andb_true_iff. intros [Hc Hr].
  destruct (Ascii.eqb_spec c ".") as [->|_]; [discriminate|]. now apply IH.
Qed.

End ExponentFacts.

(** X20.  [parseTokenAmount] on an amount in exponent notation without a
    point: digits, [e], digits.  The validity test, which asks [Number],
    lets it pass; [split] finds no point, the zeros are appended after
    the exponent, and [BigInt] rejects the result: the call always
    throws, and the error is the [SyntaxError] of [BigInt], not the
    invalid-amount error of the function. *)
Theorem X20_parseTokenAmount_exponent (ip ep : string) (decimals : Z) :
  all_digits ip = true -> ip <> "" ->
  all_digits ep = true -> ep <> "" ->
  0 <= decimals ->
  Runtime.Number_isNaN (ip ++ "e" ++ ep) = false
  /\ exists e,
       Payments.parseTokenAmount (ip ++ "e" ++ ep) decimals = Throw e
       /\ name e = "SyntaxError".
Proof.
  intros Hi Hin He Hen Hd. change (ip ++ "e" ++ ep) with (ip ++ String "e" ep).
  assert (Runtime.Number_isNaN (ip ++ String "e" ep) = false) as Hnum.
  { unfold Runtime.Number_isNaN. cbv zeta.
    rewrite AmountFacts.trim_printable by now apply ExponentFacts.exp_printable.
    destruct (String.eqb_spec (ip ++ String "e" ep) "") as [E|_];
      [now apply ExponentFacts.exp_not_empty in E|].
    rewrite ExponentFacts.exp_non_decimal, ExponentFacts.exp_sign by assumption.
    cbn [snd]. unfold Runtime.is_unsigned_decimal.
    rewrite AmountFacts.span_digits_app by (exact Hi || reflexivity).
    cbn [Ascii.eqb Bool.eqb]. unfold Runtime.is_exponent.
    rewrite AmountFacts.sign_digits by exact He. cbn [snd].
    rewrite AmountFacts.span_digits_all by exact He.
    destruct (String.eqb_spec ip "") as [E|_]; [contradiction|].
    destruct (String.eqb_spec ep "") as [E|_]; [contradiction|].
    cbn. now rewrite orb_true_r. }
  split; [exact Hnum|].
  unfold Payments.parseTokenAmount. cbv zeta.
  rewrite AmountFacts.trim_printable by now apply ExponentFacts.exp_printable.
  destruct (String.eqb_spec (ip ++ String "e" ep) "") as [E|_];
    [now apply ExponentFacts.exp_not_empty in E|].
  rewrite Hnum. cbn [orb].
  rewrite ExponentFacts.no_point_split.
  2:{ rewrite StrFacts.mem_app. cbn [Str.mem].
      rewrite !ExponentFacts.digits_no_point by assumption. reflexivity. }
  cbn [nth]. rewrite AmountFacts.fraction_digits by exact Hd.
  set (zeros := if decimals <=? Str.length "" then Str.take (Z.to_nat decimals) ""
                else "" ++ Runtime.repeat "0" (Z.to_nat (decimals - Str.length ""))).
  assert (all_digits zeros = true) as Hz.
  { unfold zeros. destruct (decimals <=? Str.length "").
    - now destruct (Z.to_nat decimals).
    - apply DigitFacts.all_digits_zeros. }
  rewrite StrFacts.app_assoc. cbn [append].
  unfold Runtime.BigInt. cbv zeta.
  assert (all_digits (ep ++ zeros) = true) as Hez
    by (now rewrite DigitFacts.all_digits_app, He, Hz).
  rewrite AmountFacts.trim_printable by now apply ExponentFacts.exp_printable.
  destruct (String.eqb_spec (ip ++ String "e" (ep ++ zeros)) "") as [E|_];
    [now apply ExponentFacts.exp_not_empty in E|].
  rewrite ExponentFacts.exp_non_decimal, ExponentFacts.exp_sign by assumption.
  cbn [fst snd]. unfold Runtime.digits_in.
  destruct (ip ++ String "e" (ep ++ zeros)) as [|c r] eqn:E;
    [now apply ExponentFacts.exp_not_empty in E|].
  rewrite <- E, ExponentFacts.exp_no_value by exact Hi.
  eexists. split; reflexivity.
Qed.

Lemma X20_parseTokenAmount_exponent_witness :
  exists e, Payments.parseTokenAmount "1e3" 6 = Throw e /\ name e = "SyntaxError".
Proof.
  assert ("1" <> "") as H1 by discriminate.
  assert ("3" <> "") as H3 by discriminate.
  assert (0 <= 6) as H6 by lia.
  exact (proj2 (@X20_parseTokenAmount_exponent "1" "3" 6 eq_refl H1 eq_refl H3 H6)).
Defined.

(** X21.  The three views of liveness agree.  On a table in order and for
    every record [s]: [lookupSession] finds [s] under its identifier and
    reports it not expired, if and only if [listActiveSessions] returns
    [s], if and only if [s] is among the sessions that
    [findSessionForUrl] searches, namely the stored records with
    [expiresAt > now].  At [now = expiresAt] all three take the session
    for expired. *)
Theorem X21_liveness_views_agree (w : World) (s : SessionRecord.t) :
  store_ok (store w) ->
  let now := clock w / 1000 in
  let live := In s (JsMap.values (store w)) /\ now < SessionRecord.expiresAt s in
  (Manager.lookupSession (SessionRecord.sessionId s) w = (Normal (Found s false), w)
   <-> live)
  /\ (In s (match fst (Manager.listActiveSessions w) with
            | Normal l => l
            | Throw _ => []
            end) <-> live)
  /\ (In s (Manager.active_at now (store w)) <-> live).
Proof.
  intros [Hnd Hk] now live.
  assert (In s (JsMap.values (store w))
          <-> JsMap.get (store w) (SessionRecord.sessionId s) = Some s) as Hin.
  { split.
    - intros H. unfold JsMap.values in H. apply in_map_iff in H.
      destruct H as [[k s'] [E H]]. simpl in E. subst s'.
      rewrite (Hk _ _ H). now apply JsMapFacts.in_get.
    - intros H. apply JsMapFacts.get_in in H. unfold JsMap.values.
      apply in_map_iff. now exists (SessionRecord.sessionId s, s). }
  assert (In s (Manager.active_at now (store w)) <-> live) as Hact.
  { rewrite FindFacts.active_at_in. unfold live, Spec.active. tauto. }
  split; [|split].
  - unfold Manager.lookupSession, bind, get_store, now_seconds, ret.
    unfold live. rewrite Hin. unfold now.
    destruct (JsMap.get (store w) (SessionRecord.sessionId s)) as [s'|].
    + destruct (Z.geb_spec (clock w / 1000) (SessionRecord.expiresAt s')) as [Hge|Hlt];
        split.
      * intros H. discriminate H.
      * intros [H1 H2]. injection H1 as ->. lia.
      * intros H. injection H as ->. now split.
      * intros [H1 H2]. now injection H1 as ->.
    + split; [intros H; discriminate H | intros [H _]; discriminate H].
  - destruct (@ListFacts.listActiveSessions_filter w Hnd) as [Hl Hv].
    rewrite Hl. cbn [fst]. rewrite Hv. exact Hact.
  - exact Hact.
Qed.

Lemma X21_liveness_views_agree_witness :
  Manager.lookupSession Ex.id1 Ex.w1 = (Normal (Found Ex.s1 false), Ex.w1)
  /\ In Ex.s1 (Manager.active_at (clock Ex.w1 / 1000) (store Ex.w1)).
Proof.
  assert (store_ok (store Ex.w1)) as Hok.
  { split.
    - repeat constructor. simpl. tauto.
    - simpl. intros k s [H|[]]. injection H as <- <-. reflexivity. }
  destruct (@X21_liveness_views_agree Ex.w1 Ex.s1 Hok) as (H1 & _ & H3).
  assert (In Ex.s1 (JsMap.values (store Ex.w1))
          /\ clock Ex.w1 / 1000 < SessionRecord.expiresAt Ex.s1) as Hlive.
  { split; [left; reflexivity | vm_compute; reflexivity]. }
  split; [apply H1, Hlive | apply H3, Hlive].
Defined.

Module CutFacts.

Lemma take_beyond (n : nat) (s : string) :
  (String.length s <= n)%nat -> Str.take n s = s.
Proof.
  revert n. induction s as [|c r IH]; intros n H; [now destruct n|].
  destruct n as [|n]; [cbn in H; lia|]. cbn in *. f_equal. apply IH. lia.
Qed.

Lemma slice_head (s : string) (n : Z) :
  0 <= n -> Str.slice s 0 n = Str.take (Z.to_nat (Z.min n (Str.length s))) s.
Proof.
  intros Hn. unfold Str.slice, Str.rel_index.
  assert (0 <= Str.length s) as Hl by (unfold Str.length; lia).
  destruct (Z.ltb_spec n 0); [lia|]. change (0 <? 0) with false. cbv iota.
  rewrite (Z.min_l 0) by exact Hl. rewrite Z.sub_0_r. reflexivity.
Qed.

End CutFacts.

(** X22.  The body shown by [x402_pay] and [x402_session_fetch], for a
    body of ASCII characters, whose length in bytes is its length in the
    program.  A body of at most 8000 characters is shown as it is.  A
    longer one is cut to its first 8000 characters, followed by the
    truncation notice: what is shown never exceeds 8026 characters and
    always starts with the first 8000 characters of the body. *)
Theorem X22_displayText_bounded (body : string) :
  is_ascii body = true ->
  let head := Str.take (Z.to_nat 8000) body in
  (Str.length body <= 8000 -> SessionTools.displayText body = body)
  /\ (8000 < Str.length body ->
      SessionTools.displayText body
      = head ++ Tool.nl ++ Tool.nl ++ "... [response truncated]")
  /\ Str.length (SessionTools.displayText body) <= 8026
  /\ Str.startsWith (SessionTools.displayText body) head = true.
Proof.
  intros _ head. unfold SessionTools.displayText. cbv zeta.
  assert (0 <= Str.length body) as Hl by (unfold Str.length; lia).
  destruct (Z.gtb_spec (Str.length body) 8000) as [Hgt|Hle].
  - rewrite CutFacts.slice_head by lia. rewrite Z.min_l by lia. fold head.
    split; [lia|]. split; [reflexivity|]. split.
    + unfold Str.length in *. rewrite StrFacts.length_app. unfold head.
      rewrite AmountFacts.length_take by lia.
      change (String.length (Tool.nl ++ Tool.nl ++ "... [response truncated]"))
        with 26%nat.
      lia.
    + apply StrFacts.startsWith_app.
  - split; [reflexivity|]. split; [lia|]. split; [lia|].
    unfold head. rewrite CutFacts.take_beyond by (unfold Str.length in Hle; lia).
    rewrite <- (StrFacts.app_nil_r body) at 1. apply StrFacts.startsWith_app.
Qed.

Lemma X22_displayText_bounded_witness :
  let long := Runtime.repeat "a" (Z.to_nat 8010) in
  is_ascii long = true
  /\ Str.length long = 8010
  /\ SessionTools.displayText long
     = Runtime.repeat "a" (Z.to_nat 8000)
         ++ Tool.nl ++ Tool.nl ++ "... [response truncated]"
  /\ SessionTools.displayText "{}" = "{}".
Proof.
  cbv zeta.
  assert (is_ascii (Runtime.repeat "a" (Z.to_nat 8010)) = true) as Ha
    by (vm_compute; reflexivity).
  assert (Str.length (Runtime.repeat "a" (Z.to_nat 8010)) = 8010) as Hl
    by (vm_compute; reflexivity).
  split; [exact Ha|]. split; [exact Hl|]. split.
  - destruct (@X22_displayText_bounded (Runtime.repeat "a" (Z.to_nat 8010)) Ha)
      as (_ & H & _).
    rewrite H by (rewrite Hl; lia). vm_compute. reflexivity.
  - destruct (@X22_displayText_bounded "{}" eq_refl) as (H & _).
    apply H. vm_compute. discriminate.
Defined.

Module OrderFacts.
Import JsMapFacts.

Lemma leb_trans (a b c : string) :
  String.leb a b = true -> String.leb b c = true -> String.leb a c = true.
Proof.
  revert b c. induction a as [|x a IH]; intros b c.
  - intros _ _. now destruct c.
  - destruct b as [|y b]; [discriminate|]. destruct c as [|z c]; [discriminate|].
    unfold String.leb in *. cbn [String.compare]. unfold Ascii.compare.
    destruct (N.compare_spec (N_of_ascii x) (N_of_ascii y)) as [Hxy|Hxy|Hxy];
      destruct (N.compare_spec (N_of_ascii y) (N_of_ascii z)) as [Hyz|Hyz|Hyz];
      destruct (N.compare_spec (N_of_ascii x) (N_of_ascii z)) as [Hxz|Hxz|Hxz];
      try discriminate; try lia; try reflexivity.
    apply IH.
Qed.

Lemma insert_perm (k : string) (l : list string) :
  Permutation (k :: l) (Js.insert_sorted k l).
Proof.
  induction l as [|x l IH]; [reflexivity|]. cbn [Js.insert_sorted].
  destruct (String.leb k x); [reflexivity|].
  rewrite perm_swap. now apply perm_skip.
Qed.

Lemma sort_perm (l : list string) : Permutation l (Js.sort l).
Proof.
  unfold Js.sort. induction l as [|x l IH]; [reflexivity|]. cbn [fold_right].
  rewrite <- insert_perm. now apply perm_skip.
Qed.

Lemma insert_sorted_sorted (k : string) (l : list string) :
  StronglySorted (fun a b => String.leb a b = true) l ->
  StronglySorted (fun a b => String.leb a b = true) (Js.insert_sorted k l).
Proof.
  induction l as [|x l IH]; intros H.
  - repeat constructor.
  - apply StronglySorted_inv in H. destruct H as [Hs Hf]. cbn [Js.insert_sorted].
    destruct (String.leb k x) eqn:E.
    + constructor; [now constructor|]. constructor; [exact E|].
      eapply Forall_impl; [|exact Hf]. intros y Hy. now apply (leb_trans k x y).
    + constructor; [now apply IH|].
      assert (String.leb x k = true) as Hxk.
      { destruct (String.leb_total k x) as [H|H]; [congruence | exact H]. }
      rewrite Forall_forall in *. intros y Hy.
      apply (Permutation_in _ (Permutation_sym (insert_perm k l))) in Hy.
      destruct Hy as [<-|Hy]; [exact Hxk | now apply Hf].
Qed.

Lemma sort_sorted (l : list string) :
  StronglySorted (fun a b => String.leb a b = true) (Js.sort l).
Proof.
  unfold Js.sort. induction l as [|x l IH]; [constructor|].
  cbn [fold_right]. now apply insert_sorted_sorted.
Qed.

Lemma sorted_perm_eq (l1 l2 : list string) :
  StronglySorted (fun a b => String.leb a b = true) l1 ->
  StronglySorted (fun a b => String.leb a b = true) l2 ->
  Permutation l1 l2 -> l1 = l2.
Proof.
  revert l2. induction l1 as [|a l1 IH]; intros l2 H1 H2 Hp.
  - apply Permutation_nil in Hp. now subst.
  - destruct l2 as [|b l2]; [apply Permutation_sym, Permutation_nil in Hp; discriminate|].
    apply StronglySorted_inv in H1. destruct H1 as [Hs1 Hf1].
    apply StronglySorted_inv in H2. destruct H2 as [Hs2 Hf2].
    rewrite Forall_forall in Hf1, Hf2.
    assert (a = b) as ->.
    { assert (In a (b :: l2)) as Ha by (apply (Permutation_in _ Hp); now left).
      assert (In b (a :: l1)) as Hb
        by (apply (Permutation_in _ (Permutation_sym Hp)); now left).
      destruct Ha as [<-|Ha]; [reflexivity|]. destruct Hb as [->|Hb]; [reflexivity|].
      apply String.leb_antisym; [now apply Hf1 | now apply Hf2]. }
    f_equal. apply IH; [exact Hs1 | exact Hs2 | now apply Permutation_cons_inv in Hp].
Qed.

(** The order of the properties of an object is immaterial to
    [Object.keys(obj).sort()] and to [obj[key]]. *)
Lemma sort_keys_perm (V : Type) (o o' : JsMap.t V) :
  Permutation o o' -> Js.sort (JsMap.keys o) = Js.sort (JsMap.keys o').
Proof.
  intros Hp. apply sorted_perm_eq; try apply sort_sorted.
  rewrite <- !sort_perm. unfold JsMap.keys. now apply Permutation_map.
Qed.

Lemma get_perm (V : Type) (o o' : JsMap.t V) (k : string) :
  NoDup (JsMap.keys o) -> Permutation o o' -> JsMap.get o k = JsMap.get o' k.
Proof.
  intros Hnd Hp.
  assert (NoDup (JsMap.keys o')) as Hnd'.
  { eapply Permutation_NoDup; [|exact Hnd]. unfold JsMap.keys. now apply Permutation_map. }
  destruct (JsMap.get o k) as [v|] eqn:E.
  - symmetry. apply in_get; [exact Hnd'|]. apply (Permutation_in _ Hp). now apply get_in.
  - destruct (JsMap.get o' k) as [v|] eqn:E'; [|reflexivity].
    apply get_in in E'. apply (Permutation_in _ (Permutation_sym Hp)) in E'.
    apply (in_get _ _ _ Hnd) in E'. congruence.
Qed.

Lemma canonicalise_perm (o o' : JsMap.t JSON.value) :
  NoDup (JsMap.keys o) -> Permutation o o' ->
  Manager.canonicalise o = Manager.canonicalise o'.
Proof.
  intros Hnd Hp. unfold Manager.canonicalise. cbv zeta.
  rewrite (sort_keys_perm Hp). do 2 f_equal.
  generalize (Js.sort (JsMap.keys o')). intros l. generalize (@nil (string * JSON.value)).
  induction l as [|k l IH]; intros acc; [reflexivity|].
  cbn [fold_left]. rewrite (get_perm k Hnd Hp). apply IH.
Qed.

End OrderFacts.

(** X23.  The canonical payload does not depend on the order in which
    the properties of the payload object are written: for every payload
    and every reordering of the nine properties, [canonicalise] returns
    the same string, the JSON text of the properties in alphabetical
    order of their keys, without white space.  What is signed is
    reproducible. *)
Theorem X23_canonicalise_order_free (p : SessionTokenPayload.t)
  (o : JsMap.t JSON.value) :
  Permutation o (SessionTokenPayload.to_object p) ->
  Manager.canonicalise o = JSON.stringify (JSON.JObj (Spec.canonical_fields p))
  /\ JsMap.keys (Spec.canonical_fields p)
     = Js.sort (JsMap.keys o).
Proof.
  intros Hp. split.
  - rewrite <- CodecFacts.canonicalise_payload. symmetry.
    apply OrderFacts.canonicalise_perm; [|now apply Permutation_sym].
    cbn. repeat constructor; cbn; intuition discriminate.
  - rewrite (OrderFacts.sort_keys_perm Hp). reflexivity.
Qed.

Lemma X23_canonicalise_order_free_witness :
  Manager.canonicalise (List.rev (SessionTokenPayload.to_object Ex.payload))
  = JSON.stringify (JSON.JObj (Spec.canonical_fields Ex.payload)).
Proof.
  apply (@X23_canonicalise_order_free Ex.payload
           (List.rev (SessionTokenPayload.to_object Ex.payload))).
  apply Permutation_sym, Permutation_rev.
Defined.

(** X24.  Nothing happens without a wallet.  When [getWallet] or
    [getConfig] throws -- the environment variables of the wallet are
    missing or malformed -- [x402_pay] and [x402_session_start] return an
    error and leave the world as it is: no request of either kind is
    sent, no session is used or created. *)
Theorem X24_no_wallet_no_effect (env : Env) (w : World) :
  (getWallet env = Normal tt -> exists e, getConfig env = Throw e) ->
  (forall input, exists r,
      X402Tool.handleX402Pay env input w = (Normal r, w) /\ isError r = true)
  /\ (forall input, exists r,
        SessionTools.handleX402SessionStart env input w = (Normal r, w)
        /\ isError r = true).
Proof.
  intros H. split; intros input.
  - unfold X402Tool.handleX402Pay, catch, bind, lift.
    destruct (getWallet env) as [[]|e].
    + destruct (H eq_refl) as [e ->].
      destruct (ToolFacts.on_error_normal "x402_pay" (X402PayInput.timeout_ms input) e w)
        as (r & Hr & He). now exists r.
    + destruct (ToolFacts.on_error_normal "x402_pay" (X402PayInput.timeout_ms input) e w)
        as (r & Hr & He). now exists r.
  - unfold SessionTools.handleX402SessionStart, catch, bind, lift.
    destruct (getWallet env) as [[]|e].
    + destruct (H eq_refl) as [e ->].
      destruct (ToolFacts.on_error_normal "x402_session_start"
                  (X402SessionStartInput.timeout_ms input) e w) as (r & Hr & He).
      now exists r.
    + destruct (ToolFacts.on_error_normal "x402_session_start"
                  (X402SessionStartInput.timeout_ms input) e w) as (r & Hr & He).
      now exists r.
Qed.

Lemma X24_no_wallet_no_effect_witness :
  exists r,
    X402Tool.handleX402Pay Ex2.env_no_wallet
      (Ex.pay_input "https://api.example.com/v1/users") Ex.w1
    = (Normal r, Ex.w1)
    /\ isError r = true.
Proof.
  apply (@X24_no_wallet_no_effect Ex2.env_no_wallet Ex.w1).
  intros H. discriminate H.
Defined.
